(** * powerfit: PDB / mmCIF codec and the Structure entity

    A shallow embedding of [powerfit/structure.py]:
    - the Python primitives the module relies on ([str] slicing and
      [strip], [int()], [float()], [str.format]),
    - the PDB reader [parse_pdb], the mmCIF reader [parse_mmcif],
    - the PDB writer [tofile],
    - the [Structure] class ([fromfile], [tofile], [duplicate], [rotate],
      [rmsd]).

    Python [str] values are lists of characters whose code points are
    below 256; Python [int] is [Z]; Python [float] is a binary64 value
    ([spec_float]) in the codec and an exact real in [rmsd]. *)

From Stdlib Require Import ZArith List Ascii String Bool Lia.
From Stdlib Require Import Reals Lra Sorted.
From Stdlib Require Import Floats.SpecFloat.
From stdpp Require Import base option list gmap.

Local Open Scope Z_scope.

(** ** Exceptions and results *)

Inductive exn :=
| TypeError | ValueError | IndexError | IOError | ZeroDivisionError
| AttributeError.

Inductive result (A : Type) :=
| Ok (a : A)
| Raise (e : exn).
Arguments Ok {A} a.
Arguments Raise {A} e.

Definition rbind {A B} (m : result A) (k : A -> result B) : result B :=
  match m with
  | Ok a => k a
  | Raise e => Raise e
  end.

Notation "'let*' x ':=' m 'in' k" := (rbind m (fun x => k))
  (at level 10, x name, m at level 100, k at level 200,
   format "'[v' 'let*'  x  :=  m  'in' '/' k ']'").

Definition is_ok {A} (r : result A) : bool :=
  match r with Ok _ => true | Raise _ => false end.

(** ** Python strings *)

Module PyStr.

Definition str := list ascii.

Definition lit (s : string) : str := list_ascii_of_string s.

Definition code (c : ascii) : Z := Z.of_N (N_of_ascii c).

Definition in_range (lo hi : Z) (c : ascii) : bool :=
  (lo <=? code c) && (code c <=? hi).

(** [str.isspace] on one character (code points below 256). *)
Definition isspace (c : ascii) : bool :=
  in_range 9 13 c || in_range 28 32 c || (code c =? 133) || (code c =? 160).

(** [str.isalpha] on one character (code points below 256). *)
Definition isalpha (c : ascii) : bool :=
  in_range 65 90 c || in_range 97 122 c
  || (code c =? 170) || (code c =? 181) || (code c =? 186)
  || in_range 192 214 c || in_range 216 246 c || in_range 248 255 c.

Definition isdigit (c : ascii) : bool := in_range 48 57 c.

Definition digit_val (c : ascii) : Z := code c - 48.

Definition digit_char (d : Z) : ascii := ascii_of_N (Z.to_N (d + 48)).

Definition eqb (a b : str) : bool := bool_decide (a = b).

(** [s[a:b]] for constant bounds [0 <= a <= b]. *)
Definition slice (a b : nat) (s : str) : str := take (b - a) (drop a s).

(** [s[-n:]]. *)
Definition suffix (n : nat) (s : str) : str := drop (length s - n) s.

(** [s[i]] for an integer index: negative indices count from the end,
    anything out of range raises [IndexError]. *)
Definition getitem {A} (l : list A) (i : Z) : result A :=
  let n := Z.of_nat (length l) in
  let j := if i <? 0 then i + n else i in
  if (0 <=? j) && (j <? n)
  then match l !! Z.to_nat j with Some a => Ok a | None => Raise IndexError end
  else Raise IndexError.

(** [s[i]] on a string is the one-character string. *)
Definition char_at (s : str) (i : Z) : result str :=
  let* c := getitem s i in Ok [c].

Fixpoint lstrip (s : str) : str :=
  match s with
  | c :: s' => if isspace c then lstrip s' else s
  | [] => []
  end.

Definition rstrip (s : str) : str := rev (lstrip (rev s)).

(** [s.strip()]. *)
Definition strip (s : str) : str := rstrip (lstrip s).

Definition startswith (p s : str) : bool := eqb (take (length p) s) p.

Definition lower (c : ascii) : ascii :=
  if in_range 65 90 c then ascii_of_N (Z.to_N (code c + 32)) else c.

End PyStr.
Import PyStr.

(** ** Python numbers: [int()], [float()] and [str.format] *)

Module PyNum.

(** Decimal digits of a non-negative integer, most significant first. *)
Fixpoint digits_fuel (fuel : nat) (n : Z) (acc : str) : str :=
  match fuel with
  | O => acc
  | S fuel' =>
      let acc' := digit_char (n mod 10) :: acc in
      if n <? 10 then acc' else digits_fuel fuel' (n / 10) acc'
  end.

Definition dec_digits (n : Z) : str :=
  digits_fuel (S (Z.to_nat (Z.log2 n))) n [].

(** [digitpart ::= digit (["_"] digit)*]: the value read so far, and
    whether the previous character was a digit. *)
Fixpoint digitpart (acc : Z) (prev_digit : bool) (s : str) : option Z :=
  match s with
  | [] => if prev_digit then Some acc else None
  | c :: s' =>
      if isdigit c then digitpart (10 * acc + digit_val c) true s'
      else if bool_decide (c = "_"%char) && prev_digit
           then digitpart acc false s'
           else None
  end.

Definition split_sign (s : str) : bool * str :=
  match s with
  | c :: s' =>
      if bool_decide (c = "-"%char) then (true, s')
      else if bool_decide (c = "+"%char) then (false, s')
      else (false, s)
  | [] => (false, [])
  end.

(** The whitespace that [int()] and [float()] skip around a number.
    Both first turn every non-ASCII space character into a blank (below
    256 these are NEL and NBSP) and then skip the C whitespace HT, LF,
    VT, FF, CR and blank.  The separators FS, GS, RS and US (28-31),
    which [str.strip] removes, are not skipped: a number next to one of
    them is refused. *)
Definition num_space (c : ascii) : bool :=
  in_range 9 13 c || (code c =? 32) || (code c =? 133) || (code c =? 160).

Fixpoint num_lstrip (s : str) : str :=
  match s with
  | c :: s' => if num_space c then num_lstrip s' else s
  | [] => []
  end.

Definition num_strip (s : str) : str := rev (num_lstrip (rev (num_lstrip s))).

(** [int(s)] for a string argument, base 10. *)
Definition py_int (s : str) : result Z :=
  let '(neg, body) := split_sign (num_strip s) in
  match digitpart 0 false body with
  | Some n => Ok (if neg then - n else n)
  | None => Raise ValueError
  end.

(** *** binary64 *)

Definition prec : Z := 53.
Definition emax : Z := 1024.

(** Nearest integer to [a / b] for [0 <= a], [0 < b], ties to even. *)
Definition div_half_even (a b : Z) : Z :=
  let q := a / b in
  let r := a mod b in
  match Z.compare (2 * r) b with
  | Lt => q
  | Gt => q + 1
  | Eq => if Z.even q then q else q + 1
  end.

(** [floor (log2 (p / q))] for [0 < p], [0 < q]. *)
Definition log2_ratio (p q : Z) : Z :=
  let d := Z.log2 p - Z.log2 q in
  if p * 2 ^ Z.max 0 (- d) <? q * 2 ^ Z.max 0 d then d - 1 else d.

(** The binary64 value nearest to [(-1)^neg * p / q] (ties to even),
    for [0 <= p], [0 < q]; overflow gives an infinity. *)
Definition b64_of_ratio (neg : bool) (p q : Z) : spec_float :=
  if p =? 0 then S754_zero neg else
  let e := fexp prec emax (log2_ratio p q + 1) in
  let m := div_half_even (p * 2 ^ Z.max 0 (- e)) (q * 2 ^ Z.max 0 e) in
  let '(m, e) := if m =? 2 ^ prec then (2 ^ (prec - 1), e + 1) else (m, e) in
  match m with
  | Zpos mp => if e <=? emax - prec then S754_finite neg mp e
               else S754_infinity neg
  | _ => S754_zero neg
  end.

(** A character sequence of digits and underscores obeying the
    underscore rule, split at its first character that is neither. *)
Fixpoint span_digitpart (s : str) : str * str :=
  match s with
  | c :: s' =>
      if isdigit c || bool_decide (c = "_"%char)
      then let '(d, r) := span_digitpart s' in (c :: d, r)
      else ([], s)
  | [] => ([], [])
  end.

Definition count_digits (s : str) : Z :=
  Z.of_nat (length (filter (fun c => isdigit c = true) s)).

(** Optional digit part: the empty string reads as zero. *)
Definition opt_digitpart (acc : Z) (s : str) : option Z :=
  match s with
  | [] => Some acc
  | _ => match s with
         | c :: _ => if isdigit c then digitpart acc false s else None
         | [] => None
         end
  end.

Definition exponent (s : str) : option Z :=
  match s with
  | [] => Some 0
  | c :: s' =>
      if bool_decide (lower c = "e"%char) then
        let '(neg, body) := split_sign s' in
        match digitpart 0 false body with
        | Some n => Some (if neg then - n else n)
        | None => None
        end
      else None
  end.

(** [floatnumber ::= ([digitpart] "." digitpart | digitpart ["."]) [exponent]],
    as the pair [(mantissa digits as an integer, decimal exponent)]. *)
Definition floatnumber (s : str) : option (Z * Z) :=
  let '(ip, r1) := span_digitpart s in
  let '(fp, r2) :=
    match r1 with
    | c :: r => if bool_decide (c = "."%char) then span_digitpart r else ([], r1)
    | [] => ([], [])
    end in
  match ip, fp with
  | [], [] => None
  | _, _ =>
      match opt_digitpart 0 ip with
      | Some i =>
          match opt_digitpart i fp with
          | Some m =>
              match exponent r2 with
              | Some x => Some (m, x - count_digits fp)
              | None => None
              end
          | None => None
          end
      | None => None
      end
  end.

(** [float(s)] for a string argument. *)
Definition py_float (s : str) : result spec_float :=
  let '(neg, body) := split_sign (num_strip s) in
  let lc := map lower body in
  if eqb lc (lit "inf") || eqb lc (lit "infinity") then Ok (S754_infinity neg)
  else if eqb lc (lit "nan") then Ok S754_nan
  else match floatnumber body with
       | Some (m, x) =>
           Ok (if 0 <=? x then b64_of_ratio neg (m * 10 ^ x) 1
               else b64_of_ratio neg m (10 ^ (- x)))
       | None => Raise ValueError
       end.

(** *** [str.format] fields *)

Definition spaces (n : nat) : str := repeat " "%char n.

(** Right-align ([>], and the default for numbers). *)
Definition rjust (w : nat) (s : str) : str := spaces (w - length s) ++ s.

(** Left-align ([<], and the default for strings). *)
Definition ljust (w : nat) (s : str) : str := s ++ spaces (w - length s).

(** [str(n)]: the decimal digits of an integer, with its sign. *)
Definition int_str (n : Z) : str :=
  if n <? 0 then "-"%char :: dec_digits (- n) else dec_digits n.

(** ['{:>wd}'.format(n)]. *)
Definition format_d (w : nat) (n : Z) : str := rjust w (int_str n).

(** ['{:ws}'.format(s)]. *)
Definition format_s (w : nat) (s : str) : str := ljust w s.

Definition zero_pad (w : nat) (s : str) : str :=
  repeat "0"%char (w - length s) ++ s.

(** The digits of [n / 10^p] in fixed notation with [p] decimals. *)
Definition fixed_digits (p : nat) (n : Z) : str :=
  let scale := 10 ^ Z.of_nat p in
  dec_digits (n / scale) ++
  match p with
  | O => []
  | _ => "."%char :: zero_pad p (dec_digits (n mod scale))
  end.

Definition sign (s : bool) : str := if s then ["-"%char] else [].

(** ['{:w.pf}'.format(x)]: the decimal with [p] fractional digits nearest
    to the exact value of [x], ties to even. *)
Definition format_f (w p : nat) (x : spec_float) : str :=
  rjust w
    match x with
    | S754_nan => lit "nan"
    | S754_infinity s => sign s ++ lit "inf"
    | S754_zero s => sign s ++ fixed_digits p 0
    | S754_finite s m e =>
        let scale := 10 ^ Z.of_nat p in
        sign s ++ fixed_digits p
          (if 0 <=? e then Zpos m * 2 ^ e * scale
           else div_half_even (Zpos m * scale) (2 ^ (- e)))
    end.

End PyNum.
Import PyNum.

(** ** The atom table *)

(** Record tags. *)
Definition MODEL : str := lit "MODEL ".
Definition ATOM : str := lit "ATOM  ".
Definition HETATM : str := lit "HETATM".
Definition TER : str := lit "TER   ".

(** One atom, in the order of [ATOM_DATA] followed by the model number. *)
Record AtomRecord := {
  a_record : str; a_id : Z; a_name : str; a_alt : str; a_resn : str;
  a_chain : str; a_resi : Z; a_i : str;
  a_x : spec_float; a_y : spec_float; a_z : spec_float;
  a_q : spec_float; a_b : spec_float;
  a_e : str; a_charge : str; a_model : Z
}.

(** The column dictionary [pdb]: one list per key. *)
Record AtomTable := {
  pdb_model : list Z; pdb_record : list str; pdb_id : list Z;
  pdb_name : list str; pdb_alt : list str; pdb_resn : list str;
  pdb_chain : list str; pdb_resi : list Z; pdb_i : list str;
  pdb_x : list spec_float; pdb_y : list spec_float; pdb_z : list spec_float;
  pdb_q : list spec_float; pdb_b : list spec_float;
  pdb_e : list str; pdb_charge : list str
}.

(** [defaultdict(list)]: every column starts empty. *)
Definition empty_table : AtomTable :=
  Build_AtomTable [] [] [] [] [] [] [] [] [] [] [] [] [] [] [] [].

(** The sixteen [pdb[key].append(value)] of one atom line. *)
Definition append_row (pdb : AtomTable) (a : AtomRecord) : AtomTable := {|
  pdb_model := pdb_model pdb ++ [a_model a];
  pdb_record := pdb_record pdb ++ [a_record a];
  pdb_id := pdb_id pdb ++ [a_id a];
  pdb_name := pdb_name pdb ++ [a_name a];
  pdb_alt := pdb_alt pdb ++ [a_alt a];
  pdb_resn := pdb_resn pdb ++ [a_resn a];
  pdb_chain := pdb_chain pdb ++ [a_chain a];
  pdb_resi := pdb_resi pdb ++ [a_resi a];
  pdb_i := pdb_i pdb ++ [a_i a];
  pdb_x := pdb_x pdb ++ [a_x a];
  pdb_y := pdb_y pdb ++ [a_y a];
  pdb_z := pdb_z pdb ++ [a_z a];
  pdb_q := pdb_q pdb ++ [a_q a];
  pdb_b := pdb_b pdb ++ [a_b a];
  pdb_e := pdb_e pdb ++ [a_e a];
  pdb_charge := pdb_charge pdb ++ [a_charge a]
|}.

(** The table whose rows are [rows], column by column. *)
Definition table_of_rows (rows : list AtomRecord) : AtomTable := {|
  pdb_model := map a_model rows; pdb_record := map a_record rows;
  pdb_id := map a_id rows; pdb_name := map a_name rows;
  pdb_alt := map a_alt rows; pdb_resn := map a_resn rows;
  pdb_chain := map a_chain rows; pdb_resi := map a_resi rows;
  pdb_i := map a_i rows;
  pdb_x := map a_x rows; pdb_y := map a_y rows; pdb_z := map a_z rows;
  pdb_q := map a_q rows; pdb_b := map a_b rows;
  pdb_e := map a_e rows; pdb_charge := map a_charge rows
|}.

(** ** PDB reader *)

(** An open text stream: its lines (each with its line end) and whether
    it has been closed.  The read position is not modelled. *)
Record TextIO := { io_lines : list str; io_closed : bool }.

Definition close (f : TextIO) : TextIO :=
  {| io_lines := io_lines f; io_closed := true |}.

(** What [parse_pdb] and [parse_mmcif] can be handed. *)
Inductive pyobj :=
| PyFile (f : TextIO)
| PyStr (s : str)
| PyOther.

(** [for e in name: if e.isalpha(): break], from the incoming value of
    [e]: the loop variable keeps the last character it was bound to. *)
Fixpoint for_e_in_name (name : str) (e : str) : str :=
  match name with
  | [] => e
  | c :: name' => if isalpha c then [c] else for_e_in_name name' [c]
  end.

(** The body of the [ATOM]/[HETATM] branch, in evaluation order. *)
Definition parse_atom (model_number : Z) (record line : str)
  : result AtomRecord :=
  let* id := py_int (slice 6 11 line) in
  let name := strip (slice 12 16 line) in
  let* alt := char_at line 16 in
  let resn := strip (slice 17 20 line) in
  let* chain := char_at line 21 in
  let* resi := py_int (slice 22 26 line) in
  let* i := char_at line 26 in
  let* x := py_float (slice 30 38 line) in
  let* y := py_float (slice 38 46 line) in
  let* z := py_float (slice 46 54 line) in
  let* q := py_float (slice 54 60 line) in
  let* b := py_float (slice 60 66 line) in
  let e := strip (slice 76 78 line) in
  let e := match e with [] => for_e_in_name name e | _ => e end in
  let charge := strip (slice 78 80 line) in
  Ok {| a_record := record; a_id := id; a_name := name; a_alt := alt;
        a_resn := resn; a_chain := chain; a_resi := resi; a_i := i;
        a_x := x; a_y := y; a_z := z; a_q := q; a_b := b;
        a_e := e; a_charge := charge; a_model := model_number |}.

(** [for line in f: ...] with the loop-carried [pdb] and [model_number]. *)
Fixpoint parse_lines (ls : list str) (pdb : AtomTable) (model_number : Z)
  : result AtomTable :=
  match ls with
  | [] => Ok pdb
  | line :: ls' =>
      let record := slice 0 6 line in
      if eqb record ATOM || eqb record HETATM then
        let* a := parse_atom model_number record line in
        parse_lines ls' (append_row pdb a) model_number
      else if eqb record MODEL then
        let* n := py_int (slice 10 14 line) in
        parse_lines ls' pdb n
      else parse_lines ls' pdb model_number
  end.

(** The lines that the reader turns into rows. *)
Definition is_atom_line (line : str) : bool :=
  eqb (slice 0 6 line) ATOM || eqb (slice 0 6 line) HETATM.

Section Readers.

(** [open(path)]: the lines of the file at [path], if it can be opened. *)
Variable fs : str -> option (list str).

Definition open (path : str) : result TextIO :=
  match fs path with
  | Some ls => Ok {| io_lines := ls; io_closed := false |}
  | None => Raise IOError
  end.

(** The handle a call leaves behind, if it held one, and its outcome. *)
Definition outcome (A : Type) : Type := option TextIO * result A.

(** [parse_pdb(infile)]: [f.close()] follows the loop, so it runs only
    when the loop ends normally. *)
Definition parse_pdb (infile : pyobj) : outcome AtomTable :=
  let run (f : TextIO) : outcome AtomTable :=
    if io_closed f then (Some f, Raise ValueError) else
    match parse_lines (io_lines f) empty_table 1 with
    | Ok pdb => (Some (close f), Ok pdb)
    | Raise e => (Some f, Raise e)
    end in
  match infile with
  | PyFile f => run f
  | PyStr path =>
      match open path with
      | Ok f => run f
      | Raise e => (None, Raise e)
      end
  | PyOther => (None, Raise TypeError)
  end.

(** *** mmCIF reader *)

(** [s.split(sep)] for a one-character separator. *)
Fixpoint split_on (sep : ascii) (s : str) (cur : str) : list str :=
  match s with
  | [] => [rev cur]
  | c :: s' =>
      if bool_decide (c = sep) then rev cur :: split_on sep s' []
      else split_on sep s' (c :: cur)
  end.

(** [s.split()]. *)
Fixpoint split_ws (s : str) (cur : str) : list str :=
  match s with
  | [] => match cur with [] => [] | _ => [rev cur] end
  | c :: s' =>
      if isspace c
      then match cur with [] => split_ws s' [] | _ => rev cur :: split_ws s' [] end
      else split_ws s' (c :: cur)
  end.

(** [OrderedDict] from column name to list of tokens. *)
Definition odict := list (str * list str).

(** [d[k] = []]: a present key keeps its place. *)
Fixpoint odict_reset (k : str) (d : odict) : odict :=
  match d with
  | [] => [(k, [])]
  | (k', v) :: d' =>
      if eqb k' k then (k', []) :: d' else (k', v) :: odict_reset k d'
  end.

(** [for key, word in zip(d, words): d[key].append(word)]. *)
Fixpoint odict_zip_append (d : odict) (words : list str) : odict :=
  match d, words with
  | (k, v) :: d', w :: words' => (k, v ++ [w]) :: odict_zip_append d' words'
  | _, _ => d
  end.

Definition mmcif_line (atom_site : odict) (line : str) : result odict :=
  let* atom_site :=
    if startswith (lit "_atom_site.") line then
      let* w := getitem (split_on "."%char line []) 1 in
      Ok (odict_reset (strip w) atom_site)
    else Ok atom_site in
  if startswith (lit "ATOM") line
  then Ok (odict_zip_append atom_site (split_ws line []))
  else Ok atom_site.

Fixpoint mmcif_lines (ls : list str) (atom_site : odict) : result odict :=
  match ls with
  | [] => Ok atom_site
  | line :: ls' =>
      let* atom_site := mmcif_line atom_site line in
      mmcif_lines ls' atom_site
  end.

(** [parse_mmcif(infile)]: the loop runs inside [with infile as f:], whose
    exit closes the stream however the block is left. *)
Definition parse_mmcif (infile : pyobj) : outcome odict :=
  let run (f : TextIO) : outcome odict :=
    if io_closed f then (Some f, Raise ValueError) else
    (Some (close f), mmcif_lines (io_lines f) []) in
  match infile with
  | PyFile f => run f
  | PyStr path =>
      match open path with
      | Ok f => run f
      | Raise e => (None, Raise e)
      end
  | PyOther => (None, Raise TypeError)
  end.

End Readers.

(** ** PDB writer *)

Module Writer.

(** The output file: what has been written so far, in order, and whether
    the file has been closed.  Each [f.write] adds one entry. *)
Record OutFile := { written : list str; out_closed : bool }.

(** Computations that write to the output file and may raise. *)
Definition W (A : Type) : Type := OutFile -> OutFile * result A.

Definition wret {A} (a : A) : W A := fun f => (f, Ok a).

Definition wbind {A B} (m : W A) (k : A -> W B) : W B :=
  fun f => match m f with
           | (f', Ok a) => k a f'
           | (f', Raise e) => (f', Raise e)
           end.

Definition wlift {A} (r : result A) : W A := fun f => (f, r).

Definition write (s : str) : W unit :=
  fun f => ({| written := written f ++ [s]; out_closed := out_closed f |}, Ok tt).

Definition wclose : W unit :=
  fun f => ({| written := written f; out_closed := true |}, Ok tt).

Definition when (b : bool) (m : W unit) : W unit := if b then m else wret tt.

Notation "'let+' x ':=' m 'in' k" := (wbind m (fun x => k))
  (at level 10, x name, m at level 100, k at level 200,
   format "'[v' 'let+'  x  :=  m  'in' '/' k ']'").
Notation "m ';+' k" := (wbind m (fun _ => k))
  (at level 100, k at level 200, right associativity).

(** [for x in xs: s = body(x, s)]. *)
Fixpoint for_in {A S} (xs : list A) (body : A -> S -> W S) (s : S) : W S :=
  match xs with
  | [] => wret s
  | x :: xs' => let+ s' := body x s in for_in xs' body s'
  end.

(** [range(n)]. *)
Definition range (n : Z) : list Z := map Z.of_nat (seq 0 (Z.to_nat n)).

Definition nl : str := [ascii_of_N 10].

Definition MODEL_LINE (n : Z) : str :=
  lit "MODEL " ++ spaces 4 ++ format_d 4 n ++ nl.

Definition ENDMDL_LINE : str := lit "ENDMDL" ++ nl.

Definition TER_LINE (id : Z) (resn chain : str) (resi : Z) (i : str) : str :=
  lit "TER   " ++ format_d 5 id ++ spaces 6 ++ format_s 3 resn ++ spaces 1 ++
  format_s 1 chain ++ format_d 4 resi ++ format_s 1 i ++ spaces 53 ++ nl.

Definition ATOM_LINE (record : str) (id : Z) (name alt resn chain : str)
    (resi : Z) (i : str) (x y z q b : spec_float) (e charge : str) : str :=
  format_s 6 record ++ format_d 5 id ++ spaces 1 ++ format_s 4 name ++
  format_s 1 alt ++ format_s 3 resn ++ spaces 1 ++ format_s 1 chain ++
  format_d 4 resi ++ format_s 1 i ++ spaces 3 ++
  format_f 8 3 x ++ format_f 8 3 y ++ format_f 8 3 z ++
  format_f 6 2 q ++ format_f 6 2 b ++ spaces 10 ++
  ljust 2 e ++ format_s 2 charge ++ nl.

Definition END_LINE : str := lit "END   " ++ nl.

(** [len(set(pdb['model']))]. *)
Definition count_models (pdb : AtomTable) : Z :=
  Z.of_nat (size (list_to_set (pdb_model pdb) : gset Z)).

(** [int(natoms / nmodels)]: the quotient is a float in the source; it is
    the exact integer quotient for every table of fewer than 2^53 atoms. *)
Definition int_div (natoms nmodels : Z) : result Z :=
  if nmodels =? 0 then Raise ZeroDivisionError else Ok (natoms / nmodels).

(** The [TER] record written from the row at [index - 1]. *)
Definition ter_record (pdb : AtomTable) (index : Z) : W unit :=
  let+ id := wlift (getitem (pdb_id pdb) (index - 1)) in
  let+ resn := wlift (getitem (pdb_resn pdb) (index - 1)) in
  let+ chain := wlift (getitem (pdb_chain pdb) (index - 1)) in
  let+ resi := wlift (getitem (pdb_resi pdb) (index - 1)) in
  let+ i := wlift (getitem (pdb_i pdb) (index - 1)) in
  write (TER_LINE (id + 1) resn chain resi i).

(** The [ATOM]/[HETATM] record written from the row at [index]. *)
Definition atom_record (pdb : AtomTable) (index : Z) : W unit :=
  let+ record := wlift (getitem (pdb_record pdb) index) in
  let+ id := wlift (getitem (pdb_id pdb) index) in
  let+ name0 := wlift (getitem (pdb_name pdb) index) in
  let+ alt := wlift (getitem (pdb_alt pdb) index) in
  let+ resn := wlift (getitem (pdb_resn pdb) index) in
  let+ chain := wlift (getitem (pdb_chain pdb) index) in
  let+ resi := wlift (getitem (pdb_resi pdb) index) in
  let+ i := wlift (getitem (pdb_i pdb) index) in
  let+ x := wlift (getitem (pdb_x pdb) index) in
  let+ y := wlift (getitem (pdb_y pdb) index) in
  let+ z := wlift (getitem (pdb_z pdb) index) in
  let+ q := wlift (getitem (pdb_q pdb) index) in
  let+ b := wlift (getitem (pdb_b pdb) index) in
  let+ e0 := wlift (getitem (pdb_e pdb) index) in
  let+ charge := wlift (getitem (pdb_charge pdb) index) in
  let+ e := wlift (getitem (pdb_e pdb) index) in
  let+ name := wlift (getitem (pdb_name pdb) index) in
  let name2 :=
    if (length e =? 1)%nat && negb (length name =? 4)%nat
    then " "%char :: name else name0 in
  write (ATOM_LINE record id name2 alt resn chain resi i x y z q b e0 charge).

(** The body of [for natom in range(natoms_per_model)], carrying
    [prev_chain]. *)
Definition atom_step (pdb : AtomTable) (offset natom : Z) (prev_chain : str)
  : W str :=
  let index := offset + natom in
  let+ current_chain := wlift (getitem (pdb_chain pdb) index) in
  let+ prev_chain :=
    if negb (eqb prev_chain current_chain) then
      let+ prev_record := wlift (getitem (pdb_record pdb) (index - 1)) in
      when (eqb prev_record ATOM) (ter_record pdb index) ;+
      wret current_chain
    else wret prev_chain in
  atom_record pdb index ;+
  wret prev_chain.

(** The body of [for nmodel in range(nmodels)]. *)
Definition model_step (pdb : AtomTable) (nmodels natoms_per_model : Z)
    (nmodel : Z) (_ : unit) : W unit :=
  let offset := nmodel * natoms_per_model in
  when (1 <? nmodels) (write (MODEL_LINE (nmodel + 1))) ;+
  let+ prev_chain := wlift (getitem (pdb_chain pdb) offset) in
  let+ _ := for_in (range natoms_per_model) (atom_step pdb offset) prev_chain in
  when (1 <? nmodels) (write ENDMDL_LINE).

(** [tofile(pdb, out)], run on the freshly opened output file. *)
Definition tofile_body (pdb : AtomTable) : W unit :=
  let nmodels := count_models pdb in
  let natoms := Z.of_nat (length (pdb_id pdb)) in
  let+ natoms_per_model := wlift (int_div natoms nmodels) in
  for_in (range nmodels) (model_step pdb nmodels natoms_per_model) tt ;+
  write END_LINE ;+
  wclose.

Definition tofile (pdb : AtomTable) : OutFile * result unit :=
  tofile_body pdb {| written := []; out_closed := false |}.

End Writer.
Import Writer.

(** The lines a reader is given: those of the stream, or of the file at
    the path. *)
Definition source_lines (fs : str -> option (list str)) (infile : pyobj)
  : list str :=
  match infile with
  | PyFile f => io_lines f
  | PyStr path => match fs path with Some ls => ls | None => [] end
  | PyOther => []
  end.

(** [rows_of mn ls rows]: reading the lines [ls] from model number [mn]
    yields the rows [rows], one for each atom line, in order. *)
Inductive rows_of : Z -> list str -> list AtomRecord -> Prop :=
| rows_nil mn : rows_of mn [] []
| rows_atom mn line ls a rows :
    is_atom_line line = true ->
    parse_atom mn (slice 0 6 line) line = Ok a ->
    rows_of mn ls rows ->
    rows_of mn (line :: ls) (a :: rows)
| rows_model mn n line ls rows :
    is_atom_line line = false ->
    eqb (slice 0 6 line) MODEL = true ->
    py_int (slice 10 14 line) = Ok n ->
    rows_of n ls rows ->
    rows_of mn (line :: ls) rows
| rows_other mn line ls rows :
    is_atom_line line = false ->
    eqb (slice 0 6 line) MODEL = false ->
    rows_of mn ls rows ->
    rows_of mn (line :: ls) rows.

(** ** The Structure class *)

Module Struct.

(** What [fromfile] is handed: a path, or an open file with a [name]. *)
Inductive fid :=
| FidPath (path : str)
| FidFile (name : str).

(** [fid.name] when there is one, [fid] itself otherwise. *)
Definition fid_name (f : fid) : str :=
  match f with FidFile name => name | FidPath path => path end.

(** Arrays of coordinates and the arithmetic of [rmsd]. *)

Definition Rsum (l : list R) : R := fold_right Rplus 0%R l.

(** [a.mean()] over all elements of a two-dimensional array. *)
Definition mean (a : list (list R)) : R :=
  (Rsum (concat a) / INR (length (concat a)))%R.

(** [(a - b) ** 2], element by element, for arrays of one shape. *)
Definition sq_diff (a b : list (list R)) : list (list R) :=
  zip_with (zip_with (fun x y => ((x - y) * (x - y))%R)) a b.

Definition same_shape (a b : list (list R)) : bool :=
  bool_decide (map length a = map length b).

(** [np.sqrt(((self.coor - structure.coor) ** 2).mean() * 3)] on the two
    coordinate arrays.  Float arithmetic is taken exactly; [None] stands
    for what is outside that reading: arrays of different shapes (numpy
    broadcasts or raises) and empty arrays (the mean is not a number). *)
Definition rmsd_coor (a b : list (list R)) : option R :=
  if same_shape a b && negb (bool_decide (concat a = []))
  then Some (sqrt (mean (sq_diff a b) * 3))
  else None.

(** The position vectors zipped into a 3 x natoms array: the rows of x,
    y and z. *)
Definition transpose3 (vs : list (R * R * R)) : list (list R) :=
  [map (fun v => fst (fst v)) vs;
   map (fun v => snd (fst v)) vs;
   map (fun v => snd v) vs].

Section Structure.

(** The structure object of the parsing library and the operations of it
    that [Structure] calls.  A [Prot] value is the whole state reachable
    from one such object. *)
Variable Prot : Type.
Variable RotMat : Type.
Variable FS : Type.

(** The state of the object that [prot.copy()] returns. *)
Variable prot_copy : Prot -> Prot.
(** The state of [prot] after [prot.matrix_transform(rotmat)]. *)
Variable matrix_transform : RotMat -> Prot -> Prot.
(** [[atom.get_pos_vector() for atom in prot.atomList]]. *)
Variable get_pos_vectors : Prot -> list (R * R * R).
Variable prot_filename : Prot -> str.
(** [str(Path(name).resolve())]. *)
Variable resolve : str -> str.

Variable read_PDB_file : fid -> fid -> bool -> bool -> result Prot.
Variable read_mmCIF_file : fid -> bool -> bool -> result Prot.
Variable write_to_PDB : Prot -> str -> FS -> FS * result unit.
Variable write_to_mmcif : Prot -> str -> FS -> FS * result unit.

(** The object store: library structure objects by address, and
    [Structure] instances by address, each holding the address in its
    [__prot] attribute. *)
Record heap := {
  prots : gmap positive Prot;
  structures : gmap positive positive
}.

Definition alloc_prot (h : heap) (v : Prot) : heap * positive :=
  let p := fresh (dom (prots h)) in
  ({| prots := <[p := v]> (prots h); structures := structures h |}, p).

Definition alloc_structure (h : heap) (p : positive) : heap * positive :=
  let s := fresh (dom (structures h)) in
  ({| prots := prots h; structures := <[s := p]> (structures h) |}, s).

(** [self.__prot], and the state of the object it names. *)
Definition get_prot (h : heap) (self : positive) : result (positive * Prot) :=
  match structures h !! self with
  | Some p =>
      match prots h !! p with
      | Some v => Ok (p, v)
      | None => Raise AttributeError
      end
  | None => Raise AttributeError
  end.

(** [cls(prot)] on a freshly read library object. *)
Definition new_structure (h : heap) (v : Prot) : heap * positive :=
  let '(h1, p) := alloc_prot h v in
  alloc_structure h1 p.

(** [Structure.fromfile(fid)]. *)
Definition fromfile (h : heap) (f : fid) : result (heap * positive) :=
  let fname := fid_name f in
  let* prot :=
    if eqb (suffix 3 fname) (lit "pdb") || eqb (suffix 3 fname) (lit "ent")
    then read_PDB_file f f false false
    else if eqb (suffix 3 fname) (lit "cif")
    then read_mmCIF_file f true false
    else Raise IOError in
  Ok (new_structure h prot).

(** [self.filename]. *)
Definition filename (h : heap) (self : positive) : result str :=
  let* pv := get_prot h self in
  Ok (resolve (prot_filename (snd pv))).

(** [self.tofile(fid, outtype)] on the file system [w]. *)
Definition tofile (h : heap) (self : positive) (f : option str)
    (outtype : str) (w : FS) : FS * result unit :=
  let path := match f with
              | None => filename h self
              | Some path => Ok path
              end in
  match path with
  | Raise e => (w, Raise e)
  | Ok path =>
      if eqb outtype (lit "pdb") then
        match get_prot h self with
        | Ok pv => write_to_PDB (snd pv) path w
        | Raise e => (w, Raise e)
        end
      else if eqb outtype (lit "mmcif") then
        match get_prot h self with
        | Ok pv => write_to_mmcif (snd pv) path w
        | Raise e => (w, Raise e)
        end
      else (w, Raise IOError)
  end.

(** [self.duplicate()]: [self.__prot.copy()] makes a new library object,
    [copy(self)] a new instance with the attributes of [self], and the
    [prot] setter then points the new instance at the new object. *)
Definition duplicate (h : heap) (self : positive) : result (heap * positive) :=
  let* pv := get_prot h self in
  let '(h1, protdupe) := alloc_prot h (prot_copy (snd pv)) in
  let '(h2, structure) := alloc_structure h1 (fst pv) in
  Ok ({| prots := prots h2;
         structures := <[structure := protdupe]> (structures h2) |},
      structure).

(** [self.rotate(rotmat)]: the library object is transformed in place. *)
Definition rotate (h : heap) (self : positive) (rotmat : RotMat)
  : result heap :=
  let* pv := get_prot h self in
  Ok {| prots := <[fst pv := matrix_transform rotmat (snd pv)]> (prots h);
        structures := structures h |}.

(** [self.coor]. *)
Definition coor (h : heap) (self : positive) : result (list (list R)) :=
  let* pv := get_prot h self in
  Ok (transpose3 (get_pos_vectors (snd pv))).

(** [self.rmsd(structure)]. *)
Definition rmsd (h : heap) (self structure : positive)
  : result (option R) :=
  let* a := coor h self in
  let* b := coor h structure in
  Ok (rmsd_coor a b).

End Structure.

(** The sum over the atoms of the squared coordinate differences. *)
Definition sum_sq (self structure : list (R * R * R)) : R :=
  Rsum (zip_with (fun u v =>
    let dx := (fst (fst u) - fst (fst v))%R in
    let dy := (snd (fst u) - snd (fst v))%R in
    let dz := (snd u - snd v)%R in
    (dx * dx + dy * dy + dz * dz)%R) self structure).

End Struct.

(** The extension of a file name: its text from the last dot on, and the
    empty string when it has no dot. *)
Fixpoint until_dot (r : str) : option str :=
  match r with
  | [] => None
  | c :: r' =>
      if bool_decide (c = "."%char) then Some [c]
      else option_map (cons c) (until_dot r')
  end.

Definition extension (fname : str) : str :=
  match until_dot (rev fname) with
  | Some e => rev e
  | None => []
  end.

(** Dispatch on the extension, as documented for reading: every file
    name whose extension is not [.pdb], [.ent] or [.cif] fails with
    [IOError]. *)
Definition other_extensions_fail : Prop :=
  forall (Prot : Type) (read_PDB_file : Struct.fid -> Struct.fid -> bool -> bool -> result Prot)
         (read_mmCIF_file : Struct.fid -> bool -> bool -> result Prot)
         (h : Struct.heap Prot) (path : str),
    extension path <> lit ".pdb" -> extension path <> lit ".ent" ->
    extension path <> lit ".cif" ->
    Struct.fromfile Prot read_PDB_file read_mmCIF_file h (Struct.FidPath path)
      = Raise IOError.

(** The documented formula: the square root of the sum of squares
    divided by [3 * natoms]. *)
Definition rmsd_documented (self structure : list (R * R * R)) : R :=
  sqrt (Struct.sum_sq self structure / (3 * INR (length self))).

(** *** A sample library and object store *)

Module Sample.

(** A structure is the list of its position vectors; a matrix is its
    nine entries, row by row. *)
Definition Prot : Type := list (R * R * R).
Definition RotMat : Type := (R * R * R) * (R * R * R) * (R * R * R).

Definition apply_matrix (m : RotMat) (v : R * R * R) : R * R * R :=
  let '(r1, r2, r3) := m in
  let dot (r : R * R * R) :=
    (fst (fst r) * fst (fst v) + snd (fst r) * snd (fst v) + snd r * snd v)%R in
  (dot r1, dot r2, dot r3).

Definition matrix_transform (m : RotMat) (p : Prot) : Prot :=
  map (apply_matrix m) p.

Definition get_pos_vectors (p : Prot) : list (R * R * R) := p.

Definition read_file (f : Struct.fid) : result Prot := Ok [].

Definition write_file (p : Prot) (path : str) (w : list str)
  : list str * result unit := (w ++ [path], Ok tt).

(** Two structures: one atom at (3, 0, 0), one atom at the origin. *)
Definition heap0 : Struct.heap Prot := {|
  Struct.prots := <[2%positive := [(0, 0, 0)%R]]> {[1%positive := [(3, 0, 0)%R]]};
  Struct.structures := <[2%positive := 2%positive]> {[1%positive := 1%positive]}
|}.

(** The store before any structure has been read. *)
Definition empty_heap : Struct.heap Prot :=
  {| Struct.prots := ∅; Struct.structures := ∅ |}.

Definition quarter_turn : RotMat :=
  ((0, -1, 0), (1, 0, 0), (0, 0, 1))%R.

End Sample.

(** ** What the writer is expected to produce *)

(** The atom name as the writer lays it out. *)
Definition name_field (a : AtomRecord) : str :=
  if (length (a_e a) =? 1)%nat && negb (length (a_name a) =? 4)%nat
  then " "%char :: a_name a else a_name a.

(** The [ATOM]/[HETATM] line of a row. *)
Definition atom_line (a : AtomRecord) : str :=
  ATOM_LINE (a_record a) (a_id a) (name_field a) (a_alt a) (a_resn a)
    (a_chain a) (a_resi a) (a_i a) (a_x a) (a_y a) (a_z a) (a_q a) (a_b a)
    (a_e a) (a_charge a).

(** The [TER] line that closes the chain of the row [p]. *)
Definition ter_line (p : AtomRecord) : str :=
  TER_LINE (a_id p + 1) (a_resn p) (a_chain p) (a_resi p) (a_i p).

(** A [TER] line is due between the row [p] and the next row [a] when
    their chains differ and [p] is an [ATOM] record. *)
Definition ter_due (p a : AtomRecord) : bool :=
  negb (eqb (a_chain p) (a_chain a)) && eqb (a_record p) ATOM.

(** The number of places in a block where a [TER] line is due: the
    pairs of consecutive rows whose chains differ, the first of the two
    being an [ATOM] record. *)
Fixpoint chain_ends (rows : list AtomRecord) : nat :=
  match rows with
  | p :: (a :: _) as rows' =>
      ((if ter_due p a then 1 else 0) + chain_ends rows')%nat
  | _ => 0%nat
  end.

(** The lines of the rows of one model block; [prev] is the row before,
    within the block. *)
Fixpoint block_lines (prev : option AtomRecord) (rows : list AtomRecord)
  : list str :=
  match rows with
  | [] => []
  | a :: rows' =>
      match prev with
      | Some p => if ter_due p a then [ter_line p] else []
      | None => []
      end ++ atom_line a :: block_lines (Some a) rows'
  end.

(** The lines of the blocks from the [k]-th on ([k] counts from 0), out
    of [n] blocks in all. *)
Fixpoint blocks_lines (n k : Z) (blocks : list (list AtomRecord))
  : list str :=
  match blocks with
  | [] => []
  | blk :: blocks' =>
      (if 1 <? n then [MODEL_LINE (k + 1)] else []) ++
      block_lines None blk ++
      (if 1 <? n then [ENDMDL_LINE] else []) ++
      blocks_lines n (k + 1) blocks'
  end.

(** The rows [blocks] are model blocks of [s] rows each, the rows of a
    block sharing its model number, block after block in ascending
    order of model number. *)
Definition model_blocks (s : nat) (blocks : list (list AtomRecord))
    (ms : list Z) : Prop :=
  (0 < s)%nat /\
  Forall2 (fun blk m => length blk = s /\ Forall (fun a => a_model a = m) blk)
          blocks ms /\
  StronglySorted Z.lt ms.

(** The number of written lines that carry the record tag [tag]. *)
Definition count_tag (tag : str) (out : list str) : nat :=
  length (List.filter (fun l => eqb (slice 0 6 l) tag) out).

Definition atom_or_hetatm (a : AtomRecord) : Prop :=
  a_record a = ATOM \/ a_record a = HETATM.

Definition ENDMDL : str := lit "ENDMDL".
Definition END : str := lit "END   ".

(** The documented count: one [MODEL] line and one [ENDMDL] line per
    block, and one [END] line. *)
Definition model_pair_per_block (blocks : list (list AtomRecord)) : Prop :=
  let out := written (fst (tofile (table_of_rows (concat blocks)))) in
  count_tag MODEL out = length blocks /\
  count_tag ENDMDL out = length blocks /\
  count_tag END out = 1%nat.

(** ** Well-formed PDB input *)

(** The value of a string of decimal digits read after [acc]. *)
Definition digits_from (acc : Z) (ds : str) : Z :=
  fold_left (fun a c => 10 * a + digit_val c) ds acc.

Definition all_digits (ds : str) : Prop :=
  Forall (fun c => isdigit c = true) ds.

Definition nonspace (s : str) : Prop := Forall (fun c => isspace c = false) s.

(** An [Integer] field of [w] columns: the decimal digits of [n], with
    its sign, right-justified. *)
Definition int_field (w : nat) (n : Z) : str := rjust w (int_str n).

(** A [Real(w.p)] field: the decimal [(-1)^neg * k / 10^p] with [p]
    fractional digits, right-justified in [w] columns. *)
Definition real_field (w p : nat) (neg : bool) (k : Z) : str :=
  rjust w (sign neg ++ fixed_digits p k).

(** Columns 31-38, 39-46 and 47-54 hold [Real(8.3)] coordinates:
    from -999.999 to 9999.999. *)
Definition coordinate_field (s : str) : Prop :=
  exists neg k,
    0 <= k /\ k <= (if neg : bool then 999999 else 9999999) /\
    s = real_field 8 3 neg k.

(** The name column as the writer aligns a name: from column 14 when
    the element symbol of columns 77-78 has at most one character and
    the name fewer than four, from column 13 otherwise. *)
Definition name_field_of (element_columns name : str) : str :=
  if (length (strip element_columns) <=? 1)%nat && (length name <? 4)%nat
  then " "%char :: ljust 3 name
  else ljust 4 name.

(** The name column of a line is aligned as the writer aligns it. *)
Definition name_aligned (line : str) : Prop :=
  slice 12 16 line = name_field_of (slice 76 78 line) (strip (slice 12 16 line)).

(** A well-formed [ATOM] or [HETATM] line, column range by column
    range: the serial number and the residue number are right-justified
    integers, columns 13-16 hold an atom name without a blank in it,
    anywhere in the four columns, the coordinates are [Real(8.3)]
    fields, and the occupancy and temperature factor columns hold
    numbers. *)
Record wf_atom_line (line : str) : Prop := {
  wf_serial : exists id,
    -9999 <= id <= 99999 /\ slice 6 11 line = int_field 5 id;
  wf_name : exists a name b,
    nonspace name /\ (a + length name + b = 4)%nat /\
    slice 12 16 line = spaces a ++ name ++ spaces b;
  wf_resi : exists n,
    -999 <= n <= 9999 /\ slice 22 26 line = int_field 4 n;
  wf_x : coordinate_field (slice 30 38 line);
  wf_y : coordinate_field (slice 38 46 line);
  wf_z : coordinate_field (slice 46 54 line);
  wf_q : is_ok (py_float (slice 54 60 line)) = true;
  wf_b : is_ok (py_float (slice 60 66 line)) = true
}.

(** A well-formed single-model input: a heading without atom lines, in
    which a [MODEL] line may give the model number, followed by lines
    without any [MODEL] line, among which there is an atom line; every
    atom line is well formed. *)
Record wf_single_model (heading body : list str) : Prop := {
  wf_heading_atoms : Forall (fun l => is_atom_line l = false) heading;
  wf_heading_model : Forall (fun l => eqb (slice 0 6 l) MODEL = true ->
                                      is_ok (py_int (slice 10 14 l)) = true)
                            heading;
  wf_body_model : Forall (fun l => eqb (slice 0 6 l) MODEL = false) body;
  wf_body_atoms : Forall (fun l => is_atom_line l = true -> wf_atom_line l)
                         body;
  wf_some_atom : Exists (fun l => is_atom_line l = true) body
}.

(** The fields that a round trip is documented to reproduce: atom name,
    chain, residue number and the three coordinates. *)
Definition same_fields (line line' : str) : Prop :=
  slice 12 16 line' = slice 12 16 line /\
  slice 21 22 line' = slice 21 22 line /\
  slice 22 26 line' = slice 22 26 line /\
  slice 30 38 line' = slice 30 38 line /\
  slice 38 46 line' = slice 38 46 line /\
  slice 46 54 line' = slice 46 54 line.

(** What the line [line'] written for the atom line [line] holds: the
    chain, residue number and coordinate columns of [line], and the atom
    name of [line] in the alignment of the writer. *)
Definition written_fields (line line' : str) : Prop :=
  strip (slice 12 16 line') = strip (slice 12 16 line) /\
  slice 12 16 line'
  = name_field_of (slice 76 78 line) (strip (slice 12 16 line)) /\
  slice 21 22 line' = slice 21 22 line /\
  slice 22 26 line' = slice 22 26 line /\
  slice 30 38 line' = slice 30 38 line /\
  slice 38 46 line' = slice 38 46 line /\
  slice 46 54 line' = slice 46 54 line.

(** The documented round trip: every field of [same_fields], for every
    well-formed single-model input. *)
Definition roundtrip_documented : Prop :=
  forall fs infile heading body h pdb out,
    source_lines fs infile = heading ++ body ->
    wf_single_model heading body ->
    parse_pdb fs infile = (h, Ok pdb) ->
    written (fst (tofile pdb)) = out ->
    Forall2 same_fields
      (List.filter is_atom_line (heading ++ body))
      (List.filter is_atom_line out).

(** The reader can start on [infile]: an open stream, or the path of a
    file that can be opened. *)
Definition readable (fs : str -> option (list str)) (infile : pyobj) : Prop :=
  match infile with
  | PyFile f => io_closed f = false
  | PyStr path => fs path <> None
  | PyOther => False
  end.

(** ** Further notions for the readers and the writer *)

(** The lines the PDB reader looks into: atom lines and [MODEL] lines. *)
Definition is_model_line (line : str) : bool :=
  negb (is_atom_line line) && eqb (slice 0 6 line) MODEL.

Definition relevant (line : str) : bool :=
  is_atom_line line || is_model_line line.

(** The line can be read: its columns parse when it is an atom line, its
    model number parses when it is a [MODEL] line. *)
Definition line_ok (line : str) : bool :=
  if is_atom_line line then is_ok (parse_atom 1 (slice 0 6 line) line)
  else if eqb (slice 0 6 line) MODEL then is_ok (py_int (slice 10 14 line))
  else true.

(** The number of atom lines among [ls]. *)
Definition count_atoms (ls : list str) : nat :=
  length (List.filter is_atom_line ls).

(** The first [n] consecutive blocks of [s] rows of [rows]. *)
Fixpoint chunks (s n : nat) (rows : list AtomRecord)
  : list (list AtomRecord) :=
  match n with
  | O => []
  | S n' => take s rows :: chunks s n' (drop s rows)
  end.

(** The number of distinct model numbers of the rows. *)
Definition distinct_models (rows : list AtomRecord) : nat :=
  size (list_to_set (map a_model rows) : gset Z).

(** A computation on the output file that leaves its open/closed state
    as it was. *)
Definition keeps_state {A} (m : W A) : Prop :=
  forall f, out_closed (fst (m f)) = out_closed f.

(** The lines the mmCIF reader looks into. *)
Definition mmcif_relevant (line : str) : bool :=
  startswith (lit "_atom_site.") line || startswith (lit "ATOM") line.

(** A declaration line for the column [name]. *)
Definition atom_site_decl (name : str) : str :=
  lit "_atom_site." ++ name ++ nl.

(** The tokens of index [j] of the rows that have one. *)
Definition token_column (j : nat) (rows : list str) : list str :=
  omap (fun row => split_ws row [] !! j) rows.

(** The dictionary with the keys [names], in order, from index [k] on:
    the key of index [j] holds [col j]. *)
Fixpoint columns_from (k : nat) (names : list str) (col : nat -> list str)
  : odict :=
  match names with
  | [] => []
  | name :: names' => (name, col k) :: columns_from (S k) names' col
  end.

(** ** The Structure class: further methods *)

Module StructMore.

(** Code-point order on strings, as numpy sorts them. *)
Fixpoint str_ltb (a b : str) : bool :=
  match a, b with
  | [], [] => false
  | [], _ :: _ => true
  | _ :: _, [] => false
  | x :: a', y :: b' =>
      (code x <? code y) || ((code x =? code y) && str_ltb a' b')
  end.

(** A string as an element of a numpy string array: trailing NUL
    characters are not kept. *)
Fixpoint drop_nul (s : str) : str :=
  match s with
  | c :: s' => if bool_decide (c = ascii_of_N 0) then drop_nul s' else s
  | [] => []
  end.

Definition rstrip_nul (s : str) : str := rev (drop_nul (rev s)).

Fixpoint insert_unique (x : str) (l : list str) : list str :=
  match l with
  | [] => [x]
  | y :: l' =>
      if eqb x y then l
      else if str_ltb x y then x :: l
      else y :: insert_unique x l'
  end.

(** The position of the first occurrence of [x] in [l]. *)
Fixpoint index_of (x : str) (l : list str) : nat :=
  match l with
  | [] => O
  | y :: l' => if eqb x y then O else S (index_of x l')
  end.

(** [np.unique(values, return_inverse=True)]: the sorted distinct values,
    and for each input value its position among them. *)
Definition np_unique (values : list str) : list str * list nat :=
  let a := map rstrip_nul values in
  let elements := fold_right insert_unique [] a in
  (elements, map (fun x => index_of x elements) a).

(** The outcome of a property lookup: the array, the [KeyError] of the
    key that [ELEMENTS] does not have, or the [IndexError] of an index
    out of the bounds of the looked-up values. *)
Inductive prop_result (A : Type) :=
| Found (a : A)
| KeyError (key : str)
| BadIndex.
Arguments Found {A} a.
Arguments KeyError {A} key.
Arguments BadIndex {A}.

Section Properties.

Variable Elem : Type.
Variable V : Type.
(** [string.capwords]. *)
Variable capwords : str -> str.
(** [ELEMENTS[key]], the periodic table of the [elements] module. *)
Variable ELEMENTS : str -> option Elem.
(** [getattr(element, ptype)] for the attributes [number], [mass] and
    [vdwrad]. *)
Variable getattr : Elem -> str -> V.

(** [[getattr(ELEMENTS[capwords(e)], ptype) for e in elements]]. *)
Fixpoint element_values (elements : list str) (ptype : str)
  : prop_result (list V) :=
  match elements with
  | [] => Found []
  | e :: elements' =>
      match ELEMENTS (capwords e) with
      | None => KeyError (capwords e)
      | Some el =>
          match element_values elements' ptype with
          | Found vs => Found (getattr el ptype :: vs)
          | KeyError k => KeyError k
          | BadIndex => BadIndex
          end
      end
  end.

(** [values[ind]]: one of the values per index. *)
Fixpoint take_indices (values : list V) (ind : list nat) : prop_result (list V) :=
  match ind with
  | [] => Found []
  | i :: ind' =>
      match values !! i with
      | None => BadIndex
      | Some v =>
          match take_indices values ind' with
          | Found vs => Found (v :: vs)
          | other => other
          end
      end
  end.

(** [self._get_property(ptype)] on the element symbols [elems] of the
    atoms, [[atom.elem for atom in self.prot.atomList]]. *)
Definition _get_property (elems : list str) (ptype : str) : prop_result (list V) :=
  let '(elements, ind) := np_unique elems in
  match element_values elements ptype with
  | Found values => take_indices values ind
  | KeyError k => KeyError k
  | BadIndex => BadIndex
  end.

End Properties.

Section Aliasing.

Variable Prot : Type.

(** The [prot] property: getter and setter. *)
Definition prot_get (h : Struct.heap Prot) (self : positive)
  : result positive :=
  match Struct.structures Prot h !! self with
  | Some p => Ok p
  | None => Raise AttributeError
  end.

Definition prot_set (h : Struct.heap Prot) (self : positive) (p : positive)
  : Struct.heap Prot :=
  {| Struct.prots := Struct.prots Prot h;
     Struct.structures := <[self := p]> (Struct.structures Prot h) |}.

End Aliasing.

End StructMore.

(** ** Sample data *)

Definition pdb_line (s : string) : str := lit s ++ nl.

Definition stream_of (ls : list str) : TextIO :=
  {| io_lines := ls; io_closed := false |}.

Definition no_files (path : str) : option (list str) := None.

(** The table read from the lines [ls], when they parse. *)
Definition parsed (ls : list str) : AtomTable :=
  match parse_lines ls empty_table 1 with
  | Ok pdb => pdb
  | Raise _ => empty_table
  end.

Definition example_atom (id : Z) (chain : string) : AtomRecord := {|
  a_record := ATOM; a_id := id; a_name := lit "CA"; a_alt := lit " ";
  a_resn := lit "ALA"; a_chain := lit chain; a_resi := id; a_i := lit " ";
  a_x := S754_finite false 6949617174986097 (-49);
  a_y := S754_zero false; a_z := S754_zero true;
  a_q := S754_finite false 4503599627370496 (-52);
  a_b := S754_zero false;
  a_e := lit "C"; a_charge := lit ""; a_model := 1 |}.

Definition example_model2_atom : AtomRecord := {|
  a_record := HETATM; a_id := 2; a_name := lit "FE"; a_alt := lit " ";
  a_resn := lit "HEM"; a_chain := lit "B"; a_resi := 7; a_i := lit " ";
  a_x := S754_zero false; a_y := S754_zero false; a_z := S754_zero false;
  a_q := S754_finite false 4503599627370496 (-52);
  a_b := S754_zero false;
  a_e := lit "FE"; a_charge := lit ""; a_model := 2 |}.

(** Three atom lines with a blank element column: a name with a letter,
    a name without one, and an empty name. *)
Definition blank_element_lines : list str :=
  [pdb_line "ATOM      1  CA1 ALA A   1      12.345   0.000  -0.000  1.00  0.00              ";
   pdb_line "HETATM    2  123 LIG A   2       1.000   2.000   3.000  1.00  0.00              ";
   pdb_line "ATOM      3      ALA B   3       1.000   2.000   3.000  1.00  0.00              "].

(** Two atoms, a [MODEL] record, and a third atom. *)
Definition model_lines : list str :=
  [pdb_line "REMARK sample";
   pdb_line "ATOM      1  N   ALA A   1      11.104   6.134  -6.504  1.00  0.00           N  ";
   pdb_line "ATOM      2  CA  ALA A   1      11.639   6.071  -5.147  1.00  0.00           C  ";
   pdb_line "MODEL        2";
   pdb_line "HETATM    3 FE   HEM B  -2      -0.000-999.9999999.999  1.00 20.50          FE  "].

(** An atom line whose serial number column does not hold a number. *)
Definition malformed_lines : list str :=
  [pdb_line "ATOM      x  CA  ALA A   1      12.345   0.000  -0.000  1.00  0.00           C  "].

(** A single-model file: a heading with a [MODEL] record, then three
    atoms of two chains. *)
Definition sample_heading : list str :=
  [pdb_line "REMARK sample";
   pdb_line "MODEL        1"].

Definition sample_body : list str :=
  [pdb_line "ATOM      1  N   ALA A   1      11.104   6.134  -6.504  1.00  0.00           N  ";
   pdb_line "ATOM      2  CA  ALA A   1      11.639   6.071  -5.147  1.00  0.00           C  ";
   pdb_line "TER       3      ALA A   1";
   pdb_line "HETATM    3 FE   HEM B  -2      -0.000-999.9999999.999  1.00 20.50          FE  ";
   pdb_line "ENDMDL";
   pdb_line "END"].

(** A hydrogen named as in the older releases of the format, from
    column 13, and a calcium ion without element symbol. *)
Definition column13_names : list str :=
  [pdb_line "ATOM      1 1HB  ALA A   1      11.104   6.134  -6.504  1.00  0.00           H  ";
   pdb_line "HETATM    2 CA    CA A   2      11.639   6.071  -5.147  1.00  0.00              "].

(** [float(s)] written back with ['{:w.pf}']. *)
Definition format_of (w p : nat) (s : string) : result string :=
  let* x := py_float (lit s) in Ok (string_of_list_ascii (format_f w p x)).

(** A small periodic table: symbol, atomic number. *)
Definition sample_capwords (s : str) : str :=
  match s with
  | c :: s' =>
      (if in_range 97 122 c then ascii_of_N (Z.to_N (code c - 32)) else c)
      :: map lower s'
  | [] => []
  end.

Definition sample_elements (key : str) : option Z :=
  if eqb key (lit "C") then Some 6
  else if eqb key (lit "N") then Some 7
  else if eqb key (lit "Ca") then Some 20
  else None.

Definition sample_getattr (number : Z) (ptype : str) : Z := number.

Definition sample_element (e : str) : Z :=
  match sample_elements (sample_capwords (StructMore.rstrip_nul e)) with
  | Some z => z
  | None => 0
  end.

(** * Properties *)

(** ** The primitives on concrete inputs *)

Example strip_example : strip (lit " CA1 ") = lit "CA1".
Proof. reflexivity. Qed.

Example py_int_examples :
  py_int (lit "  42 ") = Ok 42 /\ py_int (lit "-7") = Ok (-7) /\
  py_int (lit "1_000") = Ok 1000 /\ py_int (lit "1__0") = Raise ValueError /\
  py_int (lit "") = Raise ValueError /\ py_int (lit "12a") = Raise ValueError.
Proof. repeat split; reflexivity. Qed.

(** [int()] and [float()] skip less than [strip] removes: a number next
    to one of the separators FS, GS, RS, US is refused, and one next to
    a tab, a line end or a no-break space is read. *)
Example number_whitespace :
  let FS := ascii_of_N 28 in
  let US := ascii_of_N 31 in
  let HT := ascii_of_N 9 in
  let LF := ascii_of_N 10 in
  let NEL := ascii_of_N 133 in
  let NBSP := ascii_of_N 160 in
  strip (FS :: lit "12") = lit "12" /\
  py_int (FS :: lit "12") = Raise ValueError /\
  py_int (lit " 12" ++ [US]) = Raise ValueError /\
  py_int (FS :: lit "12" ++ [NBSP]) = Raise ValueError /\
  py_int (HT :: lit "12" ++ [LF]) = Ok 12 /\
  py_int (NBSP :: lit "12" ++ [NEL]) = Ok 12 /\
  py_int (lit "1" ++ NBSP :: lit "2") = Raise ValueError /\
  py_float (lit "1.5" ++ [FS]) = Raise ValueError /\
  py_float (FS :: lit "1.5" ++ [NBSP]) = Raise ValueError /\
  py_float (NBSP :: lit "1.5" ++ [NEL])
  = Ok (S754_finite false 6755399441055744 (-52)) /\
  py_float (NBSP :: lit "inf") = Ok (S754_infinity false).
Proof. repeat split; vm_compute; reflexivity. Qed.

Example py_float_examples :
  py_float (lit "0.1") = Ok (S754_finite false 7205759403792794 (-56)) /\
  py_float (lit " -12.345") = Ok (S754_finite true 6949617174986097 (-49)) /\
  py_float (lit "1e3") = Ok (S754_finite false 8796093022208000 (-43)) /\
  py_float (lit "-0.000") = Ok (S754_zero true) /\
  py_float (lit "1e400") = Ok (S754_infinity false) /\
  py_float (lit ".") = Raise ValueError /\
  py_float (lit "1_.5") = Raise ValueError /\
  py_float (lit "abc") = Raise ValueError.
Proof. repeat split; vm_compute; reflexivity. Qed.

Example format_examples :
  format_f 8 3 (S754_finite true 6949617174986097 (-49)) = lit " -12.345" /\
  format_f 8 3 (S754_zero true) = lit "  -0.000" /\
  format_f 6 2 (S754_finite false 4503599627370496 (-52)) = lit "  1.00" /\
  format_f 8 3 (S754_finite false 4503599627370496 (-63)) = lit "   0.000" /\
  format_d 5 (-42) = lit "  -42" /\ format_d 4 0 = lit "   0" /\
  format_s 4 (lit "CA") = lit "CA  " /\ format_s 2 (lit "ABC") = lit "ABC".
Proof. repeat split; vm_compute; reflexivity. Qed.

Example tofile_example :
  map string_of_list_ascii
    (written (fst (tofile (table_of_rows
       [example_atom 1 "A"; example_atom 2 "B"])))) =
  ["ATOM      1  CA  ALA A   1      12.345   0.000  -0.000  1.00  0.00          C   
";
   "TER       2      ALA A   1                                                      
";
   "ATOM      2  CA  ALA B   2      12.345   0.000  -0.000  1.00  0.00          C   
";
   "END   
"]%string.
Proof. vm_compute. reflexivity. Qed.

(** Rounding at the limits of binary64: the smallest subnormal, underflow
    to zero, a carry into the next binade, the largest finite value,
    overflow, a subnormal, and a tie broken to the even mantissa. *)
Example py_float_rounding :
  py_float (lit "4.9e-324") = Ok (S754_finite false 1 (-1074)) /\
  py_float (lit "1e-400") = Ok (S754_zero false) /\
  py_float (lit "0.9999999999999999999")
    = Ok (S754_finite false 4503599627370496 (-52)) /\
  py_float (lit "1.7976931348623157e308")
    = Ok (S754_finite false 9007199254740991 971) /\
  py_float (lit "1.7976931348623159e308") = Ok (S754_infinity false) /\
  py_float (lit "2.2250738585072011e-308")
    = Ok (S754_finite false 4503599627370495 (-1074)) /\
  py_float (lit "9007199254740993")
    = Ok (S754_finite false 4503599627370496 1).
Proof. repeat split; vm_compute; reflexivity. Qed.

Example py_float_grammar :
  py_float (lit "-7.0E-2") = Ok (S754_finite true 5044031582654956 (-56)) /\
  py_float (lit "1_0.2_5") = Ok (S754_finite false 5770237022568448 (-49)) /\
  py_float (lit "3.") = Ok (S754_finite false 6755399441055744 (-51)) /\
  py_float (lit " inf ") = Ok (S754_infinity false) /\
  py_float (lit "-Infinity") = Ok (S754_infinity true) /\
  py_float (lit "NaN") = Ok S754_nan /\
  py_float (lit "1e") = Raise ValueError /\
  py_float (lit "0x10") = Raise ValueError.
Proof. repeat split; vm_compute; reflexivity. Qed.

Example format_f_rounding :
  format_of 8 3 "0.0005" = Ok "   0.001"%string /\
  format_of 8 3 "0.0015" = Ok "   0.002"%string /\
  format_of 6 2 "0.125" = Ok "  0.12"%string /\
  format_of 6 2 "0.375" = Ok "  0.38"%string /\
  format_of 4 0 "2.5" = Ok "   2"%string /\
  format_of 8 3 "1e22" = Ok "10000000000000000000000.000"%string /\
  format_of 8 3 "inf" = Ok "     inf"%string /\
  format_of 6 2 "-inf" = Ok "  -inf"%string /\
  format_of 8 3 "nan" = Ok "     nan"%string /\
  format_of 8 3 "-0.0004" = Ok "  -0.000"%string /\
  format_of 8 3 "9999.9995" = Ok "9999.999"%string /\
  format_of 8 3 "123456789.0" = Ok "123456789.000"%string.
Proof. repeat split; vm_compute; reflexivity. Qed.

Example format_overflow :
  format_d 5 123456 = lit "123456" /\ format_d 4 (-12345) = lit "-12345" /\
  format_s 3 (lit "ABCD") = lit "ABCD" /\ ljust 2 [] = lit "  ".
Proof. repeat split; vm_compute; reflexivity. Qed.

Example parse_mmcif_example :
  parse_mmcif no_files (PyFile (stream_of
    [pdb_line "loop_"; pdb_line "_atom_site.group_PDB";
     pdb_line "_atom_site.id "; pdb_line "_atom_site.Cartn_x";
     pdb_line "ATOM 1 11.104"; pdb_line "HETATM 2 0.5";
     pdb_line "ATOM   2   6.134  extra"]))
  = (Some (close (stream_of
       [pdb_line "loop_"; pdb_line "_atom_site.group_PDB";
        pdb_line "_atom_site.id "; pdb_line "_atom_site.Cartn_x";
        pdb_line "ATOM 1 11.104"; pdb_line "HETATM 2 0.5";
        pdb_line "ATOM   2   6.134  extra"])),
     Ok [(lit "group_PDB", [lit "ATOM"; lit "ATOM"]);
         (lit "id", [lit "1"; lit "2"]);
         (lit "Cartn_x", [lit "11.104"; lit "6.134"])]).
Proof. vm_compute. reflexivity. Qed.

(** ** Strings *)

Lemma isspace_not_isalpha c : isspace c = true -> isalpha c = false.
Proof.
  destruct c as [[] [] [] [] [] [] [] []]; vm_compute; congruence.
Qed.

Lemma lstrip_split s :
  exists ws, s = ws ++ lstrip s /\ Forall (fun c => isspace c = true) ws.
Proof.
  induction s as [|c s IH]; simpl.
  - exists []. split; [reflexivity | constructor].
  - destruct (isspace c) eqn:Hc.
    + destruct IH as (ws & Hs & Hws). exists (c :: ws). split.
      * simpl. congruence.
      * constructor; assumption.
    + exists []. split; [reflexivity | constructor].
Qed.

Lemma rstrip_split s :
  exists ws, s = rstrip s ++ ws /\ Forall (fun c => isspace c = true) ws.
Proof.
  unfold rstrip. destruct (lstrip_split (rev s)) as (ws & Hs & Hws).
  exists (rev ws). split.
  - rewrite <- rev_app_distr, <- Hs. symmetry. apply rev_involutive.
  - apply Forall_rev. assumption.
Qed.

Lemma find_isalpha_spaces ws s :
  Forall (fun c => isspace c = true) ws ->
  List.find isalpha (ws ++ s) = List.find isalpha s.
Proof.
  induction 1 as [|c ws Hc _ IH]; simpl; [reflexivity|].
  rewrite (isspace_not_isalpha c Hc). exact IH.
Qed.

Lemma find_isalpha_app_spaces s ws :
  Forall (fun c => isspace c = true) ws ->
  List.find isalpha (s ++ ws) = List.find isalpha s.
Proof.
  intros Hws. induction s as [|c s IH]; simpl.
  - rewrite <- (app_nil_r ws). rewrite find_isalpha_spaces by assumption.
    reflexivity.
  - destruct (isalpha c); [reflexivity | exact IH].
Qed.

Lemma find_isalpha_strip s :
  List.find isalpha (strip s) = List.find isalpha s.
Proof.
  unfold strip.
  destruct (lstrip_split s) as (ws & Hs & Hws).
  destruct (rstrip_split (lstrip s)) as (ws' & Hs' & Hws').
  rewrite Hs at 2. rewrite find_isalpha_spaces by assumption.
  rewrite Hs' at 2. rewrite find_isalpha_app_spaces by assumption.
  reflexivity.
Qed.

(** ** The element loop *)

Lemma for_e_in_name_found name e c :
  List.find isalpha name = Some c -> for_e_in_name name e = [c].
Proof.
  revert e. induction name as [|a name IH]; intros e; simpl; [discriminate|].
  destruct (isalpha a); [congruence | apply IH].
Qed.

Lemma for_e_in_name_none name e :
  List.find isalpha name = None ->
  for_e_in_name name e = match last name with Some c => [c] | None => e end.
Proof.
  revert e. induction name as [|a name IH]; intros e; simpl; [reflexivity|].
  destruct (isalpha a); [discriminate|]. intros H.
  rewrite (IH [a] H). destruct name as [|a0 name]; [reflexivity|].
  change (last (a :: a0 :: name)) with (last (a0 :: name)).
  destruct (last (a0 :: name)) eqn:E; [reflexivity|].
  apply last_None in E. discriminate.
Qed.

(** ** Rows of a parsed table *)

Lemma append_row_table rows a :
  append_row (table_of_rows rows) a = table_of_rows (rows ++ [a]).
Proof.
  unfold append_row, table_of_rows; simpl.
  rewrite !map_app. reflexivity.
Qed.

Lemma parse_lines_rows ls : forall rows0 mn pdb,
  parse_lines ls (table_of_rows rows0) mn = Ok pdb ->
  exists rows, rows_of mn ls rows /\ pdb = table_of_rows (rows0 ++ rows).
Proof.
  induction ls as [|line ls IH]; intros rows0 mn pdb; simpl.
  - intros [= <-]. exists []. split; [constructor|].
    rewrite app_nil_r. reflexivity.
  - fold (is_atom_line line).
    destruct (is_atom_line line) eqn:Hatom.
    + destruct (parse_atom mn (slice 0 6 line) line) as [a|e] eqn:Ha;
        simpl; [|discriminate].
      rewrite append_row_table. intros H.
      destruct (IH _ _ _ H) as (rows & Hrows & ->).
      exists (a :: rows). split.
      * constructor; assumption.
      * rewrite <- app_assoc. reflexivity.
    + destruct (eqb (slice 0 6 line) MODEL) eqn:Hmodel.
      * destruct (py_int (slice 10 14 line)) as [n|e] eqn:Hn;
          simpl; [|discriminate].
        intros H. destruct (IH _ _ _ H) as (rows & Hrows & ->).
        exists rows. split; [|reflexivity].
        eapply rows_model; eassumption.
      * intros H. destruct (IH _ _ _ H) as (rows & Hrows & ->).
        exists rows. split; [|reflexivity].
        apply rows_other; assumption.
Qed.

Lemma rows_of_atom_lines mn ls rows :
  rows_of mn ls rows ->
  Forall2 (fun line a => exists m, parse_atom m (slice 0 6 line) line = Ok a)
          (List.filter is_atom_line ls) rows.
Proof.
  induction 1; simpl.
  - constructor.
  - rewrite H. constructor; [eauto | assumption].
  - rewrite H. assumption.
  - rewrite H. assumption.
Qed.

(** A successful [parse_pdb] on a stream returns the table of the rows
    read from its lines, and closes the stream. *)
Lemma parse_pdb_stream fs f h pdb :
  parse_pdb fs (PyFile f) = (h, Ok pdb) ->
  h = Some (close f) /\
  exists rows, rows_of 1 (io_lines f) rows /\ pdb = table_of_rows rows.
Proof.
  unfold parse_pdb. destruct (io_closed f); [discriminate|].
  destruct (parse_lines (io_lines f) empty_table 1) as [pdb'|e] eqn:Hp;
    [|discriminate].
  intros [= <- <-]. split; [reflexivity|].
  change empty_table with (table_of_rows []) in Hp.
  apply parse_lines_rows in Hp. exact Hp.
Qed.

Lemma parse_pdb_ok fs infile h pdb :
  parse_pdb fs infile = (h, Ok pdb) ->
  (exists f, h = Some f /\ io_closed f = true) /\
  exists rows, rows_of 1 (source_lines fs infile) rows /\
               pdb = table_of_rows rows.
Proof.
  destruct infile as [f|path|]; [| |discriminate].
  - intros H. apply parse_pdb_stream in H as (-> & Hrows).
    split; [|exact Hrows]. exists (close f). split; reflexivity.
  - simpl. unfold open. destruct (fs path) as [ls|]; [|discriminate].
    intros H. apply (parse_pdb_stream fs) in H as (-> & Hrows).
    split; [|exact Hrows]. eexists. split; reflexivity.
Qed.

(** What a successful [parse_atom] read from each column. *)
Lemma parse_atom_inv mn record line a :
  parse_atom mn record line = Ok a ->
  a_record a = record /\ a_model a = mn /\
  py_int (slice 6 11 line) = Ok (a_id a) /\
  a_name a = strip (slice 12 16 line) /\
  char_at line 21 = Ok (a_chain a) /\
  py_int (slice 22 26 line) = Ok (a_resi a) /\
  py_float (slice 30 38 line) = Ok (a_x a) /\
  py_float (slice 38 46 line) = Ok (a_y a) /\
  py_float (slice 46 54 line) = Ok (a_z a) /\
  a_e a = match strip (slice 76 78 line) with
          | [] => for_e_in_name (strip (slice 12 16 line)) []
          | e => e
          end.
Proof.
  unfold parse_atom.
  destruct (py_int (slice 6 11 line)); simpl; [|discriminate].
  destruct (char_at line 16); simpl; [|discriminate].
  destruct (char_at line 21); simpl; [|discriminate].
  destruct (py_int (slice 22 26 line)); simpl; [|discriminate].
  destruct (char_at line 26); simpl; [|discriminate].
  destruct (py_float (slice 30 38 line)); simpl; [|discriminate].
  destruct (py_float (slice 38 46 line)); simpl; [|discriminate].
  destruct (py_float (slice 46 54 line)); simpl; [|discriminate].
  destruct (py_float (slice 54 60 line)); simpl; [|discriminate].
  destruct (py_float (slice 60 66 line)); simpl; [|discriminate].
  intros [= <-]. simpl. repeat split; try reflexivity.
  destruct (strip (slice 76 78 line)); reflexivity.
Qed.

(** The row read from the [i]-th atom line of a parsed input. *)
Lemma parsed_row fs infile h pdb i line :
  parse_pdb fs infile = (h, Ok pdb) ->
  List.filter is_atom_line (source_lines fs infile) !! i = Some line ->
  exists rows a m,
    pdb = table_of_rows rows /\ rows !! i = Some a /\
    parse_atom m (slice 0 6 line) line = Ok a.
Proof.
  intros Hp Hi. apply parse_pdb_ok in Hp as (_ & rows & Hrows & ->).
  apply rows_of_atom_lines in Hrows.
  destruct (Forall2_lookup_l _ _ _ _ _ Hrows Hi) as (a & Ha & m & Hm).
  exists rows, a, m. auto.
Qed.

(** ** Element inference *)

(** C7: for an atom line with a blank element column, the element
    recorded is the first alphabetic character of the atom name, read
    left to right; the name [" CA1"] gives ["C"]. *)
Theorem C7_blank_element_first_letter fs infile h pdb i line c :
  parse_pdb fs infile = (h, Ok pdb) ->
  List.filter is_atom_line (source_lines fs infile) !! i = Some line ->
  strip (slice 76 78 line) = [] ->
  List.find isalpha (slice 12 16 line) = Some c ->
  pdb_e pdb !! i = Some [c] /\
  (slice 12 16 line = lit " CA1" -> pdb_e pdb !! i = Some (lit "C")).
Proof.
  intros Hp Hi Hblank Hc.
  destruct (parsed_row _ _ _ _ _ _ Hp Hi) as (rows & a & m & -> & Ha & Hm).
  apply parse_atom_inv in Hm.
  destruct Hm as (_ & _ & _ & _ & _ & _ & _ & _ & _ & He).
  rewrite Hblank in He.
  rewrite (for_e_in_name_found _ _ c) in He
    by (rewrite find_isalpha_strip; exact Hc).
  assert (Hi' : pdb_e (table_of_rows rows) !! i = Some [c]).
  { cbn [pdb_e table_of_rows]. rewrite list_lookup_fmap, Ha.
    cbn [fmap option_fmap option_map]. rewrite He. reflexivity. }
  split; [exact Hi'|].
  intros Hname. rewrite Hname in Hc. vm_compute in Hc.
  injection Hc as <-. exact Hi'.
Qed.

Lemma C7_blank_element_first_letter_witness :
  pdb_e (parsed blank_element_lines) !! 0%nat = Some ["C"%char] /\
  (slice 12 16 (pdb_line "ATOM      1  CA1 ALA A   1      12.345   0.000  -0.000  1.00  0.00              ")
     = lit " CA1" ->
   pdb_e (parsed blank_element_lines) !! 0%nat = Some (lit "C")).
Proof.
  apply (C7_blank_element_first_letter no_files
    (PyFile (stream_of blank_element_lines))
    (Some (close (stream_of blank_element_lines)))
    (parsed blank_element_lines) 0%nat
    (pdb_line "ATOM      1  CA1 ALA A   1      12.345   0.000  -0.000  1.00  0.00              ")
    "C"%char); vm_compute; reflexivity.
Defined.

(** C10: for an atom line with a blank element column whose stripped
    name has no alphabetic character, the line still parses (as soon as
    its other columns read) and the element recorded is the last
    character of the stripped name, or the empty string when that name
    is empty. *)
Theorem C10_blank_element_no_letter
    mn record line id alt chain resi i x y z q b :
  py_int (slice 6 11 line) = Ok id ->
  char_at line 16 = Ok alt ->
  char_at line 21 = Ok chain ->
  py_int (slice 22 26 line) = Ok resi ->
  char_at line 26 = Ok i ->
  py_float (slice 30 38 line) = Ok x ->
  py_float (slice 38 46 line) = Ok y ->
  py_float (slice 46 54 line) = Ok z ->
  py_float (slice 54 60 line) = Ok q ->
  py_float (slice 60 66 line) = Ok b ->
  strip (slice 76 78 line) = [] ->
  List.find isalpha (strip (slice 12 16 line)) = None ->
  let e := match last (strip (slice 12 16 line)) with
           | Some c => [c]
           | None => []
           end in
  (exists a, parse_atom mn record line = Ok a /\ a_e a = e) /\
  (forall fs infile h pdb k,
     parse_pdb fs infile = (h, Ok pdb) ->
     List.filter is_atom_line (source_lines fs infile) !! k = Some line ->
     pdb_e pdb !! k = Some e).
Proof.
  intros Hid Halt Hchain Hresi Hi Hx Hy Hz Hq Hb Hblank Hnone e.
  assert (He : forall m r a, parse_atom m r line = Ok a -> a_e a = e).
  { intros m r a Ha. apply parse_atom_inv in Ha.
    destruct Ha as (_ & _ & _ & _ & _ & _ & _ & _ & _ & He).
    rewrite Hblank, (for_e_in_name_none _ _ Hnone) in He. exact He. }
  split.
  - destruct (parse_atom mn record line) as [a|err] eqn:Ha.
    + exists a. split; [reflexivity | eapply He; eassumption].
    + exfalso. revert Ha. unfold parse_atom.
      rewrite Hid, Halt, Hchain, Hresi, Hi, Hx, Hy, Hz, Hq, Hb.
      discriminate.
  - intros fs infile h pdb k Hp Hk.
    destruct (parsed_row _ _ _ _ _ _ Hp Hk) as (rows & a & m & -> & Ha & Hm).
    cbn [pdb_e table_of_rows]. rewrite list_lookup_fmap, Ha.
    cbn [fmap option_fmap option_map]. rewrite (He _ _ _ Hm). reflexivity.
Qed.

Lemma C10_blank_element_no_letter_witness :
  let line := pdb_line "HETATM    2  123 LIG A   2       1.000   2.000   3.000  1.00  0.00              " in
  (exists a, parse_atom 1 HETATM line = Ok a /\ a_e a = lit "3") /\
  (forall fs infile h pdb k,
     parse_pdb fs infile = (h, Ok pdb) ->
     List.filter is_atom_line (source_lines fs infile) !! k = Some line ->
     pdb_e pdb !! k = Some (lit "3")).
Proof.
  intros line.
  eapply (C10_blank_element_no_letter 1 HETATM line); vm_compute; reflexivity.
Defined.

(** An empty name with a blank element column records the empty string. *)
Example blank_element_lines_elements :
  pdb_e (parsed blank_element_lines) = [lit "C"; lit "3"; []].
Proof. vm_compute. reflexivity. Qed.

(** ** Model numbers *)

Lemma rows_of_before_model pre : forall mn rest rows,
  rows_of mn (pre ++ rest) rows ->
  Forall (fun line => slice 0 6 line <> MODEL) pre ->
  exists rows1 rows2,
    rows = rows1 ++ rows2 /\
    length rows1 = length (List.filter is_atom_line pre) /\
    Forall (fun a => a_model a = mn) rows1.
Proof.
  induction pre as [|line pre IH]; intros mn rest rows Hrows Hpre.
  - exists [], rows. repeat split. constructor.
  - apply Forall_cons in Hpre as [Hline Hpre].
    simpl in Hrows.
    inversion Hrows as [| ? ? ? a rows' Hat Hpa Hr
                        | ? n ? ? ? Hat Hm Hn Hr
                        | ? ? ? ? Hat Hm Hr]; subst.
    + destruct (IH _ _ _ Hr Hpre) as (rows1 & rows2 & -> & Hlen & Hall).
      exists (a :: rows1), rows2. simpl. rewrite Hat. simpl.
      repeat split; [congruence|]. constructor; [|assumption].
      apply parse_atom_inv in Hpa. tauto.
    + exfalso. apply Hline. unfold eqb in Hm.
      apply bool_decide_eq_true in Hm. exact Hm.
    + destruct (IH _ _ _ Hr Hpre) as (rows1 & rows2 & -> & Hlen & Hall).
      exists rows1, rows2. simpl. rewrite Hat. auto.
Qed.

(** C9: every atom record that comes before the first [MODEL] line
    (all of them, when there is no such line) gets model number 1. *)
Theorem C9_default_model_number fs infile h pdb pre rest i :
  parse_pdb fs infile = (h, Ok pdb) ->
  source_lines fs infile = pre ++ rest ->
  Forall (fun line => slice 0 6 line <> MODEL) pre ->
  (i < length (List.filter is_atom_line pre))%nat ->
  pdb_model pdb !! i = Some 1.
Proof.
  intros Hp Hsrc Hpre Hi.
  apply parse_pdb_ok in Hp as (_ & rows & Hrows & ->).
  rewrite Hsrc in Hrows.
  destruct (rows_of_before_model _ _ _ _ Hrows Hpre)
    as (rows1 & rows2 & -> & Hlen & Hall).
  cbn [pdb_model table_of_rows]. rewrite list_lookup_fmap.
  rewrite lookup_app_l by lia.
  destruct (lookup_lt_is_Some_2 rows1 i ltac:(lia)) as [a Ha].
  rewrite Ha. cbn [fmap option_fmap option_map]. f_equal.
  eapply Forall_lookup_1 in Hall; eauto.
Qed.

Lemma C9_default_model_number_witness :
  pdb_model (parsed model_lines) !! 1%nat = Some 1.
Proof.
  apply (C9_default_model_number no_files (PyFile (stream_of model_lines))
    (Some (close (stream_of model_lines))) (parsed model_lines)
    (take 3 model_lines) (drop 3 model_lines) 1%nat).
  - vm_compute. reflexivity.
  - reflexivity.
  - repeat constructor; vm_compute; discriminate.
  - vm_compute. lia.
Defined.

Example model_lines_models : pdb_model (parsed model_lines) = [1; 1; 2].
Proof. vm_compute. reflexivity. Qed.

(** An input without any [MODEL] line: every atom gets model number 1. *)
Corollary no_model_line_all_one fs infile h pdb :
  parse_pdb fs infile = (h, Ok pdb) ->
  Forall (fun line => slice 0 6 line <> MODEL) (source_lines fs infile) ->
  pdb_model pdb = repeat 1 (length (pdb_model pdb)).
Proof.
  intros Hp Hall.
  destruct (parse_pdb_ok _ _ _ _ Hp) as (_ & rows & Hrows & ->).
  rewrite <- (app_nil_r (source_lines fs infile)) in Hrows.
  destruct (rows_of_before_model _ _ _ _ Hrows Hall)
    as (rows1 & rows2 & -> & Hlen & Hall1).
  rewrite app_nil_r in Hrows.
  assert (rows2 = []) as ->.
  { apply rows_of_atom_lines, Forall2_length in Hrows.
    rewrite length_app in Hrows. destruct rows2; [reflexivity|].
    simpl in Hrows. lia. }
  rewrite app_nil_r. cbn [pdb_model table_of_rows].
  rewrite length_map. clear -Hall1.
  induction Hall1 as [|a rows1 Ha _ IH]; simpl; [reflexivity|].
  rewrite Ha. f_equal. exact IH.
Qed.

(** ** Release of the input stream *)

(** When the loop of [parse_pdb] ends normally the stream is closed. *)
Lemma parse_pdb_success_closes fs infile h pdb :
  parse_pdb fs infile = (h, Ok pdb) ->
  exists f, h = Some f /\ io_closed f = true.
Proof. intros H. apply parse_pdb_ok in H. tauto. Qed.

(** [parse_mmcif] leaves no stream open, whatever the outcome. *)
Lemma parse_mmcif_closes fs infile f r :
  parse_mmcif fs infile = (Some f, r) -> io_closed f = true.
Proof.
  destruct infile as [f0|path|]; simpl; [| |discriminate].
  - destruct (io_closed f0) eqn:Hc; intros [= <- _]; [exact Hc|reflexivity].
  - unfold open. destruct (fs path); [|discriminate].
    simpl. intros [= <- _]. reflexivity.
Qed.

(** C2: when a numeric column fails to parse,
    [parse_pdb] raises and leaves the stream open, both for a stream it
    was handed and for one it opened itself from a path. *)
Theorem C2_parse_pdb_error_leaves_stream_open :
  let f := stream_of malformed_lines in
  io_closed f = false /\
  (forall fs, parse_pdb fs (PyFile f) = (Some f, Raise ValueError)) /\
  parse_pdb (fun _ => Some malformed_lines) (PyStr (lit "in.pdb"))
    = (Some f, Raise ValueError).
Proof.
  repeat split; vm_compute; reflexivity.
Qed.

(** ** The writer *)

Lemma getitem_lookup {A} (l : list A) (n : nat) (a : A) (i : Z) :
  l !! n = Some a -> i = Z.of_nat n -> getitem l i = Ok a.
Proof.
  intros Hn ->. unfold getitem.
  pose proof (lookup_lt_Some _ _ _ Hn) as Hlt.
  destruct (Z.ltb_spec (Z.of_nat n) 0); [lia|].
  destruct (Z.leb_spec 0 (Z.of_nat n)); [|lia].
  destruct (Z.ltb_spec (Z.of_nat n) (Z.of_nat (length l))); [|lia].
  simpl. rewrite Nat2Z.id, Hn. reflexivity.
Qed.

Lemma getitem_map {A B} (g : A -> B) (l : list A) n a i :
  l !! n = Some a -> i = Z.of_nat n -> getitem (map g l) i = Ok (g a).
Proof.
  intros Hn Hi. apply (getitem_lookup _ n); [|exact Hi].
  rewrite list_lookup_fmap, Hn. reflexivity.
Qed.

Lemma atom_record_row rows n a i f :
  rows !! n = Some a -> i = Z.of_nat n ->
  atom_record (table_of_rows rows) i f =
  ({| written := written f ++ [atom_line a]; out_closed := out_closed f |},
   Ok tt).
Proof.
  intros Hn Hi. unfold atom_record, wbind, wlift, table_of_rows. simpl.
  rewrite !(getitem_map _ rows n a i Hn Hi). reflexivity.
Qed.

Lemma ter_record_row rows n p i f :
  rows !! n = Some p -> i - 1 = Z.of_nat n ->
  ter_record (table_of_rows rows) i f =
  ({| written := written f ++ [ter_line p]; out_closed := out_closed f |},
   Ok tt).
Proof.
  intros Hn Hi. unfold ter_record, wbind, wlift, table_of_rows. simpl.
  rewrite !(getitem_map _ rows n p (i - 1) Hn Hi). reflexivity.
Qed.

Lemma eqb_refl (s : str) : eqb s s = true.
Proof. unfold eqb. apply bool_decide_eq_true. reflexivity. Qed.

(** One round of the loop over the atoms of a block, at the row [a] of
    index [off + j]: [prev] is the row written last in this block, whose
    chain [prev_chain] then is; at the start of the block [prev_chain]
    is the chain of [a] itself. *)
Lemma atom_step_row rows a off j prev prev_chain f :
  rows !! (off + j)%nat = Some a ->
  match prev with
  | Some p => (0 < off + j)%nat /\ rows !! (off + j - 1)%nat = Some p /\
              prev_chain = a_chain p
  | None => prev_chain = a_chain a
  end ->
  atom_step (table_of_rows rows) (Z.of_nat off) (Z.of_nat j) prev_chain f =
  ({| written := written f ++ block_lines prev [a];
      out_closed := out_closed f |}, Ok (a_chain a)).
Proof.
  intros Ha Hprev.
  assert (Hidx : Z.of_nat off + Z.of_nat j = Z.of_nat (off + j)) by lia.
  unfold atom_step, wbind, wlift. cbn [pdb_chain pdb_record table_of_rows].
  rewrite (getitem_map a_chain rows _ a _ Ha Hidx).
  destruct prev as [p|]; cbn [block_lines].
  - destruct Hprev as (Hpos & Hp & ->).
    assert (Hidx1 : Z.of_nat off + Z.of_nat j - 1 = Z.of_nat (off + j - 1))
      by lia.
    unfold ter_due.
    destruct (eqb (a_chain p) (a_chain a)) eqn:Hch; cbn [negb andb].
    + unfold wret. rewrite (atom_record_row _ _ a _ f Ha Hidx).
      apply bool_decide_eq_true in Hch. rewrite Hch.
      rewrite app_nil_l. reflexivity.
    + rewrite (getitem_map a_record rows _ p _ Hp Hidx1).
      destruct (eqb (a_record p) ATOM) eqn:Hrec; unfold when.
      * rewrite (ter_record_row _ _ p _ f Hp Hidx1).
        unfold wret. rewrite (atom_record_row _ _ a _ _ Ha Hidx).
        cbn [written out_closed]. rewrite <- app_assoc. reflexivity.
      * unfold wret. rewrite (atom_record_row _ _ a _ _ Ha Hidx).
        rewrite app_nil_l. reflexivity.
  - rewrite Hprev, eqb_refl. cbn [negb]. unfold wret.
    rewrite (atom_record_row _ _ a _ f Ha Hidx).
    rewrite app_nil_l. reflexivity.
Qed.

Lemma block_lines_cons prev a rows :
  block_lines prev (a :: rows) =
  block_lines prev [a] ++ block_lines (Some a) rows.
Proof. simpl. rewrite <- app_assoc. reflexivity. Qed.

(** The loop over the atoms of a block: the rows [todo] are those of
    index [off + j] and on. *)
Lemma atoms_loop rows off : forall todo j prev prev_chain f,
  (forall i a, todo !! i = Some a -> rows !! (off + j + i)%nat = Some a) ->
  match prev with
  | Some p => (0 < off + j)%nat /\ rows !! (off + j - 1)%nat = Some p /\
              prev_chain = a_chain p
  | None => forall a, head todo = Some a -> prev_chain = a_chain a
  end ->
  exists pc,
    for_in (map Z.of_nat (seq j (length todo)))
      (atom_step (table_of_rows rows) (Z.of_nat off)) prev_chain f =
    ({| written := written f ++ block_lines prev todo;
        out_closed := out_closed f |}, Ok pc).
Proof.
  induction todo as [|a todo IH]; intros j prev prev_chain f Hrows Hprev.
  - exists prev_chain. simpl. unfold wret. rewrite app_nil_r.
    destruct f; reflexivity.
  - assert (Ha : rows !! (off + j)%nat = Some a).
    { rewrite <- (Hrows 0%nat a eq_refl). f_equal. lia. }
    cbn [length seq map for_in]. unfold wbind at 1.
    rewrite (atom_step_row rows a off j prev prev_chain f Ha).
    2:{ destruct prev; [exact Hprev | apply Hprev; reflexivity]. }
    destruct (IH (S j) (Some a) (a_chain a)
                {| written := written f ++ block_lines prev [a];
                   out_closed := out_closed f |}) as [pc Hpc].
    + intros i b Hb. rewrite <- (Hrows (S i) b Hb). f_equal. lia.
    + split; [lia|]. split; [|reflexivity].
      rewrite <- Ha. f_equal. lia.
    + exists pc. rewrite Hpc. cbn [written out_closed].
      rewrite (block_lines_cons prev a todo), app_assoc. reflexivity.
Qed.

Lemma range_of_nat n : range (Z.of_nat n) = map Z.of_nat (seq 0 n).
Proof. unfold range. rewrite Nat2Z.id. reflexivity. Qed.

(** One round of the loop over the models: the block [blk] of [s] rows
    is the [k]-th (from 0) of [rows]. *)
Lemma model_step_block rows blk k s n f :
  length blk = s -> (0 < s)%nat ->
  (forall j a, blk !! j = Some a -> rows !! (k * s + j)%nat = Some a) ->
  model_step (table_of_rows rows) n (Z.of_nat s) (Z.of_nat k) tt f =
  ({| written := written f ++
        (if 1 <? n then [MODEL_LINE (Z.of_nat k + 1)] else []) ++
        block_lines None blk ++
        (if 1 <? n then [ENDMDL_LINE] else []);
      out_closed := out_closed f |}, Ok tt).
Proof.
  intros <- Hs Hrows.
  destruct (blk !! 0%nat) as [a0|] eqn:Hhd;
    [|apply lookup_ge_None in Hhd; lia].
  assert (Ha0 : rows !! (k * length blk)%nat = Some a0).
  { rewrite <- (Hrows 0%nat a0 Hhd). f_equal. lia. }
  unfold model_step. rewrite <- Nat2Z.inj_mul.
  unfold wbind at 1.
  set (f1 := {| written := written f ++
                  (if 1 <? n then [MODEL_LINE (Z.of_nat k + 1)] else []);
                out_closed := out_closed f |}).
  assert (Hf1 : when (1 <? n) (write (MODEL_LINE (Z.of_nat k + 1))) f
                = (f1, Ok tt)).
  { unfold when, write, wret, f1. destruct (1 <? n); [reflexivity|].
    rewrite app_nil_r. destruct f; reflexivity. }
  rewrite Hf1. unfold wbind at 1. unfold wlift at 1.
  cbn [pdb_chain table_of_rows].
  rewrite (getitem_map a_chain rows _ a0 _ Ha0 eq_refl).
  unfold wbind at 1. rewrite range_of_nat.
  destruct (atoms_loop rows (k * length blk) blk 0 None (a_chain a0) f1)
    as [pc Hpc].
  { intros i a Hi. rewrite Nat.add_0_r. apply Hrows, Hi. }
  { intros a Ha. rewrite head_lookup in Ha. congruence. }
  rewrite Hpc.
  unfold when, write, wret, f1.
  destruct (1 <? n); cbn [written out_closed].
  - rewrite <- !app_assoc. reflexivity.
  - rewrite !app_nil_r. reflexivity.
Qed.

(** The loop over the models, from the [k]-th block on. *)
Lemma models_loop rows s n : forall todo k f,
  (0 < s)%nat ->
  (forall i blk, todo !! i = Some blk ->
     length blk = s /\
     forall j a, blk !! j = Some a -> rows !! ((k + i) * s + j)%nat = Some a) ->
  for_in (map Z.of_nat (seq k (length todo)))
    (model_step (table_of_rows rows) n (Z.of_nat s)) tt f =
  ({| written := written f ++ blocks_lines n (Z.of_nat k) todo;
      out_closed := out_closed f |}, Ok tt).
Proof.
  induction todo as [|blk todo IH]; intros k f Hs Hblocks.
  - simpl. unfold wret. rewrite app_nil_r. destruct f; reflexivity.
  - destruct (Hblocks 0%nat blk eq_refl) as [Hlen Hrows].
    cbn [length seq map for_in]. unfold wbind at 1.
    rewrite (model_step_block rows blk k s n f Hlen Hs).
    2:{ intros j a Hj. rewrite <- (Hrows j a Hj). f_equal. lia. }
    rewrite IH; [|exact Hs|].
    + cbn [written out_closed blocks_lines].
      replace (Z.of_nat (S k)) with (Z.of_nat k + 1) by lia.
      rewrite <- !app_assoc. reflexivity.
    + intros i b Hb. destruct (Hblocks (S i) b Hb) as [Hl Hr].
      split; [exact Hl|]. intros j a Hj. rewrite <- (Hr j a Hj).
      f_equal. lia.
Qed.

Lemma lookup_concat_blocks {A} (s : nat) (blocks : list (list A)) :
  Forall (fun blk => length blk = s) blocks ->
  forall i blk j a, blocks !! i = Some blk -> blk !! j = Some a ->
  concat blocks !! (i * s + j)%nat = Some a.
Proof.
  induction 1 as [|b blocks Hb _ IH]; intros i blk j a Hi Hj;
    [discriminate|].
  simpl. destruct i as [|i]; simpl in Hi.
  - injection Hi as ->. rewrite lookup_app_l; [exact Hj|].
    apply lookup_lt_Some in Hj. exact Hj.
  - rewrite lookup_app_r by lia.
    replace (S i * s + j - length b)%nat with (i * s + j)%nat by lia.
    eapply IH; eassumption.
Qed.

Lemma length_concat_blocks {A} (s : nat) (blocks : list (list A)) :
  Forall (fun blk => length blk = s) blocks ->
  length (concat blocks) = (length blocks * s)%nat.
Proof.
  induction 1 as [|b blocks Hb _ IH]; simpl; [reflexivity|].
  rewrite length_app, IH, Hb. reflexivity.
Qed.

(** The distinct model numbers of a table of model blocks. *)
Lemma model_set_blocks s blocks ms :
  (0 < s)%nat ->
  Forall2 (fun blk m => length blk = s /\ Forall (fun a => a_model a = m) blk)
          blocks ms ->
  (list_to_set (map a_model (concat blocks)) : gset Z) = list_to_set ms.
Proof.
  intros Hs. induction 1 as [|blk m blocks ms [Hlen Hall] _ IH];
    [reflexivity|].
  simpl. rewrite map_app, list_to_set_app_L, IH. f_equal.
  destruct blk as [|a blk]; [simpl in Hlen; lia|].
  clear -Hall. revert a Hall. induction blk as [|b blk IHb]; intros a Hall.
  - apply Forall_cons in Hall as [<- _]. simpl. apply union_empty_r_L.
  - apply Forall_cons in Hall as [Ha Hall]. simpl.
    specialize (IHb b Hall). simpl in IHb. rewrite IHb, Ha.
    apply union_idemp_L.
Qed.

Lemma StronglySorted_lt_NoDup ms : StronglySorted Z.lt ms -> NoDup ms.
Proof.
  induction 1 as [|m ms _ IH Hall]; constructor; [|exact IH].
  intros Hin. rewrite Forall_forall in Hall. specialize (Hall m Hin). lia.
Qed.

Lemma count_models_blocks s blocks ms :
  model_blocks s blocks ms ->
  count_models (table_of_rows (concat blocks)) = Z.of_nat (length blocks).
Proof.
  intros (Hs & Hblocks & Hsorted). unfold count_models.
  cbn [pdb_model table_of_rows].
  rewrite (model_set_blocks s blocks ms Hs Hblocks).
  rewrite size_list_to_set by (apply StronglySorted_lt_NoDup, Hsorted).
  rewrite (Forall2_length _ _ _ Hblocks). reflexivity.
Qed.

(** What [tofile] writes for a table of model blocks. *)
Lemma tofile_blocks s blocks ms :
  model_blocks s blocks ms -> blocks <> [] ->
  tofile (table_of_rows (concat blocks)) =
  ({| written := blocks_lines (Z.of_nat (length blocks)) 0 blocks ++ [END_LINE];
      out_closed := true |}, Ok tt).
Proof.
  intros Hmb Hne. pose proof Hmb as (Hs & Hblocks & _).
  assert (Hlens : Forall (fun blk => length blk = s) blocks).
  { clear -Hblocks. induction Hblocks as [|? ? ? ? [? _]]; constructor; auto. }
  unfold tofile, tofile_body.
  rewrite (count_models_blocks s blocks ms Hmb).
  cbn [pdb_id table_of_rows]. rewrite length_map.
  rewrite (length_concat_blocks s blocks Hlens).
  unfold wbind at 1. unfold wlift at 1. unfold int_div.
  destruct (Z.eqb_spec (Z.of_nat (length blocks)) 0) as [H0|H0].
  { destruct blocks; [congruence | simpl in H0; lia]. }
  rewrite Nat2Z.inj_mul, Z.mul_comm, Z.div_mul by lia.
  unfold wbind at 1. rewrite range_of_nat.
  rewrite (models_loop (concat blocks) s _ blocks 0 _ Hs).
  - unfold wbind, write, wclose. reflexivity.
  - intros i blk Hi. split.
    + rewrite Forall_forall in Hlens. eapply Hlens, list_elem_of_lookup_2, Hi.
    + intros j a Hj. simpl. eapply lookup_concat_blocks; eassumption.
Qed.

(** *** Record tags of the written lines *)

Lemma count_tag_app tag l1 l2 :
  count_tag tag (l1 ++ l2) = (count_tag tag l1 + count_tag tag l2)%nat.
Proof. unfold count_tag. rewrite List.filter_app, length_app. reflexivity. Qed.

Lemma atom_line_tag a :
  atom_or_hetatm a -> slice 0 6 (atom_line a) = a_record a.
Proof.
  unfold atom_line, ATOM_LINE. intros [-> | ->]; reflexivity.
Qed.

Lemma ter_line_tag p : slice 0 6 (ter_line p) = TER.
Proof. reflexivity. Qed.

Lemma count_tag_block tag prev blk :
  tag <> ATOM -> tag <> HETATM -> tag <> TER ->
  Forall atom_or_hetatm blk ->
  count_tag tag (block_lines prev blk) = 0%nat.
Proof.
  intros HA HH HT Hall. revert prev.
  induction Hall as [|a blk Ha _ IH]; intros prev; [reflexivity|].
  cbn [block_lines]. rewrite count_tag_app.
  change (atom_line a :: block_lines (Some a) blk)
    with ([atom_line a] ++ block_lines (Some a) blk).
  rewrite count_tag_app, IH.
  assert (Hat : count_tag tag [atom_line a] = 0%nat).
  { unfold count_tag. simpl. rewrite (atom_line_tag a Ha).
    unfold eqb. rewrite bool_decide_eq_false_2; [reflexivity|].
    destruct Ha as [-> | ->]; congruence. }
  assert (Hter : forall p, count_tag tag [ter_line p] = 0%nat).
  { intros p. unfold count_tag. simpl. rewrite ter_line_tag.
    unfold eqb. rewrite bool_decide_eq_false_2; [reflexivity|congruence]. }
  rewrite Hat. destruct prev as [p|]; [|reflexivity].
  destruct (ter_due p a); [rewrite Hter|]; reflexivity.
Qed.

Lemma count_tag_blocks tag n blocks : forall k,
  tag <> ATOM -> tag <> HETATM -> tag <> TER ->
  Forall (Forall atom_or_hetatm) blocks ->
  (forall j, count_tag tag [MODEL_LINE j] = if eqb MODEL tag then 1 else 0)%nat ->
  count_tag tag (blocks_lines n k blocks) =
  ((if (1 <? n)%Z then length blocks else 0) *
   ((if eqb MODEL tag then 1 else 0) + count_tag tag [ENDMDL_LINE]))%nat.
Proof.
  intros k HA HH HT Hall Hm. revert k.
  induction Hall as [|blk blocks Hblk _ IH]; intros k.
  - simpl. destruct (1 <? n); reflexivity.
  - cbn [blocks_lines length]. rewrite !count_tag_app, IH.
    rewrite (count_tag_block tag None blk HA HH HT Hblk).
    destruct (1 <? n); [rewrite Hm|]; simpl; lia.
Qed.

(** ** MODEL, ENDMDL and END records *)

(** C4: for a table of [n >= 1] model blocks of equal size in
    ascending model order, the writer ends normally; for [n >= 2] it
    writes each block between a [MODEL] line with the block's index
    (from 1) and an [ENDMDL] line, [n] pairs in all; for [n = 1] it
    writes no [MODEL] and no [ENDMDL] line; in both cases exactly one
    [END] line, the last line. *)
Theorem C4_model_records s blocks ms :
  model_blocks s blocks ms -> blocks <> [] ->
  Forall (Forall atom_or_hetatm) blocks ->
  let n := length blocks in
  let pairs := if (1 <? n)%nat then n else 0%nat in
  let out := written (fst (tofile (table_of_rows (concat blocks)))) in
  snd (tofile (table_of_rows (concat blocks))) = Ok tt /\
  out = blocks_lines (Z.of_nat n) 0 blocks ++ [END_LINE] /\
  count_tag MODEL out = pairs /\
  count_tag ENDMDL out = pairs /\
  count_tag END out = 1%nat /\
  last out = Some END_LINE.
Proof.
  intros Hmb Hne Hrec n pairs out. unfold out.
  rewrite (tofile_blocks s blocks ms Hmb Hne). cbn [fst snd written].
  split; [reflexivity|]. split; [reflexivity|].
  assert (Hpairs : (if 1 <? Z.of_nat n then n else 0%nat) = pairs).
  { unfold pairs. destruct (Z.ltb_spec 1 (Z.of_nat n)),
      (Nat.ltb_spec 1 n); try reflexivity; lia. }
  rewrite !count_tag_app.
  rewrite !(count_tag_blocks _ _ _ 0) by
    (try discriminate; try exact Hrec; intros; reflexivity).
  fold n. rewrite Hpairs.
  change (eqb MODEL MODEL) with true. change (eqb MODEL ENDMDL) with false.
  change (eqb MODEL END) with false.
  change (count_tag MODEL [ENDMDL_LINE]) with 0%nat.
  change (count_tag MODEL [END_LINE]) with 0%nat.
  change (count_tag ENDMDL [ENDMDL_LINE]) with 1%nat.
  change (count_tag ENDMDL [END_LINE]) with 0%nat.
  change (count_tag END [ENDMDL_LINE]) with 0%nat.
  change (count_tag END [END_LINE]) with 1%nat.
  repeat split; [lia .. | apply last_snoc].
Qed.

Lemma C4_model_records_witness :
  let blocks := [[example_atom 1 "A"]; [example_model2_atom]] in
  let out := written (fst (tofile (table_of_rows (concat blocks)))) in
  snd (tofile (table_of_rows (concat blocks))) = Ok tt /\
  out = blocks_lines 2 0 blocks ++ [END_LINE] /\
  count_tag MODEL out = 2%nat /\
  count_tag ENDMDL out = 2%nat /\
  count_tag END out = 1%nat /\
  last out = Some END_LINE.
Proof.
  apply (C4_model_records 1
           [[example_atom 1 "A"]; [example_model2_atom]] [1; 2]).
  - split; [lia|]. split; repeat constructor.
  - discriminate.
  - repeat first [ apply List.Forall_nil | apply List.Forall_cons
                 | left; reflexivity | right; reflexivity ].
Defined.

(** C4, counterexample: for a single block no [MODEL] and no [ENDMDL]
    line is written. *)
Lemma C4_single_block_counterexample :
  model_blocks 1 [[example_atom 1 "A"]] [1] /\
  ~ model_pair_per_block [[example_atom 1 "A"]].
Proof.
  split.
  - split; [lia|]. split; repeat constructor.
  - unfold model_pair_per_block. vm_compute. intros (H & _). discriminate.
Qed.

(** ** Structure: reading and writing by format *)

Lemma until_dot_prefix r e :
  until_dot r = Some e -> exists rest, r = e ++ rest.
Proof.
  revert e. induction r as [|c r IH]; intros e; simpl; [discriminate|].
  destruct (bool_decide (c = "."%char)).
  - intros [= <-]. exists r. reflexivity.
  - destruct (until_dot r) as [e'|]; simpl; [|discriminate].
    intros [= <-]. destruct (IH e' eq_refl) as [rest ->].
    exists rest. reflexivity.
Qed.

Lemma extension_suffix fname e :
  extension fname = e -> e <> [] -> exists pre, fname = pre ++ e.
Proof.
  unfold extension. destruct (until_dot (rev fname)) as [e'|] eqn:He;
    [|congruence].
  intros <- _. destruct (until_dot_prefix _ _ He) as [rest Hrest].
  exists (rev rest). rewrite <- (rev_involutive fname), Hrest.
  apply rev_app_distr.
Qed.

Lemma suffix_app_3 pre (c0 c1 c2 c3 : ascii) :
  suffix 3 (pre ++ [c0; c1; c2; c3]) = [c1; c2; c3].
Proof.
  unfold suffix. rewrite length_app. simpl length.
  replace (length pre + 4 - 3)%nat with (S (length pre)) by lia.
  induction pre as [|c pre IH]; [reflexivity | exact IH].
Qed.

Lemma extension_last3 fname (c1 c2 c3 : ascii) :
  extension fname = ["."%char; c1; c2; c3] -> suffix 3 fname = [c1; c2; c3].
Proof.
  intros He. destruct (extension_suffix _ _ He) as [pre ->]; [discriminate|].
  apply suffix_app_3.
Qed.

Section StructureProps.

Variable Prot : Type.
Variable RotMat : Type.
Variable FS : Type.
Variable prot_copy : Prot -> Prot.
Variable matrix_transform : RotMat -> Prot -> Prot.
Variable get_pos_vectors : Prot -> list (R * R * R).
Variable prot_filename : Prot -> str.
Variable resolve : str -> str.
Variable read_PDB_file : Struct.fid -> Struct.fid -> bool -> bool -> result Prot.
Variable read_mmCIF_file : Struct.fid -> bool -> bool -> result Prot.
Variable write_to_PDB : Prot -> str -> FS -> FS * result unit.
Variable write_to_mmcif : Prot -> str -> FS -> FS * result unit.

Local Abbreviation fromfile :=
  (Struct.fromfile Prot read_PDB_file read_mmCIF_file).
Local Abbreviation tofile :=
  (Struct.tofile Prot FS prot_filename resolve write_to_PDB write_to_mmcif).
Local Abbreviation duplicate := (Struct.duplicate Prot prot_copy).
Local Abbreviation rotate := (Struct.rotate Prot RotMat matrix_transform).
Local Abbreviation coor := (Struct.coor Prot get_pos_vectors).
Local Abbreviation rmsd := (Struct.rmsd Prot get_pos_vectors).
Local Abbreviation get_prot := (Struct.get_prot Prot).

Lemma fromfile_last3 h f :
  fromfile h f =
  let last3 := suffix 3 (Struct.fid_name f) in
  if eqb last3 (lit "pdb") || eqb last3 (lit "ent")
  then let* prot := read_PDB_file f f false false in
       Ok (Struct.new_structure Prot h prot)
  else if eqb last3 (lit "cif")
  then let* prot := read_mmCIF_file f true false in
       Ok (Struct.new_structure Prot h prot)
  else Raise IOError.
Proof.
  unfold Struct.fromfile, Struct.fid_name. cbv zeta.
  destruct (eqb _ (lit "pdb") || eqb _ (lit "ent")); [reflexivity|].
  destruct (eqb _ (lit "cif")); reflexivity.
Qed.


(** C5: on any store, also the empty one, [fromfile] dispatches on the
    last three characters of the file name: [pdb] and [ent] go to the
    PDB reader, [cif] goes to the mmCIF reader, anything else raises
    [IOError]; so the extensions [.pdb] and [.ent] reach the PDB reader
    and [.cif] the mmCIF reader.  [tofile] of a structure of the store
    with an output type other than [pdb] and [mmcif] raises [IOError]
    and leaves the file system as it was. *)
Theorem C5_format_dispatch :
  (forall h f,
     let last3 := suffix 3 (Struct.fid_name f) in
     let ext := extension (Struct.fid_name f) in
     let pdb_reader :=
       let* prot := read_PDB_file f f false false in
       Ok (Struct.new_structure Prot h prot) in
     let mmcif_reader :=
       let* prot := read_mmCIF_file f true false in
       Ok (Struct.new_structure Prot h prot) in
     (last3 = lit "pdb" \/ last3 = lit "ent" -> fromfile h f = pdb_reader) /\
     (last3 = lit "cif" -> fromfile h f = mmcif_reader) /\
     (last3 <> lit "pdb" -> last3 <> lit "ent" -> last3 <> lit "cif" ->
      fromfile h f = Raise IOError) /\
     (ext = lit ".pdb" \/ ext = lit ".ent" -> fromfile h f = pdb_reader) /\
     (ext = lit ".cif" -> fromfile h f = mmcif_reader)) /\
  (forall h self pv path outtype w,
     get_prot h self = Ok pv ->
     outtype <> lit "pdb" -> outtype <> lit "mmcif" ->
     tofile h self path outtype w = (w, Raise IOError)).
Proof.
  split.
  - intros h f last3 ext pdb_reader mmcif_reader.
    assert (H1 : last3 = lit "pdb" \/ last3 = lit "ent" ->
                 fromfile h f = pdb_reader).
    { intros H. rewrite fromfile_last3. cbv zeta. fold last3.
      destruct H as [-> | ->]; reflexivity. }
    assert (H2 : last3 = lit "cif" -> fromfile h f = mmcif_reader).
    { intros H. rewrite fromfile_last3. cbv zeta. fold last3.
      rewrite H. reflexivity. }
    repeat split; try assumption.
    + intros Ha Hb Hc. rewrite fromfile_last3. cbv zeta. fold last3.
      unfold eqb. rewrite !bool_decide_eq_false_2 by assumption. reflexivity.
    + intros [He | He]; apply H1; [left | right];
        apply (extension_last3 _ _ _ _ He).
    + intros He. apply H2. apply (extension_last3 _ _ _ _ He).
  - intros h self pv path outtype w Hself Hpdb Hcif.
    unfold Struct.tofile, Struct.filename. rewrite Hself. simpl.
    unfold eqb. rewrite !bool_decide_eq_false_2 by assumption.
    destruct path; reflexivity.
Qed.

(** ** Structure: duplicate and rotate *)

(** C8: rotating the duplicate of a structure leaves the coordinates of
    the structure as they were: the duplicate is another instance, whose
    library object is another object than the one of the source. *)
Theorem C8_duplicate_independent h self rotmat pv :
  get_prot h self = Ok pv ->
  exists h1 dup h2 p,
    duplicate h self = Ok (h1, dup) /\
    rotate h1 dup rotmat = Ok h2 /\
    coor h2 self = coor h self /\
    get_prot h2 self = Ok pv /\
    dup <> self /\
    get_prot h2 dup = Ok (p, matrix_transform rotmat (prot_copy (snd pv))) /\
    p <> fst pv.
Proof.
  intros Hself. destruct pv as [p0 v0].
  unfold Struct.get_prot in Hself.
  destruct (Struct.structures Prot h !! self) as [q|] eqn:Hs; [|discriminate].
  destruct (Struct.prots Prot h !! q) as [v|] eqn:Hp; [|discriminate].
  injection Hself as -> ->.
  set (p := fresh (dom (Struct.prots Prot h))).
  set (d := fresh (dom (Struct.structures Prot h))).
  assert (Hp_fresh : p <> p0).
  { intros Heq. apply (is_fresh (dom (Struct.prots Prot h))).
    fold p. rewrite Heq. apply elem_of_dom. eexists. exact Hp. }
  assert (Hd_fresh : d <> self).
  { intros Heq. apply (is_fresh (dom (Struct.structures Prot h))).
    fold d. rewrite Heq. apply elem_of_dom. eexists. exact Hs. }
  assert (Hdup : duplicate h self =
    Ok ({| Struct.prots := <[p := prot_copy v0]> (Struct.prots Prot h);
           Struct.structures :=
             <[d := p]> (<[d := p0]> (Struct.structures Prot h)) |}, d)).
  { unfold Struct.duplicate, Struct.get_prot. rewrite Hs, Hp. reflexivity. }
  eexists _, d, _, p. split; [exact Hdup|].
  assert (Hrot : forall h1, Struct.get_prot Prot h1 d = Ok (p, prot_copy v0) ->
            rotate h1 d rotmat =
            Ok {| Struct.prots :=
                    <[p := matrix_transform rotmat (prot_copy v0)]>
                      (Struct.prots Prot h1);
                  Struct.structures := Struct.structures Prot h1 |}).
  { intros h1 H1. unfold Struct.rotate. rewrite H1. reflexivity. }
  split.
  { apply Hrot. unfold Struct.get_prot. cbn [Struct.structures Struct.prots].
    rewrite !lookup_insert_eq. reflexivity. }
  assert (Hself2 : forall m, Struct.get_prot Prot
            {| Struct.prots := <[p := m]> (<[p := prot_copy v0]> (Struct.prots Prot h));
               Struct.structures :=
                 <[d := p]> (<[d := p0]> (Struct.structures Prot h)) |} self
            = Ok (p0, v0)).
  { intros m. unfold Struct.get_prot. cbn [Struct.structures Struct.prots].
    rewrite !lookup_insert_ne by congruence. rewrite Hs.
    rewrite !lookup_insert_ne by congruence. rewrite Hp. reflexivity. }
  repeat split.
  - unfold Struct.coor. cbn [Struct.structures Struct.prots].
    rewrite Hself2. unfold Struct.get_prot. rewrite Hs, Hp. reflexivity.
  - apply Hself2.
  - exact Hd_fresh.
  - unfold Struct.get_prot. cbn [Struct.structures Struct.prots].
    rewrite !lookup_insert_eq. reflexivity.
  - exact Hp_fresh.
Qed.

(** ** Structure: rmsd *)

Lemma Rsum_app l1 l2 :
  Struct.Rsum (l1 ++ l2) = (Struct.Rsum l1 + Struct.Rsum l2)%R.
Proof.
  induction l1 as [|x l1 IH]; simpl; [lra|]. rewrite IH. lra.
Qed.

Lemma sq_diff_transpose3 a b :
  concat (Struct.sq_diff (Struct.transpose3 a) (Struct.transpose3 b)) =
  zip_with (fun x y => ((x - y) * (x - y))%R)
    (map (fun v => fst (fst v)) a) (map (fun v => fst (fst v)) b) ++
  zip_with (fun x y => ((x - y) * (x - y))%R)
    (map (fun v => snd (fst v)) a) (map (fun v => snd (fst v)) b) ++
  zip_with (fun x y => ((x - y) * (x - y))%R)
    (map (fun v => snd v) a) (map (fun v => snd v) b).
Proof. simpl. rewrite app_nil_r. reflexivity. Qed.

Lemma sum_sq_rows a : forall b,
  length a = length b ->
  (Struct.Rsum (zip_with (fun x y => (x - y) * (x - y))
     (map (fun v => fst (fst v)) a) (map (fun v => fst (fst v)) b)) +
   Struct.Rsum (zip_with (fun x y => (x - y) * (x - y))
     (map (fun v => snd (fst v)) a) (map (fun v => snd (fst v)) b)) +
   Struct.Rsum (zip_with (fun x y => (x - y) * (x - y))
     (map (fun v => snd v) a) (map (fun v => snd v) b)))%R
  = Struct.sum_sq a b.
Proof.
  induction a as [|u a IH]; intros [|v b] Hlen; simpl in Hlen;
    try discriminate.
  - unfold Struct.sum_sq. simpl. lra.
  - injection Hlen as Hlen. specialize (IH b Hlen).
    unfold Struct.sum_sq in *. simpl. rewrite <- IH. lra.
Qed.

(** The value of [rmsd] on two lists of position vectors of one length
    [n > 0]: the square root of the sum of squares divided by [n]. *)
Lemma rmsd_coor_value a b :
  length a = length b -> (0 < length a)%nat ->
  Struct.rmsd_coor (Struct.transpose3 a) (Struct.transpose3 b) =
  Some (sqrt (Struct.sum_sq a b / INR (length a))).
Proof.
  intros Hlen Hpos. unfold Struct.rmsd_coor.
  assert (Hshape : Struct.same_shape (Struct.transpose3 a)
                     (Struct.transpose3 b) = true).
  { unfold Struct.same_shape. apply bool_decide_eq_true. simpl.
    rewrite !length_map, Hlen. reflexivity. }
  assert (Hne : bool_decide (concat (Struct.transpose3 a) = []) = false).
  { apply bool_decide_eq_false. destruct a; [simpl in Hpos; lia|].
    discriminate. }
  rewrite Hshape, Hne. simpl andb. cbv iota. f_equal. f_equal.
  unfold Struct.mean. rewrite sq_diff_transpose3.
  rewrite !Rsum_app, !length_app, !length_zip_with, !length_map.
  rewrite <- Hlen, !Nat.min_id, !plus_INR.
  rewrite <- (sum_sq_rows a b Hlen).
  assert (HINR : (0 < INR (length a))%R) by (apply lt_0_INR; exact Hpos).
  field. lra.
Qed.

(** C1: for two structures of one atom count [n > 0], [rmsd]
    is the square root of the sum over the atoms of the squared
    coordinate differences divided by [n]: the mean over the [3 n] scalar
    differences is multiplied by 3 before the square root. *)
Theorem C1_rmsd_formula h self other pv1 pv2 :
  get_prot h self = Ok pv1 ->
  get_prot h other = Ok pv2 ->
  let a := get_pos_vectors (snd pv1) in
  let b := get_pos_vectors (snd pv2) in
  length a = length b -> (0 < length a)%nat ->
  rmsd h self other = Ok (Some (sqrt (Struct.sum_sq a b / INR (length a)))) /\
  rmsd h self other =
    Ok (Some (sqrt (Struct.sum_sq a b / (3 * INR (length a)) * 3))).
Proof.
  intros H1 H2 a b Hlen Hpos.
  assert (Hr : rmsd h self other =
               Ok (Some (sqrt (Struct.sum_sq a b / INR (length a))))).
  { unfold Struct.rmsd, Struct.coor. rewrite H1, H2. simpl.
    fold a b. rewrite (rmsd_coor_value a b Hlen Hpos). reflexivity. }
  split; [exact Hr|]. rewrite Hr. do 3 f_equal.
  assert (HINR : (0 < INR (length a))%R) by (apply lt_0_INR; exact Hpos).
  field. lra.
Qed.

End StructureProps.

(** *** The sample object store *)

Lemma heap0_first :
  Struct.get_prot Sample.Prot Sample.heap0 1%positive
  = Ok (1%positive, [(3, 0, 0)%R]).
Proof. reflexivity. Qed.

Lemma heap0_second :
  Struct.get_prot Sample.Prot Sample.heap0 2%positive
  = Ok (2%positive, [(0, 0, 0)%R]).
Proof. reflexivity. Qed.

Lemma C5_format_dispatch_witness :
  let read_pdb : Struct.fid -> Struct.fid -> bool -> bool -> result Sample.Prot :=
    fun _ _ _ _ => Ok [(3, 0, 0)%R] in
  let read_mmcif : Struct.fid -> bool -> bool -> result Sample.Prot :=
    fun _ _ _ => Ok [] in
  let fromfile (name : string) :=
    Struct.fromfile Sample.Prot read_pdb read_mmcif Sample.empty_heap
      (Struct.FidPath (lit name)) in
  fromfile "model.pdb"%string
  = Ok (Struct.new_structure Sample.Prot Sample.empty_heap [(3, 0, 0)%R]) /\
  fromfile "model.ent"%string
  = Ok (Struct.new_structure Sample.Prot Sample.empty_heap [(3, 0, 0)%R]) /\
  fromfile "model.cif"%string
  = Ok (Struct.new_structure Sample.Prot Sample.empty_heap []) /\
  fromfile "model.xyz"%string = Raise IOError /\
  Struct.tofile Sample.Prot (list str) (fun _ => lit "in.pdb") (fun s => s)
    Sample.write_file Sample.write_file Sample.heap0 1%positive
    (Some (lit "out.xyz")) (lit "xyz") [] = ([], Raise IOError).
Proof.
  intros read_pdb read_mmcif fromfile.
  pose proof (C5_format_dispatch Sample.Prot (list str)
                (fun _ => lit "in.pdb") (fun s => s) read_pdb read_mmcif
                Sample.write_file Sample.write_file) as [Hread Hwrite].
  split; [|split; [|split; [|split]]].
  - refine (proj1 (proj2 (proj2 (proj2
      (Hread Sample.empty_heap (Struct.FidPath (lit "model.pdb")))))) _).
    left. reflexivity.
  - refine (proj1 (proj2 (proj2 (proj2
      (Hread Sample.empty_heap (Struct.FidPath (lit "model.ent")))))) _).
    right. reflexivity.
  - refine (proj2 (proj2 (proj2 (proj2
      (Hread Sample.empty_heap (Struct.FidPath (lit "model.cif")))))) _).
    reflexivity.
  - refine (proj1 (proj2 (proj2
      (Hread Sample.empty_heap (Struct.FidPath (lit "model.xyz"))))) _ _ _);
      vm_compute; discriminate.
  - refine (Hwrite Sample.heap0 1%positive (1%positive, [(3, 0, 0)%R])
              (Some (lit "out.xyz")) (lit "xyz") [] heap0_first _ _);
      discriminate.
Defined.

(** C5, counterexample: a name with the extension [.mmcif] is handed to
    the mmCIF reader. *)
Lemma C5_mmcif_extension_counterexample :
  extension (lit "model.mmcif") = lit ".mmcif" /\
  Struct.fromfile Sample.Prot (fun f _ _ _ => Sample.read_file f)
    (fun f _ _ => Sample.read_file f) Sample.heap0
    (Struct.FidPath (lit "model.mmcif"))
  = Ok (Struct.new_structure Sample.Prot Sample.heap0 []) /\
  ~ other_extensions_fail.
Proof.
  assert (H : Struct.fromfile Sample.Prot (fun f _ _ _ => Sample.read_file f)
    (fun f _ _ => Sample.read_file f) Sample.heap0
    (Struct.FidPath (lit "model.mmcif"))
  = Ok (Struct.new_structure Sample.Prot Sample.heap0 [])).
  { rewrite fromfile_last3. reflexivity. }
  split; [reflexivity|]. split; [exact H|].
  intros Hall.
  specialize (Hall Sample.Prot (fun f _ _ _ => Sample.read_file f)
    (fun f _ _ => Sample.read_file f) Sample.heap0 (lit "model.mmcif")).
  rewrite H in Hall.
  discriminate Hall; vm_compute; discriminate.
Qed.

Lemma C8_duplicate_independent_witness :
  exists h1 dup h2 p,
    Struct.duplicate Sample.Prot (fun v => v) Sample.heap0 1%positive
      = Ok (h1, dup) /\
    Struct.rotate Sample.Prot Sample.RotMat Sample.matrix_transform h1 dup
      Sample.quarter_turn = Ok h2 /\
    Struct.coor Sample.Prot Sample.get_pos_vectors h2 1%positive
      = Struct.coor Sample.Prot Sample.get_pos_vectors Sample.heap0 1%positive /\
    Struct.get_prot Sample.Prot h2 1%positive
      = Ok (1%positive, [(3, 0, 0)%R]) /\
    dup <> 1%positive /\
    Struct.get_prot Sample.Prot h2 dup
      = Ok (p, Sample.matrix_transform Sample.quarter_turn [(3, 0, 0)%R]) /\
    p <> 1%positive.
Proof.
  exact (C8_duplicate_independent Sample.Prot Sample.RotMat (fun v => v)
           Sample.matrix_transform Sample.get_pos_vectors
           Sample.heap0 1%positive Sample.quarter_turn
           (1%positive, [(3, 0, 0)%R]) heap0_first).
Defined.

Lemma C1_rmsd_formula_witness :
  let a := [(3, 0, 0)%R] in
  let b := [(0, 0, 0)%R] in
  Struct.rmsd Sample.Prot Sample.get_pos_vectors Sample.heap0 1%positive
    2%positive
  = Ok (Some (sqrt (Struct.sum_sq a b / INR 1))) /\
  Struct.rmsd Sample.Prot Sample.get_pos_vectors Sample.heap0 1%positive
    2%positive
  = Ok (Some (sqrt (Struct.sum_sq a b / (3 * INR 1) * 3))).
Proof.
  refine (C1_rmsd_formula Sample.Prot Sample.get_pos_vectors Sample.heap0
            1%positive 2%positive (1%positive, [(3, 0, 0)%R])
            (2%positive, [(0, 0, 0)%R]) heap0_first heap0_second _ _).
  - reflexivity.
  - simpl. lia.
Defined.

(** C1, counterexample: for one atom at (3, 0, 0) against one atom at
    the origin [rmsd] is 3, and the documented formula gives the square
    root of 3. *)
Lemma C1_rmsd_counterexample :
  let a := [(3, 0, 0)%R] in
  let b := [(0, 0, 0)%R] in
  Struct.rmsd Sample.Prot Sample.get_pos_vectors Sample.heap0 1%positive
    2%positive = Ok (Some 3%R) /\
  rmsd_documented a b = sqrt 3 /\
  Struct.rmsd Sample.Prot Sample.get_pos_vectors Sample.heap0 1%positive
    2%positive <> Ok (Some (rmsd_documented a b)).
Proof.
  intros a b.
  assert (Hr : Struct.rmsd Sample.Prot Sample.get_pos_vectors Sample.heap0
                 1%positive 2%positive = Ok (Some 3%R)).
  { unfold Struct.rmsd, Struct.coor. rewrite heap0_first, heap0_second.
    simpl. change (Struct.rmsd_coor _ _) with
      (Struct.rmsd_coor (Struct.transpose3 a) (Struct.transpose3 b)).
    rewrite rmsd_coor_value by (simpl; lia). do 2 f_equal.
    replace (Struct.sum_sq a b / INR (length a))%R with (3 * 3)%R.
    - apply sqrt_square. lra.
    - unfold Struct.sum_sq, a, b. simpl. field. }
  assert (Hc : rmsd_documented a b = sqrt 3).
  { unfold rmsd_documented. f_equal.
    unfold Struct.sum_sq, a, b. simpl. field. }
  split; [exact Hr|]. split; [exact Hc|].
  rewrite Hr, Hc. intros [= H].
  assert (H9 : (sqrt 3 * sqrt 3 = 3)%R) by (apply sqrt_sqrt; lra).
  rewrite <- H in H9. lra.
Qed.

(** ** Round trip: numbers *)

Lemma digit_char_spec d :
  0 <= d < 10 ->
  isdigit (digit_char d) = true /\ digit_val (digit_char d) = d /\
  isspace (digit_char d) = false.
Proof.
  intros Hd.
  assert (H : d = 0 \/ d = 1 \/ d = 2 \/ d = 3 \/ d = 4 \/ d = 5 \/ d = 6 \/
              d = 7 \/ d = 8 \/ d = 9) by lia.
  repeat (destruct H as [-> | H]; [repeat split; reflexivity|]).
  subst d. repeat split; reflexivity.
Qed.

Lemma digits_from_app acc ds c :
  digits_from acc (ds ++ [c]) = 10 * digits_from acc ds + digit_val c.
Proof. unfold digits_from. rewrite fold_left_app. reflexivity. Qed.

Lemma digits_fuel_spec f : forall n acc,
  0 <= n < 2 ^ Z.of_nat f -> (1 <= f)%nat ->
  exists ds,
    digits_fuel f n acc = ds ++ acc /\ all_digits ds /\ ds <> [] /\
    digits_from 0 ds = n /\
    forall d, (1 <= d)%nat -> n < 10 ^ Z.of_nat d -> (length ds <= d)%nat.
Proof.
  induction f as [|f IH]; intros n acc Hn Hf; [lia|].
  cbn [digits_fuel]. destruct (Z.ltb_spec n 10) as [Hlt|Hge].
  - destruct (digit_char_spec (n mod 10)) as (Hd & Hv & _);
      [apply Z.mod_pos_bound; lia|].
    exists [digit_char (n mod 10)]. repeat split.
    + constructor; [exact Hd | constructor].
    + discriminate.
    + unfold digits_from. simpl. rewrite Hv. apply Z.mod_small. lia.
    + intros d Hd1 _. simpl. lia.
  - assert (Hpow : 2 ^ Z.of_nat (S f) = 2 * 2 ^ Z.of_nat f).
    { rewrite Nat2Z.inj_succ, Z.pow_succ_r by lia. reflexivity. }
    assert (Hf1 : (1 <= f)%nat).
    { destruct f; [simpl in Hn; lia | lia]. }
    assert (Hdiv : 0 <= n / 10 < 2 ^ Z.of_nat f).
    { split; [apply Z.div_pos; lia|].
      apply Z.div_lt_upper_bound; lia. }
    destruct (IH (n / 10) (digit_char (n mod 10) :: acc) Hdiv Hf1)
      as (ds & Heq & Hall & Hne & Hval & Hlen).
    destruct (digit_char_spec (n mod 10)) as (Hd & Hv & _);
      [apply Z.mod_pos_bound; lia|].
    exists (ds ++ [digit_char (n mod 10)]). repeat split.
    + rewrite Heq, <- app_assoc. reflexivity.
    + apply Forall_app. split; [exact Hall|].
      constructor; [exact Hd | constructor].
    + destruct ds; discriminate.
    + rewrite digits_from_app, Hval, Hv.
      symmetry. apply Z.div_mod. lia.
    + intros d Hd1 Hnd. rewrite length_app. simpl.
      destruct d as [|[|d]]; [lia | simpl in Hnd; lia |].
      assert (Hd' : (length ds <= S d)%nat).
      { apply Hlen; [lia|]. apply Z.div_lt_upper_bound; [lia|].
        rewrite <- Z.pow_succ_r by lia.
        rewrite <- Nat2Z.inj_succ. exact Hnd. }
      lia.
Qed.

Lemma dec_digits_spec n :
  0 <= n ->
  all_digits (dec_digits n) /\ dec_digits n <> [] /\
  digits_from 0 (dec_digits n) = n /\
  forall d, (1 <= d)%nat -> n < 10 ^ Z.of_nat d -> (length (dec_digits n) <= d)%nat.
Proof.
  intros Hn. unfold dec_digits.
  destruct (digits_fuel_spec (S (Z.to_nat (Z.log2 n))) n []) as
    (ds & Heq & H); [|lia|].
  - split; [exact Hn|]. rewrite Nat2Z.inj_succ, Z2Nat.id
      by apply Z.log2_nonneg.
    destruct (Z.eq_dec n 0) as [->|Hnz]; [reflexivity|].
    apply Z.log2_spec. lia.
  - rewrite app_nil_r in Heq. rewrite Heq. exact H.
Qed.

Lemma digits_from_acc ds : forall acc,
  digits_from acc ds = acc * 10 ^ Z.of_nat (length ds) + digits_from 0 ds.
Proof.
  induction ds as [|c ds IH] using rev_ind; intros acc.
  - simpl. unfold digits_from. simpl. lia.
  - rewrite !digits_from_app, IH, length_app. simpl length.
    rewrite Nat2Z.inj_add, Z.pow_add_r by lia. simpl. lia.
Qed.

Lemma digitpart_digits ds : forall acc b,
  all_digits ds -> ds <> [] \/ b = true ->
  digitpart acc b ds = Some (digits_from acc ds).
Proof.
  induction ds as [|c ds IH]; intros acc b Hall Hb.
  - destruct Hb as [Hb | ->]; [congruence | reflexivity].
  - apply Forall_cons in Hall as [Hc Hall]. simpl. rewrite Hc.
    rewrite IH by auto. reflexivity.
Qed.

Lemma zero_pad_digits w ds :
  all_digits ds -> (length ds <= w)%nat ->
  all_digits (zero_pad w ds) /\ length (zero_pad w ds) = w /\
  digits_from 0 (zero_pad w ds) = digits_from 0 ds.
Proof.
  intros Hall Hlen. unfold zero_pad.
  assert (H : forall k, all_digits (repeat "0"%char k ++ ds) /\
                        digits_from 0 (repeat "0"%char k ++ ds)
                        = digits_from 0 ds).
  { induction k as [|k [IH1 IH2]]; [split; [exact Hall | reflexivity]|].
    split; [constructor; [reflexivity | exact IH1] | exact IH2]. }
  destruct (H (w - length ds)%nat) as [H1 H2].
  repeat split; [exact H1 | | exact H2].
  rewrite length_app, repeat_length. lia.
Qed.

(** ** Round trip: strings *)

Lemma isdigit_nonspace c : isdigit c = true -> isspace c = false.
Proof.
  destruct c as [[] [] [] [] [] [] [] []]; vm_compute; congruence.
Qed.

Lemma all_digits_nonspace ds : all_digits ds -> nonspace ds.
Proof.
  intros H. eapply Forall_impl; [exact H | exact isdigit_nonspace].
Qed.

Lemma lstrip_spaces n s : lstrip (spaces n ++ s) = lstrip s.
Proof. induction n; [reflexivity | exact IHn]. Qed.

Lemma lstrip_nonspace s : nonspace s -> lstrip s = s.
Proof. destruct 1 as [|c s Hc _]; simpl; [reflexivity|]. rewrite Hc. reflexivity. Qed.

Lemma lstrip_nonspace_app s t : nonspace s -> s <> [] -> lstrip (s ++ t) = s ++ t.
Proof.
  destruct 1 as [|c s Hc _]; [congruence|]. intros _. simpl.
  rewrite Hc. reflexivity.
Qed.

Lemma rev_spaces n : rev (spaces n) = spaces n.
Proof.
  unfold spaces. induction n as [|n IH]; [reflexivity|]. simpl.
  rewrite IH. clear IH. induction n as [|n IH]; [reflexivity|].
  simpl. rewrite <- IH. reflexivity.
Qed.

Lemma rstrip_nonspace_spaces s n : nonspace s -> rstrip (s ++ spaces n) = s.
Proof.
  intros Hs. unfold rstrip. rewrite rev_app_distr, rev_spaces, lstrip_spaces.
  rewrite lstrip_nonspace by (apply Forall_rev; exact Hs).
  apply rev_involutive.
Qed.

Lemma strip_padded a s b : nonspace s -> strip (spaces a ++ s ++ spaces b) = s.
Proof.
  intros Hs. unfold strip. rewrite lstrip_spaces.
  destruct s as [|c s].
  - simpl. replace (lstrip (spaces b)) with (@nil ascii).
    + reflexivity.
    + rewrite <- (app_nil_r (spaces b)), lstrip_spaces. reflexivity.
  - rewrite lstrip_nonspace_app by (auto; discriminate).
    apply rstrip_nonspace_spaces. exact Hs.
Qed.

Lemma strip_rjust w s : nonspace s -> strip (rjust w s) = s.
Proof.
  intros Hs. unfold rjust.
  rewrite <- (app_nil_r s) at 2. apply (strip_padded _ s 0 Hs).
Qed.

(** The whitespace skipped around a number is whitespace of [strip]. *)
Lemma num_space_isspace c : num_space c = true -> isspace c = true.
Proof.
  destruct c as [[] [] [] [] [] [] [] []]; vm_compute; congruence.
Qed.

Lemma nonspace_num_space s :
  nonspace s -> Forall (fun c => num_space c = false) s.
Proof.
  intros H. eapply Forall_impl; [exact H|]. intros c Hc. simpl in Hc.
  destruct (num_space c) eqn:Hn; [|reflexivity].
  apply num_space_isspace in Hn. congruence.
Qed.

Lemma num_lstrip_spaces n s : num_lstrip (spaces n ++ s) = num_lstrip s.
Proof. induction n; [reflexivity | exact IHn]. Qed.

Lemma num_lstrip_nonspace s :
  Forall (fun c => num_space c = false) s -> num_lstrip s = s.
Proof. destruct 1 as [|c s Hc _]; simpl; [reflexivity|]. rewrite Hc. reflexivity. Qed.

Lemma num_strip_rjust w s : nonspace s -> num_strip (rjust w s) = s.
Proof.
  intros Hs. apply nonspace_num_space in Hs.
  unfold num_strip, rjust. rewrite num_lstrip_spaces.
  rewrite (num_lstrip_nonspace s Hs).
  rewrite num_lstrip_nonspace by (apply Forall_rev; exact Hs).
  apply rev_involutive.
Qed.

Lemma length_rjust w s : (length s <= w)%nat -> length (rjust w s) = w.
Proof.
  intros H. unfold rjust, spaces. rewrite length_app, repeat_length. lia.
Qed.

Lemma length_ljust w s : (length s <= w)%nat -> length (ljust w s) = w.
Proof.
  intros H. unfold ljust, spaces. rewrite length_app, repeat_length. lia.
Qed.

(** ** Round trip: binary64 *)

Lemma div_half_even_error a b :
  0 < b -> 2 * Z.abs (b * div_half_even a b - a) <= b.
Proof.
  intros Hb. unfold div_half_even.
  pose proof (Z.div_mod a b ltac:(lia)) as Hdm.
  pose proof (Z.mod_pos_bound a b Hb) as Hr.
  set (q := a / b) in *. set (r := a mod b) in *.
  destruct (Z.compare_spec (2 * r) b) as [H|H|H].
  - destruct (Z.even q); nia.
  - nia.
  - nia.
Qed.

Lemma div_half_even_unique a b n :
  0 < b -> 2 * Z.abs (b * n - a) < b -> div_half_even a b = n.
Proof.
  intros Hb Hn. unfold div_half_even.
  pose proof (Z.div_mod a b ltac:(lia)) as Hdm.
  pose proof (Z.mod_pos_bound a b Hb) as Hr.
  set (q := a / b) in *. set (r := a mod b) in *.
  assert (Hcase : n < q \/ n = q \/ n = q + 1 \/ q + 1 < n) by lia.
  destruct (Z.compare_spec (2 * r) b) as [H|H|H].
  - destruct Hcase as [Hc|[Hc|[Hc|Hc]]]; exfalso; nia.
  - destruct Hcase as [Hc|[Hc|[Hc|Hc]]]; [exfalso; nia | lia | exfalso; nia
                                          | exfalso; nia].
  - destruct Hcase as [Hc|[Hc|[Hc|Hc]]]; [exfalso; nia | exfalso; nia | lia
                                          | exfalso; nia].
Qed.

Lemma log2_ratio_bounds k :
  0 < k < 10 ^ 7 -> -10 <= log2_ratio k 1000 <= 14.
Proof.
  intros Hk. unfold log2_ratio.
  change (Z.log2 1000) with 9.
  assert (H0 : 0 <= Z.log2 k) by apply Z.log2_nonneg.
  assert (H1 : Z.log2 k < 24).
  { apply Z.log2_lt_pow2; [lia|]. change (2 ^ 24) with 16777216.
    change (10 ^ 7) with 10000000 in Hk. lia. }
  destruct (_ <? _); lia.
Qed.

(** A decimal [k / 1000] below 10^4 read as a binary64 value: the value
    is finite with a negative exponent, and the decimal with three
    fractional digits nearest to it is [k / 1000] again. *)
Lemma b64_of_ratio_3_decimals neg k :
  0 < k < 10 ^ 7 ->
  exists m e,
    b64_of_ratio neg k 1000 = S754_finite neg m e /\ e < 0 /\
    div_half_even (Zpos m * 1000) (2 ^ (- e)) = k.
Proof.
  intros Hk. pose proof (log2_ratio_bounds k Hk) as Hlr.
  unfold b64_of_ratio.
  destruct (Z.eqb_spec k 0) as [|_]; [lia|].
  set (lr := log2_ratio k 1000) in *.
  assert (He : fexp prec emax (lr + 1) = lr - 52).
  { unfold fexp, emin, prec, emax. lia. }
  rewrite He.
  replace (Z.max 0 (- (lr - 52))) with (52 - lr) by lia.
  replace (Z.max 0 (lr - 52)) with 0 by lia.
  change (1000 * 2 ^ 0) with 1000.
  set (E := 52 - lr) in *.
  assert (HE : 38 <= E <= 62) by (unfold E; lia).
  assert (HP : 2 ^ 38 <= 2 ^ E) by (apply Z.pow_le_mono_r; lia).
  change (2 ^ 38) with 274877906944 in HP.
  assert (HP2 : 2 ^ E = 2 * 2 ^ (E - 1)).
  { rewrite <- Z.pow_succ_r by lia. f_equal. lia. }
  change (10 ^ 7) with 10000000 in Hk.
  pose proof (div_half_even_error (k * 2 ^ E) 1000 ltac:(lia)) as Herr.
  set (m0 := div_half_even (k * 2 ^ E) 1000) in *.
  assert (Hm0 : 0 < m0) by nia.
  destruct (Z.eqb_spec m0 (2 ^ prec)) as [Hm|Hm].
  - change (2 ^ (prec - 1)) with (Zpos 4503599627370496).
    change (2 ^ prec) with 9007199254740992 in Hm.
    cbv iota beta.
    destruct (Z.leb_spec (lr - 52 + 1) (emax - prec)) as [_|Hbad];
      [|unfold emax, prec in Hbad; lia].
    exists 4503599627370496%positive, (lr - 52 + 1).
    split; [reflexivity|]. split; [lia|].
    replace (- (lr - 52 + 1)) with (E - 1) by (unfold E; lia).
    apply div_half_even_unique; [lia|]. rewrite Hm in Herr. lia.
  - cbv iota beta. destruct m0 as [|mp|mp]; [lia| |lia].
    destruct (Z.leb_spec (lr - 52) (emax - prec)) as [_|Hbad];
      [|unfold emax, prec in Hbad; lia].
    exists mp, (lr - 52). split; [reflexivity|]. split; [lia|].
    replace (- (lr - 52)) with E by (unfold E; lia).
    apply div_half_even_unique; [lia|]. lia.
Qed.

Lemma format_f_3_decimals neg k :
  0 <= k < 10 ^ 7 ->
  format_f 8 3 (b64_of_ratio neg k 1000) = real_field 8 3 neg k.
Proof.
  intros Hk. unfold real_field.
  destruct (Z.eq_dec k 0) as [->|Hnz]; [reflexivity|].
  destruct (b64_of_ratio_3_decimals neg k ltac:(lia)) as (m & e & -> & He & Hd).
  unfold format_f. change (10 ^ Z.of_nat 3) with 1000.
  destruct (Z.leb_spec 0 e); [lia|]. rewrite Hd. reflexivity.
Qed.

(** ** Round trip: reading the fields *)

Lemma isdigit_plain c :
  isdigit c = true ->
  bool_decide (c = "-"%char) = false /\ bool_decide (c = "+"%char) = false /\
  bool_decide (c = "_"%char) = false /\ bool_decide (c = "."%char) = false /\
  lower c = c /\ c <> "i"%char /\ c <> "n"%char.
Proof.
  destruct c as [[] [] [] [] [] [] [] []]; vm_compute; intros H;
    try discriminate H; repeat split; discriminate.
Qed.

Lemma int_str_nonspace n : nonspace (int_str n).
Proof.
  unfold int_str. destruct (n <? 0) eqn:Hn.
  - constructor; [reflexivity|].
    apply all_digits_nonspace, dec_digits_spec. lia.
  - apply all_digits_nonspace, dec_digits_spec. lia.
Qed.

Lemma split_sign_digits ds :
  all_digits ds -> split_sign ds = (false, ds).
Proof.
  destruct 1 as [|c ds Hc _]; [reflexivity|]. simpl.
  destruct (isdigit_plain c Hc) as (-> & -> & _). reflexivity.
Qed.

Lemma py_int_int_field w n : py_int (int_field w n) = Ok n.
Proof.
  unfold py_int, int_field. rewrite num_strip_rjust by apply int_str_nonspace.
  unfold int_str. destruct (Z.ltb_spec n 0) as [Hn|Hn].
  - destruct (dec_digits_spec (- n) ltac:(lia)) as (Hall & Hne & Hval & _).
    cbn [split_sign]. rewrite bool_decide_eq_true_2 by reflexivity.
    rewrite digitpart_digits by auto. rewrite Hval. f_equal. lia.
  - destruct (dec_digits_spec n Hn) as (Hall & Hne & Hval & _).
    rewrite split_sign_digits by assumption.
    rewrite digitpart_digits by auto. rewrite Hval. reflexivity.
Qed.

Lemma length_int_str n d :
  (1 <= d)%nat -> - 10 ^ Z.of_nat d < n -> n < 10 ^ Z.of_nat (S d) ->
  (length (int_str n) <= S d)%nat.
Proof.
  intros Hd Hlo Hhi. unfold int_str. destruct (Z.ltb_spec n 0) as [Hn|Hn].
  - destruct (dec_digits_spec (- n) ltac:(lia)) as (_ & _ & _ & Hlen).
    simpl. apply le_n_S. apply Hlen; [exact Hd | lia].
  - destruct (dec_digits_spec n Hn) as (_ & _ & _ & Hlen).
    apply Hlen; [lia | exact Hhi].
Qed.

Lemma length_int_field_5 id :
  -9999 <= id <= 99999 -> length (int_field 5 id) = 5%nat.
Proof.
  intros H. apply length_rjust. apply (length_int_str id 4); simpl; lia.
Qed.

Lemma length_int_field_4 n :
  -999 <= n <= 9999 -> length (int_field 4 n) = 4%nat.
Proof.
  intros H. apply length_rjust. apply (length_int_str n 3); simpl; lia.
Qed.

Lemma span_digitpart_digits ds rest :
  all_digits ds ->
  match rest with
  | c :: _ => isdigit c = false /\ c <> "_"%char
  | [] => True
  end ->
  span_digitpart (ds ++ rest) = (ds, rest).
Proof.
  intros Hall Hrest. induction Hall as [|c ds Hc _ IH].
  - simpl. destruct rest as [|c rest]; [reflexivity|].
    destruct Hrest as [Hd Hu]. simpl. rewrite Hd.
    rewrite bool_decide_eq_false_2 by exact Hu. reflexivity.
  - simpl. rewrite Hc, IH. reflexivity.
Qed.

Lemma count_digits_all ds :
  all_digits ds -> count_digits ds = Z.of_nat (length ds).
Proof.
  intros Hall. unfold count_digits, str. f_equal.
  induction Hall as [|c ds Hc _ IH]; [reflexivity|].
  rewrite filter_cons_True by exact Hc. simpl. rewrite IH. reflexivity.
Qed.

Lemma opt_digitpart_digits acc ds :
  all_digits ds -> ds <> [] ->
  opt_digitpart acc ds = Some (digits_from acc ds).
Proof.
  intros Hall Hne. destruct Hall as [|c ds Hc Hall]; [congruence|].
  unfold opt_digitpart. rewrite Hc.
  apply digitpart_digits; [constructor; assumption | left; discriminate].
Qed.

(** The digits of a decimal with three fractional digits. *)
Lemma fixed_digits_3 k :
  0 <= k ->
  exists ip fp,
    fixed_digits 3 k = ip ++ "."%char :: fp /\
    all_digits ip /\ ip <> [] /\ all_digits fp /\ length fp = 3%nat /\
    digits_from (digits_from 0 ip) fp = k /\
    forall d, (1 <= d)%nat -> k < 10 ^ Z.of_nat (d + 3) ->
              (length ip <= d)%nat.
Proof.
  intros Hk. unfold fixed_digits. change (10 ^ Z.of_nat 3) with 1000.
  assert (Hq : 0 <= k / 1000) by (apply Z.div_pos; lia).
  pose proof (Z.mod_pos_bound k 1000 ltac:(lia)) as Hr.
  destruct (dec_digits_spec (k / 1000) Hq) as (Hall & Hne & Hval & Hlen).
  destruct (dec_digits_spec (k mod 1000) ltac:(lia))
    as (Hall' & Hne' & Hval' & Hlen').
  destruct (zero_pad_digits 3 (dec_digits (k mod 1000)) Hall')
    as (Hz1 & Hz2 & Hz3).
  { apply Hlen'; [lia|]. simpl. lia. }
  exists (dec_digits (k / 1000)), (zero_pad 3 (dec_digits (k mod 1000))).
  repeat split; try assumption.
  - rewrite digits_from_acc, Hz2, Hz3, Hval, Hval'.
    change (10 ^ Z.of_nat 3) with 1000.
    pose proof (Z.div_mod k 1000 ltac:(lia)). lia.
  - intros d Hd Hkd. apply Hlen; [exact Hd|].
    apply Z.div_lt_upper_bound; [lia|].
    rewrite Nat2Z.inj_add, Z.pow_add_r in Hkd by lia.
    change (10 ^ Z.of_nat 3) with 1000 in Hkd. lia.
Qed.

Lemma floatnumber_fixed_3 k :
  0 <= k -> floatnumber (fixed_digits 3 k) = Some (k, -3).
Proof.
  intros Hk.
  destruct (fixed_digits_3 k Hk)
    as (ip & fp & -> & Hip & Hne & Hfp & Hlen & Hval & _).
  unfold floatnumber.
  rewrite (span_digitpart_digits ip ("."%char :: fp) Hip)
    by (split; [reflexivity | discriminate]).
  rewrite bool_decide_eq_true_2 by reflexivity.
  rewrite <- (app_nil_r fp) at 1.
  rewrite (span_digitpart_digits fp [] Hfp I).
  assert (Hfpne : fp <> []) by (destruct fp; [discriminate | discriminate]).
  rewrite (opt_digitpart_digits 0 ip Hip Hne).
  rewrite (opt_digitpart_digits _ fp Hfp Hfpne).
  rewrite Hval, (count_digits_all fp Hfp), Hlen.
  destruct ip; [congruence|]. reflexivity.
Qed.

Lemma fixed_digits_3_nonspace k : 0 <= k -> nonspace (fixed_digits 3 k).
Proof.
  intros Hk.
  destruct (fixed_digits_3 k Hk) as (ip & fp & -> & Hip & _ & Hfp & _).
  apply Forall_app. split; [apply all_digits_nonspace, Hip|].
  constructor; [reflexivity | apply all_digits_nonspace, Hfp].
Qed.

Lemma sign_fixed_nonspace neg k :
  0 <= k -> nonspace (sign neg ++ fixed_digits 3 k).
Proof.
  intros Hk. apply Forall_app. split.
  - destruct neg; repeat constructor.
  - apply fixed_digits_3_nonspace, Hk.
Qed.

Lemma py_float_real_field neg k :
  0 <= k -> py_float (real_field 8 3 neg k) = Ok (b64_of_ratio neg k 1000).
Proof.
  intros Hk. unfold py_float, real_field.
  rewrite num_strip_rjust by (apply sign_fixed_nonspace, Hk).
  destruct (fixed_digits_3 k Hk)
    as (ip & fp & Hfd & Hip & Hne & Hfp & Hlen & Hval & _).
  assert (Hsplit : split_sign (sign neg ++ fixed_digits 3 k)
                   = (neg, fixed_digits 3 k)).
  { destruct neg; [reflexivity|]. cbn [sign app].
    rewrite Hfd. destruct Hip as [|c ip Hc _]; [congruence|]. simpl.
    destruct (isdigit_plain c Hc) as (-> & -> & _). reflexivity. }
  rewrite Hsplit.
  assert (Hlc : forall s, (exists c s', s = c :: s' /\ isdigit c = false) ->
                eqb (map lower (fixed_digits 3 k)) s = false).
  { intros s (c & s' & -> & Hc). rewrite Hfd.
    destruct Hip as [|d ip Hd _]; [congruence|].
    unfold eqb. apply bool_decide_eq_false. simpl.
    destruct (isdigit_plain d Hd) as (_ & _ & _ & _ & -> & _).
    intros [= <- _]. congruence. }
  rewrite !Hlc by (eexists _, _; split; reflexivity).
  simpl orb. cbv iota.
  rewrite (floatnumber_fixed_3 k Hk). reflexivity.
Qed.

(** A coordinate field reads as a number that is written back as the
    same field. *)
Lemma coordinate_roundtrip s :
  coordinate_field s ->
  length s = 8%nat /\
  exists x, py_float s = Ok x /\ format_f 8 3 x = s.
Proof.
  intros (neg & k & Hk0 & Hk & ->). split.
  - unfold real_field. apply length_rjust. rewrite length_app.
    destruct (fixed_digits_3 k Hk0)
      as (ip & fp & -> & _ & _ & _ & Hlen & _ & Hip).
    rewrite length_app. simpl length. rewrite Hlen.
    destruct neg; simpl length.
    + specialize (Hip 3%nat ltac:(lia)). simpl in Hip.
      specialize (Hip ltac:(lia)). lia.
    + specialize (Hip 4%nat ltac:(lia)). simpl in Hip.
      specialize (Hip ltac:(lia)). lia.
  - exists (b64_of_ratio neg k 1000). split.
    + apply py_float_real_field, Hk0.
    + apply format_f_3_decimals. change (10 ^ 7) with 10000000.
      destruct neg; lia.
Qed.

(** ** Round trip: columns *)

Lemma length_slice a b (s : str) :
  length (slice a b s) = Nat.min (b - a) (length s - a).
Proof. unfold slice. rewrite length_take, length_drop. reflexivity. Qed.

Lemma char_at_slice (s : str) i :
  (i < length s)%nat -> char_at s (Z.of_nat i) = Ok (slice i (S i) s).
Proof.
  intros Hi. unfold char_at.
  destruct (lookup_lt_is_Some_2 s i Hi) as [c Hc].
  rewrite (getitem_lookup s i c _ Hc eq_refl). simpl. f_equal.
  unfold slice. replace (S i - i)%nat with 1%nat by lia.
  rewrite (drop_S s c i Hc). reflexivity.
Qed.

Lemma length_lstrip s : (length (lstrip s) <= length s)%nat.
Proof.
  destruct (lstrip_split s) as (ws & Hs & _).
  rewrite Hs at 2. rewrite length_app. lia.
Qed.

Lemma length_strip s : (length (strip s) <= length s)%nat.
Proof.
  unfold strip, rstrip. rewrite length_rev.
  etransitivity; [apply length_lstrip|]. rewrite length_rev.
  apply length_lstrip.
Qed.

Ltac explode_lengths :=
  repeat match goal with
  | H : length ?l = S _ |- _ =>
      destruct l; simpl in H; [discriminate H | injection H as H]
  | H : length ?l = O |- _ =>
      destruct l; [clear H | discriminate H]
  end.

(** The columns of a line laid out as the first fourteen fields of
    [ATOM_LINE], each of its full width. *)
Lemma atom_columns (f1 f2 f3 f4 f5 f6 f7 f8 f9 f10 f11 f12 f13 f14 rest : str) :
  length f1 = 6%nat -> length f2 = 5%nat -> length f3 = 1%nat ->
  length f4 = 4%nat -> length f5 = 1%nat -> length f6 = 3%nat ->
  length f7 = 1%nat -> length f8 = 1%nat -> length f9 = 4%nat ->
  length f10 = 1%nat -> length f11 = 3%nat -> length f12 = 8%nat ->
  length f13 = 8%nat -> length f14 = 8%nat ->
  let l := f1 ++ f2 ++ f3 ++ f4 ++ f5 ++ f6 ++ f7 ++ f8 ++ f9 ++ f10 ++
           f11 ++ f12 ++ f13 ++ f14 ++ rest in
  slice 0 6 l = f1 /\ slice 12 16 l = f4 /\ slice 21 22 l = f8 /\
  slice 22 26 l = f9 /\ slice 30 38 l = f12 /\ slice 38 46 l = f13 /\
  slice 46 54 l = f14.
Proof.
  intros H1 H2 H3 H4 H5 H6 H7 H8 H9 H10 H11 H12 H13 H14.
  explode_lengths. repeat split; reflexivity.
Qed.

(** ** Round trip: the atom name *)

Lemma length_for_e_in_name name e :
  name <> [] -> length (for_e_in_name name e) = 1%nat.
Proof.
  revert e. induction name as [|c name IH]; intros e Hne; [congruence|].
  simpl. destruct (isalpha c); [reflexivity|].
  destruct name as [|c' name]; [reflexivity|].
  apply IH. discriminate.
Qed.

Lemma strip_name_field_of cols name :
  nonspace name -> strip (name_field_of cols name) = name.
Proof.
  intros Hn. unfold name_field_of. destruct (_ && _).
  - change (" "%char :: ljust 3 name)
      with (spaces 1 ++ name ++ spaces (3 - length name)).
    apply strip_padded, Hn.
  - change (ljust 4 name) with (spaces 0 ++ name ++ spaces (4 - length name)).
    apply strip_padded, Hn.
Qed.

Lemma length_name_field_of cols name :
  (length name <= 4)%nat -> length (name_field_of cols name) = 4%nat.
Proof.
  intros Hn. unfold name_field_of.
  destruct (length (strip cols) <=? 1)%nat; simpl andb.
  - destruct (Nat.ltb_spec (length name) 4).
    + simpl. rewrite length_ljust by lia. reflexivity.
    + apply length_ljust, Hn.
  - apply length_ljust, Hn.
Qed.

(** The name column that the writer lays out from the name and element
    read from a well-formed line is the name column of that line. *)
Lemma name_column_roundtrip cols name :
  nonspace name -> (length name <= 4)%nat ->
  let e := match strip cols with
           | [] => for_e_in_name name []
           | e0 => e0
           end in
  format_s 4 (if (length e =? 1)%nat && negb (length name =? 4)%nat
              then " "%char :: name else name)
  = name_field_of cols name.
Proof.
  intros Hn Hlen e. unfold name_field_of, format_s.
  destruct (Nat.eqb_spec (length name) 4) as [H4|H4]; simpl negb.
  - rewrite andb_false_r.
    destruct (Nat.ltb_spec (length name) 4); [lia|].
    rewrite andb_false_r. reflexivity.
  - rewrite andb_true_r.
    destruct (Nat.ltb_spec (length name) 4); [|lia]. rewrite andb_true_r.
    assert (Hpad : ljust 4 (" "%char :: name) = " "%char :: ljust 3 name).
    { unfold ljust. simpl. reflexivity. }
    unfold e. destruct (strip cols) as [|c0 [|c1 e0]] eqn:Hcols.
    + simpl Nat.leb. cbv iota.
      destruct name as [|c name]; [reflexivity|].
      rewrite length_for_e_in_name by discriminate. exact Hpad.
    + exact Hpad.
    + reflexivity.
Qed.

(** ** Round trip: one line *)

Lemma is_atom_line_record line :
  is_atom_line line = true ->
  slice 0 6 line = ATOM \/ slice 0 6 line = HETATM.
Proof.
  unfold is_atom_line, eqb. intros H. apply orb_true_iff in H.
  destruct H as [H|H]; apply bool_decide_eq_true in H; auto.
Qed.

(** A well-formed atom line parses, and the line written from the row
    read has the same chain, residue number and coordinates, and the
    same name in the alignment of the writer. *)
Lemma wf_line_roundtrip mn line :
  is_atom_line line = true -> wf_atom_line line ->
  exists a,
    parse_atom mn (slice 0 6 line) line = Ok a /\
    a_model a = mn /\ atom_or_hetatm a /\
    written_fields line (atom_line a).
Proof.
  intros Hatom [(id & Hid & Hserial) (pa & name & pb & Hn & Hnl & Hname)
                (n & Hnr & Hresi) Hx Hy Hz Hq Hb].
  assert (Hstrip : strip (slice 12 16 line) = name).
  { rewrite Hname. apply strip_padded, Hn. }
  assert (Hnl4 : (length name <= 4)%nat) by lia.
  destruct (coordinate_roundtrip _ Hx) as (Hlx & x & Hpx & Hfx).
  destruct (coordinate_roundtrip _ Hy) as (Hly & y & Hpy & Hfy).
  destruct (coordinate_roundtrip _ Hz) as (Hlz & z & Hpz & Hfz).
  assert (Hlen : (54 <= length line)%nat).
  { rewrite length_slice in Hlz. lia. }
  destruct (py_float (slice 54 60 line)) as [q|] eqn:Hpq; [|discriminate].
  destruct (py_float (slice 60 66 line)) as [b|] eqn:Hpb; [|discriminate].
  pose proof (is_atom_line_record line Hatom) as Hrec.
  set (e := match strip (slice 76 78 line) with
            | [] => for_e_in_name name []
            | e0 => e0
            end).
  exists {| a_record := slice 0 6 line; a_id := id; a_name := name;
            a_alt := slice 16 17 line;
            a_resn := strip (slice 17 20 line);
            a_chain := slice 21 22 line; a_resi := n;
            a_i := slice 26 27 line;
            a_x := x; a_y := y; a_z := z; a_q := q; a_b := b;
            a_e := e; a_charge := strip (slice 78 80 line);
            a_model := mn |}.
  split; [|split; [reflexivity | split; [exact Hrec|]]].
  - pose proof (char_at_slice line 16 ltac:(lia)) as C16.
    pose proof (char_at_slice line 21 ltac:(lia)) as C21.
    pose proof (char_at_slice line 26 ltac:(lia)) as C26.
    change (Z.of_nat 16) with 16 in C16.
    change (Z.of_nat 21) with 21 in C21.
    change (Z.of_nat 26) with 26 in C26.
    unfold parse_atom.
    rewrite Hserial, py_int_int_field. cbn [rbind].
    rewrite C16. cbn [rbind]. rewrite C21. cbn [rbind].
    rewrite Hresi, py_int_int_field. cbn [rbind].
    rewrite C26. cbn [rbind].
    rewrite Hpx, Hpy, Hpz, Hpq, Hpb. cbn [rbind].
    rewrite Hstrip. fold e.
    f_equal. f_equal. unfold e.
    destruct (strip (slice 76 78 line)); reflexivity.
  - unfold written_fields, atom_line, ATOM_LINE, name_field.
    cbn [a_record a_id a_name a_alt a_resn a_chain a_resi a_i a_x a_y a_z
         a_q a_b a_e a_charge].
    pose proof (name_column_roundtrip (slice 76 78 line) name Hn Hnl4) as Hnc.
    cbv zeta in Hnc. fold e in Hnc. rewrite Hnc. clear Hnc.
    rewrite Hfx, Hfy, Hfz, Hstrip.
    change (format_d 5 id) with (int_field 5 id).
    change (format_d 4 n) with (int_field 4 n).
    rewrite <- Hresi.
    assert (L1 : length (format_s 6 (slice 0 6 line)) = 6%nat).
    { destruct Hrec as [-> | ->]; reflexivity. }
    assert (L2 : length (int_field 5 id) = 5%nat)
      by (apply length_int_field_5, Hid).
    assert (L4 : length (name_field_of (slice 76 78 line) name) = 4%nat)
      by (apply length_name_field_of, Hnl4).
    assert (L5 : length (format_s 1 (slice 16 17 line)) = 1%nat).
    { apply length_ljust. rewrite length_slice. lia. }
    assert (L6 : length (format_s 3 (strip (slice 17 20 line))) = 3%nat).
    { apply length_ljust. etransitivity; [apply length_strip|].
      rewrite length_slice. lia. }
    assert (L8 : format_s 1 (slice 21 22 line) = slice 21 22 line).
    { assert (H1 : length (slice 21 22 line) = 1%nat)
        by (rewrite length_slice; lia).
      unfold format_s, ljust. rewrite H1. apply app_nil_r. }
    assert (L8' : length (slice 21 22 line) = 1%nat)
      by (rewrite length_slice; lia).
    assert (L9 : length (slice 22 26 line) = 4%nat)
      by (rewrite length_slice; lia).
    assert (L10 : length (format_s 1 (slice 26 27 line)) = 1%nat).
    { apply length_ljust. rewrite length_slice. lia. }
    rewrite L8.
    destruct (atom_columns _ _ (spaces 1) _ _ _ (spaces 1) _ _ _ (spaces 3)
                _ _ _
                (format_f 6 2 q ++ format_f 6 2 b ++ spaces 10 ++
                 ljust 2 e ++ format_s 2 (strip (slice 78 80 line)) ++ nl)
                L1 L2 eq_refl L4 L5 L6 eq_refl L8' L9 L10 eq_refl
                Hlx Hly Hlz)
      as (_ & C4 & C8 & C9 & C12 & C13 & C14).
    rewrite C4. rewrite (strip_name_field_of _ name Hn).
    repeat split; assumption.
Qed.

(** ** Round trip: the whole input *)

Lemma parse_heading heading : forall body pdb mn,
  Forall (fun l => is_atom_line l = false) heading ->
  Forall (fun l => eqb (slice 0 6 l) MODEL = true ->
                   is_ok (py_int (slice 10 14 l)) = true) heading ->
  exists mn', parse_lines (heading ++ body) pdb mn = parse_lines body pdb mn'.
Proof.
  induction heading as [|l heading IH]; intros body pdb mn Hat Hmod.
  - exists mn. reflexivity.
  - apply Forall_cons in Hat as [Hl Hat].
    apply Forall_cons in Hmod as [Hm Hmod].
    cbn [app parse_lines]. fold (is_atom_line l). rewrite Hl.
    destruct (eqb (slice 0 6 l) MODEL) eqn:Htag.
    + specialize (Hm eq_refl).
      destruct (py_int (slice 10 14 l)) as [n|]; [|discriminate].
      cbn [rbind]. apply IH; assumption.
    + apply IH; assumption.
Qed.

Lemma parse_body body : forall rows0 mn,
  Forall (fun l => eqb (slice 0 6 l) MODEL = false) body ->
  Forall (fun l => is_atom_line l = true -> wf_atom_line l) body ->
  exists rows,
    parse_lines body (table_of_rows rows0) mn
      = Ok (table_of_rows (rows0 ++ rows)) /\
    Forall2 (fun l a => written_fields l (atom_line a))
      (List.filter is_atom_line body) rows /\
    Forall (fun a => a_model a = mn /\ atom_or_hetatm a) rows.
Proof.
  induction body as [|l body IH]; intros rows0 mn Hmod Hwf.
  - exists []. rewrite app_nil_r. repeat split; constructor.
  - apply Forall_cons in Hmod as [Hm Hmod].
    apply Forall_cons in Hwf as [Hl Hwf].
    cbn [parse_lines List.filter]. fold (is_atom_line l).
    destruct (is_atom_line l) eqn:Hat.
    + destruct (wf_line_roundtrip mn l Hat (Hl eq_refl))
        as (a & Ha & Hmn & Hrec & Hsame).
      rewrite Ha. cbn [rbind]. rewrite append_row_table.
      destruct (IH (rows0 ++ [a]) mn Hmod Hwf) as (rows & Hp & Hf & Hall).
      exists (a :: rows). rewrite <- app_assoc in Hp.
      repeat split; [exact Hp | | ]; constructor; auto.
    + rewrite Hm. apply IH; assumption.
Qed.

Lemma filter_atom_lines_block rows : forall prev,
  Forall atom_or_hetatm rows ->
  List.filter is_atom_line (block_lines prev rows) = map atom_line rows.
Proof.
  induction rows as [|a rows IH]; intros prev Hall; [reflexivity|].
  apply Forall_cons in Hall as [Ha Hall].
  cbn [block_lines map]. rewrite List.filter_app.
  assert (Hter : List.filter is_atom_line
            match prev with
            | Some p => if ter_due p a then [ter_line p] else []
            | None => []
            end = []).
  { destruct prev as [p|]; [|reflexivity].
    destruct (ter_due p a); reflexivity. }
  rewrite Hter. cbn [app List.filter].
  assert (Hat : is_atom_line (atom_line a) = true).
  { unfold is_atom_line. rewrite (atom_line_tag a Ha).
    destruct Ha as [-> | ->]; reflexivity. }
  rewrite Hat, IH by exact Hall. reflexivity.
Qed.

(** The documented fields all come back exactly for the lines whose
    name column is aligned as the writer aligns it, and only for them. *)
Lemma written_fields_same line line' :
  written_fields line line' -> (name_aligned line <-> same_fields line line').
Proof.
  intros (_ & Hname & Hc & Hr & Hx & Hy & Hz). unfold name_aligned, same_fields.
  split.
  - intros Hal. rewrite Hname, <- Hal. repeat split; assumption.
  - intros (Hsame & _).
    transitivity (slice 12 16 line'); [symmetry; exact Hsame | exact Hname].
Qed.

(** C6: a well-formed single-model input parses, the table read is
    written, and, in the order of the input, each atom line written has
    the chain, residue number and coordinate columns of the atom line it
    was read from, and the same atom name in the alignment of the
    writer: from column 14 when the element symbol has at most one
    character and the name fewer than four, from column 13 otherwise.
    So the name column comes back exactly for the lines that are aligned
    that way, and only for them. *)
Theorem C6_pdb_roundtrip fs infile heading body :
  readable fs infile ->
  source_lines fs infile = heading ++ body ->
  wf_single_model heading body ->
  exists h pdb out,
    parse_pdb fs infile = (h, Ok pdb) /\
    tofile pdb = ({| written := out; out_closed := true |}, Ok tt) /\
    Forall2 (fun line line' =>
               written_fields line line' /\
               (name_aligned line <-> same_fields line line'))
      (List.filter is_atom_line (heading ++ body))
      (List.filter is_atom_line out).
Proof.
  intros Hread Hsrc [Hhat Hhmod Hbmod Hbwf Hsome].
  destruct (parse_heading heading body empty_table 1 Hhat Hhmod)
    as [mn Hhead].
  destruct (parse_body body [] mn Hbmod Hbwf) as (rows & Hp & Hsame & Hall).
  change (table_of_rows []) with empty_table in Hp. simpl app in Hp.
  assert (Hparse : parse_lines (source_lines fs infile) empty_table 1
                   = Ok (table_of_rows rows)).
  { rewrite Hsrc, Hhead. exact Hp. }
  assert (Hne : rows <> []).
  { intros ->. apply Forall2_length in Hsame. simpl in Hsame.
    apply Exists_exists in Hsome as (l & Hin & Hl).
    assert (Hin' : In l (List.filter is_atom_line body)).
    { apply List.filter_In. split; [|exact Hl].
      apply list_elem_of_In. exact Hin. }
    destruct (List.filter is_atom_line body); [exact Hin' | discriminate]. }
  assert (Hout : tofile (table_of_rows rows) =
    ({| written := block_lines None rows ++ [END_LINE];
        out_closed := true |}, Ok tt)).
  { rewrite <- (app_nil_r rows) at 1.
    change (rows ++ []) with (concat [rows]).
    rewrite (tofile_blocks (length rows) [rows] [mn]).
    - cbn [length blocks_lines Z.of_nat]. simpl Z.ltb. cbv iota.
      rewrite !app_nil_l, !app_nil_r. reflexivity.
    - split; [destruct rows; [congruence | simpl; lia]|].
      split; [|repeat constructor].
      constructor; [|constructor]. split; [reflexivity|].
      eapply Forall_impl; [exact Hall|]. intros a [Ha _]. exact Ha.
    - discriminate. }
  assert (Hfilter : List.filter is_atom_line (heading ++ body)
                    = List.filter is_atom_line body).
  { rewrite List.filter_app.
    replace (List.filter is_atom_line heading) with (@nil str);
      [reflexivity|].
    clear -Hhat. induction Hhat as [|l heading Hl _ IH]; [reflexivity|].
    simpl. rewrite Hl. exact IH. }
  assert (Hresult : Forall2 (fun line line' =>
               written_fields line line' /\
               (name_aligned line <-> same_fields line line'))
            (List.filter is_atom_line (heading ++ body))
            (List.filter is_atom_line (block_lines None rows ++ [END_LINE]))).
  { rewrite Hfilter, List.filter_app, filter_atom_lines_block.
    - change (List.filter is_atom_line [END_LINE]) with (@nil str).
      rewrite app_nil_r. apply Forall2_fmap_r.
      eapply Forall2_impl; [exact Hsame|]. intros l a Hw. simpl.
      split; [exact Hw | apply written_fields_same, Hw].
    - eapply Forall_impl; [exact Hall|]. intros a [_ Ha]. exact Ha. }
  destruct infile as [f|path|]; [| |contradiction].
  - simpl in Hread, Hparse. eexists _, _, _. split; [|split].
    + simpl. rewrite Hread, Hparse. reflexivity.
    + exact Hout.
    + exact Hresult.
  - simpl in Hread, Hparse.
    destruct (fs path) as [ls|] eqn:Hfs; [|congruence].
    eexists _, _, _. split; [|split].
    + simpl. unfold open. rewrite Hfs. simpl. rewrite Hparse. reflexivity.
    + exact Hout.
    + exact Hresult.
Qed.

Ltac solve_coordinate neg k :=
  exists neg, k; split; [lia | split; [simpl; lia | vm_compute; reflexivity]].

Lemma sample_wf : wf_single_model sample_heading sample_body.
Proof.
  constructor.
  - repeat constructor.
  - repeat apply List.Forall_cons; try apply List.Forall_nil; intros H;
      first [reflexivity | vm_compute in H; discriminate H].
  - repeat constructor.
  - repeat apply List.Forall_cons; try apply List.Forall_nil;
      try (intros H; vm_compute in H; discriminate H); intros _.
    + constructor.
      * exists 1. split; [lia | vm_compute; reflexivity].
      * exists 1%nat, (lit "N"), 2%nat. split; [repeat constructor|].
        split; [reflexivity | vm_compute; reflexivity].
      * exists 1. split; [lia | vm_compute; reflexivity].
      * solve_coordinate false 11104.
      * solve_coordinate false 6134.
      * solve_coordinate true 6504.
      * vm_compute; reflexivity.
      * vm_compute; reflexivity.
    + constructor.
      * exists 2. split; [lia | vm_compute; reflexivity].
      * exists 1%nat, (lit "CA"), 1%nat. split; [repeat constructor|].
        split; [reflexivity | vm_compute; reflexivity].
      * exists 1. split; [lia | vm_compute; reflexivity].
      * solve_coordinate false 11639.
      * solve_coordinate false 6071.
      * solve_coordinate true 5147.
      * vm_compute; reflexivity.
      * vm_compute; reflexivity.
    + constructor.
      * exists 3. split; [lia | vm_compute; reflexivity].
      * exists 0%nat, (lit "FE"), 2%nat. split; [repeat constructor|].
        split; [reflexivity | vm_compute; reflexivity].
      * exists (-2). split; [lia | vm_compute; reflexivity].
      * solve_coordinate true 0.
      * solve_coordinate true 999999.
      * solve_coordinate false 9999999.
      * vm_compute; reflexivity.
      * vm_compute; reflexivity.
  - constructor. reflexivity.
Defined.

Lemma C6_pdb_roundtrip_witness :
  exists h pdb out,
    parse_pdb no_files (PyFile (stream_of (sample_heading ++ sample_body)))
      = (h, Ok pdb) /\
    tofile pdb = ({| written := out; out_closed := true |}, Ok tt) /\
    Forall2 (fun line line' =>
               written_fields line line' /\
               (name_aligned line <-> same_fields line line'))
      (List.filter is_atom_line (sample_heading ++ sample_body))
      (List.filter is_atom_line out).
Proof.
  apply (C6_pdb_roundtrip no_files
           (PyFile (stream_of (sample_heading ++ sample_body)))
           sample_heading sample_body).
  - reflexivity.
  - reflexivity.
  - exact sample_wf.
Defined.

Lemma column13_names_wf : wf_single_model [] column13_names.
Proof.
  constructor.
  - constructor.
  - constructor.
  - repeat constructor.
  - repeat apply List.Forall_cons; try apply List.Forall_nil; intros _.
    + constructor.
      * exists 1. split; [lia | vm_compute; reflexivity].
      * exists 0%nat, (lit "1HB"), 1%nat. split; [repeat constructor|].
        split; [reflexivity | vm_compute; reflexivity].
      * exists 1. split; [lia | vm_compute; reflexivity].
      * solve_coordinate false 11104.
      * solve_coordinate false 6134.
      * solve_coordinate true 6504.
      * vm_compute; reflexivity.
      * vm_compute; reflexivity.
    + constructor.
      * exists 2. split; [lia | vm_compute; reflexivity].
      * exists 0%nat, (lit "CA"), 2%nat. split; [repeat constructor|].
        split; [reflexivity | vm_compute; reflexivity].
      * exists 2. split; [lia | vm_compute; reflexivity].
      * solve_coordinate false 11639.
      * solve_coordinate false 6071.
      * solve_coordinate true 5147.
      * vm_compute; reflexivity.
      * vm_compute; reflexivity.
  - constructor. reflexivity.
Qed.

(** C6, counterexample: two well-formed atom lines whose name starts
    in column 13, a hydrogen with its element symbol and a calcium ion
    without one.  Both are read, and both are written with the name
    moved to column 14, so the name column does not come back. *)
Lemma C6_column13_name_counterexample :
  let out := written (fst (tofile (parsed column13_names))) in
  wf_single_model [] column13_names /\
  parse_pdb no_files (PyFile (stream_of column13_names))
  = (Some (close (stream_of column13_names)), Ok (parsed column13_names)) /\
  snd (tofile (parsed column13_names)) = Ok tt /\
  map (slice 12 16) column13_names = [lit "1HB "; lit "CA  "] /\
  map (slice 12 16) (List.filter is_atom_line out) = [lit " 1HB"; lit " CA "] /\
  ~ roundtrip_documented.
Proof.
  intros out.
  assert (Hparse : parse_pdb no_files (PyFile (stream_of column13_names))
    = (Some (close (stream_of column13_names)), Ok (parsed column13_names)))
    by (vm_compute; reflexivity).
  assert (Hout : map (slice 12 16) (List.filter is_atom_line out)
                 = [lit " 1HB"; lit " CA "]) by (vm_compute; reflexivity).
  split; [exact column13_names_wf|]. split; [exact Hparse|].
  split; [vm_compute; reflexivity|]. split; [reflexivity|].
  split; [exact Hout|].
  intros Hdoc.
  specialize (Hdoc no_files (PyFile (stream_of column13_names)) []
                column13_names _ _ out eq_refl column13_names_wf Hparse
                eq_refl).
  assert (Hcols : map (slice 12 16) (List.filter is_atom_line out)
                  = map (slice 12 16)
                      (List.filter is_atom_line ([] ++ column13_names))).
  { clear Hout. induction Hdoc as [|l l' ls ls' (Hname & _) _ IH];
      [reflexivity|]. simpl. rewrite Hname, IH. reflexivity. }
  rewrite Hout in Hcols. vm_compute in Hcols. discriminate Hcols.
Qed.

(** The sample read and written: the atom lines come back character for
    character up to the element column, which is written
    left-justified. *)
Example sample_roundtrip :
  map string_of_list_ascii
    (written (fst (tofile (parsed (sample_heading ++ sample_body))))) =
  ["ATOM      1  N   ALA A   1      11.104   6.134  -6.504  1.00  0.00          N   
";
   "ATOM      2  CA  ALA A   1      11.639   6.071  -5.147  1.00  0.00          C   
";
   "TER       3      ALA A   1                                                      
";
   "HETATM    3 FE   HEM B  -2      -0.000-999.9999999.999  1.00 20.50          FE  
";
   "END   
"]%string.
Proof. vm_compute. reflexivity. Qed.

(** ** TER records *)

(** The columns of a line laid out as the fields of [TER_LINE], each of
    its full width. *)
Lemma ter_columns (f1 f2 f3 f4 f5 f6 f7 f8 rest : str) :
  length f1 = 6%nat -> length f2 = 5%nat -> length f3 = 6%nat ->
  length f4 = 3%nat -> length f5 = 1%nat -> length f6 = 1%nat ->
  length f7 = 4%nat -> length f8 = 1%nat ->
  let l := f1 ++ f2 ++ f3 ++ f4 ++ f5 ++ f6 ++ f7 ++ f8 ++ rest in
  slice 0 6 l = f1 /\ slice 6 11 l = f2 /\ slice 17 20 l = f4 /\
  slice 21 22 l = f6 /\ slice 22 26 l = f7 /\ slice 26 27 l = f8 /\
  length l = (27 + length rest)%nat.
Proof.
  intros H1 H2 H3 H4 H5 H6 H7 H8.
  explode_lengths. repeat split; reflexivity.
Qed.

(** What a [TER] line holds, column range by column range, when the
    values fit their columns. *)
Lemma ter_line_columns p :
  -9999 <= a_id p + 1 <= 99999 -> (length (a_resn p) <= 3)%nat ->
  length (a_chain p) = 1%nat -> -999 <= a_resi p <= 9999 ->
  length (a_i p) = 1%nat ->
  let t := ter_line p in
  slice 0 6 t = TER /\
  slice 6 11 t = int_field 5 (a_id p + 1) /\
  py_int (slice 6 11 t) = Ok (a_id p + 1) /\
  slice 17 20 t = a_resn p ++ spaces (3 - length (a_resn p)) /\
  slice 21 22 t = a_chain p /\
  slice 22 26 t = int_field 4 (a_resi p) /\
  py_int (slice 22 26 t) = Ok (a_resi p) /\
  slice 26 27 t = a_i p /\
  length t = 81%nat.
Proof.
  intros Hid Hresn Hchain Hresi Hi t.
  assert (L2 : length (format_d 5 (a_id p + 1)) = 5%nat)
    by (apply length_int_field_5, Hid).
  assert (L4 : length (format_s 3 (a_resn p)) = 3%nat)
    by (apply length_ljust, Hresn).
  assert (L6 : length (format_s 1 (a_chain p)) = 1%nat)
    by (apply length_ljust; lia).
  assert (L7 : length (format_d 4 (a_resi p)) = 4%nat)
    by (apply length_int_field_4, Hresi).
  assert (L8 : length (format_s 1 (a_i p)) = 1%nat)
    by (apply length_ljust; lia).
  assert (E6 : format_s 1 (a_chain p) = a_chain p).
  { unfold format_s, ljust. rewrite Hchain. apply app_nil_r. }
  assert (E8 : format_s 1 (a_i p) = a_i p).
  { unfold format_s, ljust. rewrite Hi. apply app_nil_r. }
  destruct (ter_columns (lit "TER   ") _ (spaces 6) _ (spaces 1) _ _ _
              (spaces 53 ++ nl) eq_refl L2 eq_refl L4 eq_refl L6 L7 L8)
    as (C1 & C2 & C4 & C6 & C7 & C8 & Clen).
  unfold t, ter_line, TER_LINE.
  rewrite C1, C2, C4, C6, C7, C8, Clen, E6, E8.
  change (format_d 5 (a_id p + 1)) with (int_field 5 (a_id p + 1)).
  change (format_d 4 (a_resi p)) with (int_field 4 (a_resi p)).
  rewrite !py_int_int_field.
  repeat split; reflexivity.
Qed.

(** The lines written for a table of rows of one model. *)
Lemma tofile_one_model rows m :
  rows <> [] -> Forall (fun r => a_model r = m) rows ->
  tofile (table_of_rows rows) =
  ({| written := block_lines None rows ++ [END_LINE]; out_closed := true |},
   Ok tt).
Proof.
  intros Hne Hall.
  rewrite <- (app_nil_r rows) at 1.
  change (rows ++ []) with (concat [rows]).
  rewrite (tofile_blocks (length rows) [rows] [m]).
  - cbn [length blocks_lines Z.of_nat]. simpl Z.ltb. cbv iota.
    rewrite !app_nil_l, !app_nil_r. reflexivity.
  - split; [destruct rows; [congruence | simpl; lia]|].
    split; [|repeat constructor].
    constructor; [|constructor]. split; [reflexivity | exact Hall].
  - discriminate.
Qed.

Lemma is_atom_line_atom_line a :
  atom_or_hetatm a -> is_atom_line (atom_line a) = true.
Proof.
  intros Ha. unfold is_atom_line. rewrite (atom_line_tag a Ha).
  destruct Ha as [-> | ->]; reflexivity.
Qed.

(** Between the atom lines of two consecutive rows of a block there is
    the [TER] line of the first, when it is due, and nothing else. *)
Lemma block_lines_between rows : forall prev i p a,
  Forall atom_or_hetatm rows ->
  rows !! i = Some p -> rows !! S i = Some a ->
  exists front back,
    block_lines prev rows =
      front ++ atom_line p ::
      (if ter_due p a then [ter_line p] else []) ++ atom_line a :: back /\
    length (List.filter is_atom_line front) = i.
Proof.
  induction rows as [|x rows IH]; intros prev i p a Hall Hp Ha;
    [discriminate|].
  apply Forall_cons in Hall as [Hx Hall].
  set (T := match prev with
            | Some q => if ter_due q x then [ter_line q] else []
            | None => []
            end).
  assert (HT : List.filter is_atom_line T = []).
  { unfold T. destruct prev as [q|]; [|reflexivity].
    destruct (ter_due q x); reflexivity. }
  destruct i as [|i].
  - injection Hp as ->. destruct rows as [|a' rows]; [discriminate|].
    injection Ha as ->.
    exists T, (block_lines (Some a) rows). split.
    + reflexivity.
    + rewrite HT. reflexivity.
  - destruct (IH (Some x) i p a Hall Hp Ha) as (front & back & Heq & Hlen).
    exists (T ++ atom_line x :: front), back. split.
    + cbn [block_lines]. fold T. rewrite Heq, <- app_assoc. reflexivity.
    + rewrite List.filter_app, HT. cbn [app List.filter].
      rewrite (is_atom_line_atom_line x Hx). simpl. rewrite Hlen. reflexivity.
Qed.

(** The [TER] lines of a block are as many as the places where one is
    due. *)
Lemma count_ter_block rows : forall prev,
  Forall atom_or_hetatm rows ->
  count_tag TER (block_lines prev rows) =
  ((match prev, rows with
    | Some q, x :: _ => if ter_due q x then 1 else 0
    | _, _ => 0
    end) + chain_ends rows)%nat.
Proof.
  induction rows as [|x rows IH]; intros prev Hall.
  - destruct prev; reflexivity.
  - apply Forall_cons in Hall as [Hx Hall].
    cbn [block_lines]. rewrite count_tag_app.
    change (atom_line x :: block_lines (Some x) rows)
      with ([atom_line x] ++ block_lines (Some x) rows).
    rewrite count_tag_app, (IH (Some x) Hall).
    assert (Hat : count_tag TER [atom_line x] = 0%nat).
    { unfold count_tag. simpl. rewrite (atom_line_tag x Hx).
      destruct Hx as [-> | ->]; reflexivity. }
    rewrite Hat.
    assert (Hce : chain_ends (x :: rows)
                  = ((match rows with
                      | a :: _ => if ter_due x a then 1 else 0
                      | [] => 0
                      end) + chain_ends rows)%nat).
    { destruct rows; reflexivity. }
    rewrite Hce.
    destruct prev as [q|]; [destruct (ter_due q x)|]; destruct rows;
      reflexivity.
Qed.

(** C3: in the lines written for the rows of one model, the atom lines
    of two consecutive rows have between them the [TER] line of the
    first row exactly when the chains of the two differ and the first is
    an [ATOM] record, and nothing otherwise; there is no [TER] line
    anywhere else.  The [TER] line holds, in the columns of the atom
    lines, the serial number of that row plus one, its residue name, its
    chain, its residue number and its insertion code.  Three [ATOM] rows
    with chains A, A, B give one [TER] line, between the second and the
    third.  In a table of several model blocks every block is written
    this way. *)
Theorem C3_ter_records :
  (forall rows m i p a,
     Forall (fun r => a_model r = m) rows -> Forall atom_or_hetatm rows ->
     rows !! i = Some p -> rows !! S i = Some a ->
     let out := written (fst (tofile (table_of_rows rows))) in
     (exists front back,
        out = front ++ atom_line p ::
              (if negb (eqb (a_chain p) (a_chain a)) && eqb (a_record p) ATOM
               then [ter_line p] else []) ++ atom_line a :: back /\
        length (List.filter is_atom_line front) = i) /\
     count_tag TER out = chain_ends rows) /\
  (forall p,
     -9999 <= a_id p + 1 <= 99999 -> (length (a_resn p) <= 3)%nat ->
     length (a_chain p) = 1%nat -> -999 <= a_resi p <= 9999 ->
     length (a_i p) = 1%nat ->
     let t := ter_line p in
     slice 0 6 t = TER /\
     slice 6 11 t = int_field 5 (a_id p + 1) /\
     py_int (slice 6 11 t) = Ok (a_id p + 1) /\
     slice 17 20 t = a_resn p ++ spaces (3 - length (a_resn p)) /\
     slice 21 22 t = a_chain p /\
     slice 22 26 t = int_field 4 (a_resi p) /\
     py_int (slice 22 26 t) = Ok (a_resi p) /\
     slice 26 27 t = a_i p /\
     length t = 81%nat) /\
  (forall a1 a2 a3,
     a_chain a1 = lit "A" -> a_chain a2 = lit "A" -> a_chain a3 = lit "B" ->
     a_record a1 = ATOM -> a_record a2 = ATOM -> a_record a3 = ATOM ->
     a_model a2 = a_model a1 -> a_model a3 = a_model a1 ->
     let out := written (fst (tofile (table_of_rows [a1; a2; a3]))) in
     out = [atom_line a1; atom_line a2;
            TER_LINE (a_id a2 + 1) (a_resn a2) (a_chain a2) (a_resi a2) (a_i a2);
            atom_line a3; END_LINE] /\
     count_tag TER out = 1%nat) /\
  (forall s blocks ms,
     model_blocks s blocks ms -> blocks <> [] ->
     tofile (table_of_rows (concat blocks)) =
     ({| written :=
           blocks_lines (Z.of_nat (length blocks)) 0 blocks ++ [END_LINE];
         out_closed := true |}, Ok tt)).
Proof.
  split; [|split; [exact ter_line_columns | split; [|exact tofile_blocks]]].
  - intros rows m i p a Hm Hall Hp Ha out.
    assert (Hne : rows <> []) by (intros ->; discriminate).
    unfold out. rewrite (tofile_one_model rows m Hne Hm). cbn [fst written].
    split.
    + destruct (block_lines_between rows None i p a Hall Hp Ha)
        as (front & back & Heq & Hlen).
      exists front, (back ++ [END_LINE]). split; [|exact Hlen].
      rewrite Heq. unfold ter_due.
      rewrite <- !app_assoc. cbn [app]. rewrite <- !app_assoc. reflexivity.
    + rewrite count_tag_app, (count_ter_block rows None Hall).
      change (count_tag TER [END_LINE]) with 0%nat. lia.
  - intros a1 a2 a3 Hc1 Hc2 Hc3 Hr1 Hr2 Hr3 Hm2 Hm3 out.
    assert (Hout : out = [atom_line a1; atom_line a2; ter_line a2;
                          atom_line a3; END_LINE]).
    { unfold out. rewrite (tofile_one_model [a1; a2; a3] (a_model a1)).
      - cbn [fst written block_lines]. unfold ter_due.
        rewrite Hc1, Hc2, Hc3, Hr2. reflexivity.
      - discriminate.
      - repeat constructor; assumption. }
    split; [exact Hout|]. rewrite Hout.
    change [atom_line a1; atom_line a2; ter_line a2; atom_line a3; END_LINE]
      with ([atom_line a1] ++ [atom_line a2] ++ [ter_line a2] ++
            [atom_line a3] ++ [END_LINE]).
    rewrite !count_tag_app. unfold count_tag. simpl.
    rewrite !atom_line_tag by (left; assumption).
    rewrite Hr1, Hr2, Hr3. reflexivity.
Qed.

Lemma C3_ter_records_witness :
  let rows := [example_atom 1 "A"; example_atom 2 "A"; example_atom 3 "B"] in
  let out := written (fst (tofile (table_of_rows rows))) in
  let t := lit "TER       3      ALA A   2 " ++ spaces 53 ++ nl in
  out = [atom_line (example_atom 1 "A"); atom_line (example_atom 2 "A"); t;
         atom_line (example_atom 3 "B"); END_LINE] /\
  count_tag TER out = 1%nat /\
  py_int (slice 6 11 t) = Ok 3 /\ slice 17 20 t = lit "ALA" /\
  slice 21 22 t = lit "A" /\ py_int (slice 22 26 t) = Ok 2 /\
  slice 26 27 t = lit " ".
Proof.
  intros rows out t.
  destruct C3_ter_records as (_ & Hcols & Haab & _).
  destruct (Haab (example_atom 1 "A") (example_atom 2 "A")
              (example_atom 3 "B") eq_refl eq_refl eq_refl eq_refl eq_refl
              eq_refl eq_refl eq_refl) as (Hout & Hcount).
  destruct (Hcols (example_atom 2 "A")) as
    (_ & _ & Hid & Hresn & Hchain & _ & Hresi & Hi & _);
    [simpl; lia | simpl; lia | reflexivity | simpl; lia | reflexivity|].
  repeat split; assumption.
Defined.

(** * Further properties *)

(** ** PDB reader: which lines matter, and when it fails *)

Lemma parse_atom_ok_any mn mn' r r' line :
  is_ok (parse_atom mn r line) = is_ok (parse_atom mn' r' line).
Proof.
  unfold parse_atom.
  destruct (py_int (slice 6 11 line)); simpl; [|reflexivity].
  destruct (char_at line 16); simpl; [|reflexivity].
  destruct (char_at line 21); simpl; [|reflexivity].
  destruct (py_int (slice 22 26 line)); simpl; [|reflexivity].
  destruct (char_at line 26); simpl; [|reflexivity].
  destruct (py_float (slice 30 38 line)); simpl; [|reflexivity].
  destruct (py_float (slice 38 46 line)); simpl; [|reflexivity].
  destruct (py_float (slice 46 54 line)); simpl; [|reflexivity].
  destruct (py_float (slice 54 60 line)); simpl; [|reflexivity].
  destruct (py_float (slice 60 66 line)); simpl; reflexivity.
Qed.

Lemma parse_lines_ok ls : forall pdb mn,
  is_ok (parse_lines ls pdb mn) = forallb line_ok ls.
Proof.
  induction ls as [|l ls IH]; intros pdb mn; [reflexivity|].
  cbn [parse_lines forallb]. unfold line_ok at 1. fold (is_atom_line l).
  destruct (is_atom_line l).
  - rewrite (parse_atom_ok_any 1 mn (slice 0 6 l) (slice 0 6 l)).
    destruct (parse_atom mn (slice 0 6 l) l); simpl; [apply IH | reflexivity].
  - destruct (eqb (slice 0 6 l) MODEL).
    + destruct (py_int (slice 10 14 l)); simpl; [apply IH | reflexivity].
    + simpl. apply IH.
Qed.

(** X1: on an open stream [parse_pdb] returns a table exactly when every
    atom line and every [MODEL] line of the stream can be read; one line
    that cannot, anywhere, makes the whole call raise. *)
Theorem X1_parse_pdb_succeeds_iff fs f :
  io_closed f = false ->
  is_ok (snd (parse_pdb fs (PyFile f))) = forallb line_ok (io_lines f).
Proof.
  intros Hopen. simpl. rewrite Hopen.
  rewrite <- (parse_lines_ok (io_lines f) empty_table 1).
  destruct (parse_lines (io_lines f) empty_table 1); reflexivity.
Qed.

Lemma X1_parse_pdb_succeeds_iff_witness :
  is_ok (snd (parse_pdb no_files (PyFile (stream_of malformed_lines))))
  = forallb line_ok malformed_lines.
Proof.
  apply (X1_parse_pdb_succeeds_iff no_files (stream_of malformed_lines)).
  reflexivity.
Defined.

Lemma parse_lines_relevant ls : forall pdb mn,
  parse_lines ls pdb mn = parse_lines (List.filter relevant ls) pdb mn.
Proof.
  induction ls as [|l ls IH]; intros pdb mn; [reflexivity|].
  cbn [List.filter]. unfold relevant at 1, is_model_line.
  cbn [parse_lines]. fold (is_atom_line l).
  destruct (is_atom_line l) eqn:Hat; cbn [orb negb andb].
  - cbn [parse_lines]. fold (is_atom_line l). rewrite Hat.
    destruct (parse_atom mn (slice 0 6 l) l); simpl; [apply IH | reflexivity].
  - destruct (eqb (slice 0 6 l) MODEL) eqn:Hm.
    + cbn [parse_lines]. fold (is_atom_line l). rewrite Hat, Hm.
      destruct (py_int (slice 10 14 l)); simpl; [apply IH | reflexivity].
    + apply IH.
Qed.

(** X2: lines that are neither atom lines nor [MODEL] lines have no
    effect: the outcome of [parse_pdb], table or exception, is that of
    the input with those lines removed. *)
Theorem X2_parse_pdb_ignores_other_lines fs ls closed :
  snd (parse_pdb fs (PyFile {| io_lines := ls; io_closed := closed |})) =
  snd (parse_pdb fs (PyFile {| io_lines := List.filter relevant ls;
                               io_closed := closed |})).
Proof.
  simpl. destruct closed; [reflexivity|].
  rewrite (parse_lines_relevant ls).
  destruct (parse_lines (List.filter relevant ls) empty_table 1); reflexivity.
Qed.

(** X3: the table [parse_pdb] returns has one entry per atom line in each
    of its sixteen columns. *)
Theorem X3_parse_pdb_columns_aligned fs infile h pdb :
  parse_pdb fs infile = (h, Ok pdb) ->
  let n := count_atoms (source_lines fs infile) in
  length (pdb_model pdb) = n /\ length (pdb_record pdb) = n /\
  length (pdb_id pdb) = n /\ length (pdb_name pdb) = n /\
  length (pdb_alt pdb) = n /\ length (pdb_resn pdb) = n /\
  length (pdb_chain pdb) = n /\ length (pdb_resi pdb) = n /\
  length (pdb_i pdb) = n /\ length (pdb_x pdb) = n /\
  length (pdb_y pdb) = n /\ length (pdb_z pdb) = n /\
  length (pdb_q pdb) = n /\ length (pdb_b pdb) = n /\
  length (pdb_e pdb) = n /\ length (pdb_charge pdb) = n.
Proof.
  intros Hp n. apply parse_pdb_ok in Hp as (_ & rows & Hrows & ->).
  apply rows_of_atom_lines, Forall2_length in Hrows.
  unfold n, count_atoms. rewrite Hrows. simpl.
  rewrite !length_map. repeat split; reflexivity.
Qed.

Lemma X3_parse_pdb_columns_aligned_witness :
  let pdb := parsed model_lines in
  let n := count_atoms model_lines in
  length (pdb_model pdb) = n /\ length (pdb_record pdb) = n /\
  length (pdb_id pdb) = n /\ length (pdb_name pdb) = n /\
  length (pdb_alt pdb) = n /\ length (pdb_resn pdb) = n /\
  length (pdb_chain pdb) = n /\ length (pdb_resi pdb) = n /\
  length (pdb_i pdb) = n /\ length (pdb_x pdb) = n /\
  length (pdb_y pdb) = n /\ length (pdb_z pdb) = n /\
  length (pdb_q pdb) = n /\ length (pdb_b pdb) = n /\
  length (pdb_e pdb) = n /\ length (pdb_charge pdb) = n.
Proof.
  apply (X3_parse_pdb_columns_aligned no_files (PyFile (stream_of model_lines))
           (Some (close (stream_of model_lines))) (parsed model_lines)).
  vm_compute. reflexivity.
Defined.

Lemma rows_of_app l1 : forall mn l2 rows,
  rows_of mn (l1 ++ l2) rows ->
  exists rows1 rows2 mn',
    rows = rows1 ++ rows2 /\ length rows1 = count_atoms l1 /\
    rows_of mn' l2 rows2.
Proof.
  induction l1 as [|l l1 IH]; intros mn l2 rows Hrows.
  - exists [], rows, mn. auto.
  - simpl in Hrows.
    inversion Hrows as [| ? ? ? a rows' Hat Hpa Hr
                        | ? n ? ? ? Hat Hm Hn Hr
                        | ? ? ? ? Hat Hm Hr]; subst.
    + destruct (IH _ _ _ Hr) as (rows1 & rows2 & mn' & -> & Hlen & H2).
      exists (a :: rows1), rows2, mn'. unfold count_atoms in *. simpl.
      rewrite Hat. simpl. auto.
    + destruct (IH _ _ _ Hr) as (rows1 & rows2 & mn' & -> & Hlen & H2).
      exists rows1, rows2, mn'. unfold count_atoms in *. simpl.
      rewrite Hat. auto.
    + destruct (IH _ _ _ Hr) as (rows1 & rows2 & mn' & -> & Hlen & H2).
      exists rows1, rows2, mn'. unfold count_atoms in *. simpl.
      rewrite Hat. auto.
Qed.

(** X4: the atom lines that follow a [MODEL] line, up to the next
    [MODEL] line, get the number read from columns 11-14 of that line. *)
Theorem X4_model_line_scope fs infile h pdb pre mline mid rest n i :
  parse_pdb fs infile = (h, Ok pdb) ->
  source_lines fs infile = pre ++ mline :: mid ++ rest ->
  slice 0 6 mline = MODEL ->
  py_int (slice 10 14 mline) = Ok n ->
  Forall (fun line => slice 0 6 line <> MODEL) mid ->
  (i < count_atoms mid)%nat ->
  pdb_model pdb !! (count_atoms pre + i)%nat = Some n.
Proof.
  intros Hp Hsrc Hm Hn Hmid Hi.
  apply parse_pdb_ok in Hp as (_ & rows & Hrows & ->).
  rewrite Hsrc in Hrows.
  destruct (rows_of_app _ _ _ _ Hrows) as (rows1 & rows2 & mn' & -> & Hlen & H2).
  assert (Hrows2 : rows_of n (mid ++ rest) rows2).
  { inversion H2 as [| ? ? ? a rows' Hat Hpa Hr
                      | ? n' ? ? ? Hat Hm' Hn' Hr
                      | ? ? ? ? Hat Hm' Hr]; subst.
    - exfalso. unfold is_atom_line in Hat. rewrite Hm in Hat.
      vm_compute in Hat. discriminate.
    - congruence.
    - exfalso. rewrite Hm in Hm'. vm_compute in Hm'. discriminate. }
  destruct (rows_of_before_model _ _ _ _ Hrows2 Hmid)
    as (rows3 & rows4 & -> & Hlen3 & Hall).
  cbn [pdb_model table_of_rows]. rewrite list_lookup_fmap.
  rewrite lookup_app_r by lia.
  replace (count_atoms pre + i - length rows1)%nat with i by lia.
  unfold count_atoms in Hi. rewrite lookup_app_l by lia.
  destruct (lookup_lt_is_Some_2 rows3 i ltac:(lia)) as [a Ha].
  rewrite Ha. cbn [fmap option_fmap option_map]. f_equal.
  eapply Forall_lookup_1 in Hall; eauto.
Qed.

Lemma X4_model_line_scope_witness :
  pdb_model (parsed model_lines) !! (count_atoms (take 3 model_lines) + 0)%nat
  = Some 2.
Proof.
  apply (X4_model_line_scope no_files (PyFile (stream_of model_lines))
           (Some (close (stream_of model_lines))) (parsed model_lines)
           (take 3 model_lines) (pdb_line "MODEL        2")
           (drop 4 model_lines) [] 2 0%nat).
  - vm_compute. reflexivity.
  - reflexivity.
  - reflexivity.
  - reflexivity.
  - repeat constructor; vm_compute; discriminate.
  - vm_compute. lia.
Defined.

Lemma getitem_short {A} (l : list A) (i : Z) :
  Z.of_nat (length l) <= i -> getitem l i = Raise IndexError.
Proof.
  intros Hi. unfold getitem.
  destruct (Z.ltb_spec i 0); [lia|].
  destruct (Z.ltb_spec i (Z.of_nat (length l))); [lia|].
  rewrite andb_false_r. reflexivity.
Qed.

Lemma short_atom_line mn r line :
  (length line <= 26)%nat ->
  parse_atom mn r line = Raise ValueError \/
  parse_atom mn r line = Raise IndexError.
Proof.
  intros Hlen. unfold parse_atom.
  destruct (py_int (slice 6 11 line)) as [?|[]] eqn:H1; simpl;
    try (unfold py_int in H1;
         destruct (split_sign _) as [? ?];
         destruct (digitpart _ _ _); discriminate); auto.
  unfold char_at.
  destruct (getitem line 16) as [?|[]] eqn:H2; simpl;
    try (unfold getitem in H2;
         repeat match type of H2 with
                | context [if ?b then _ else _] => destruct b
                | context [match ?o with Some _ => _ | None => _ end] =>
                    destruct o
                end; discriminate); auto.
  destruct (getitem line 21) as [?|[]] eqn:H3; simpl;
    try (unfold getitem in H3;
         repeat match type of H3 with
                | context [if ?b then _ else _] => destruct b
                | context [match ?o with Some _ => _ | None => _ end] =>
                    destruct o
                end; discriminate); auto.
  destruct (py_int (slice 22 26 line)) as [?|[]] eqn:H4; simpl;
    try (unfold py_int in H4;
         destruct (split_sign _) as [? ?];
         destruct (digitpart _ _ _); discriminate); auto.
  rewrite (getitem_short line 26) by lia. simpl. auto.
Qed.

(** X5: an atom line of at most 26 characters, line end included, cannot
    be read (column 27 is indexed, not sliced): [parse_pdb] raises
    [ValueError] or [IndexError] on any input that holds such a line
    after lines that can be read. *)
Theorem X5_short_atom_line_fails fs pre line rest :
  forallb line_ok pre = true ->
  is_atom_line line = true -> (length line <= 26)%nat ->
  let r := snd (parse_pdb fs (PyFile (stream_of (pre ++ line :: rest)))) in
  r = Raise ValueError \/ r = Raise IndexError.
Proof.
  intros Hpre Hat Hlen. simpl.
  assert (H : forall pdb mn,
            parse_lines (pre ++ line :: rest) pdb mn = Raise ValueError \/
            parse_lines (pre ++ line :: rest) pdb mn = Raise IndexError).
  { clear -Hpre Hat Hlen. induction pre as [|l pre IH]; intros pdb mn.
    - cbn [app parse_lines]. fold (is_atom_line line). rewrite Hat.
      destruct (short_atom_line mn (slice 0 6 line) line Hlen) as [-> | ->];
        simpl; auto.
    - cbn [forallb] in Hpre. apply andb_true_iff in Hpre as [Hl Hpre].
      specialize (IH Hpre). cbn [app parse_lines]. fold (is_atom_line l).
      unfold line_ok in Hl. destruct (is_atom_line l).
      + rewrite (parse_atom_ok_any 1 mn _ (slice 0 6 l)) in Hl.
        destruct (parse_atom mn (slice 0 6 l) l); [|discriminate].
        simpl. apply IH.
      + destruct (eqb (slice 0 6 l) MODEL); [|apply IH].
        destruct (py_int (slice 10 14 l)); [|discriminate].
        simpl. apply IH. }
  destruct (H empty_table 1) as [-> | ->]; auto.
Qed.

Lemma X5_short_atom_line_fails_witness :
  let r := snd (parse_pdb no_files (PyFile (stream_of
             (take 3 model_lines ++ pdb_line "ATOM      4  CA  ALA A" :: []))))
  in r = Raise ValueError \/ r = Raise IndexError.
Proof.
  apply (X5_short_atom_line_fails no_files (take 3 model_lines)
           (pdb_line "ATOM      4  CA  ALA A") []).
  - vm_compute. reflexivity.
  - vm_compute. reflexivity.
  - vm_compute. lia.
Defined.

(** X6: when [parse_pdb] raises, it has closed nothing: a stream it was
    handed is in the state it came in, and a file it opened itself from
    a path is left open. *)
Theorem X6_parse_pdb_failure_closes_nothing fs infile h e :
  parse_pdb fs infile = (h, Raise e) ->
  match infile with
  | PyFile f => h = Some f
  | PyStr path =>
      match fs path with
      | Some ls => h = Some {| io_lines := ls; io_closed := false |}
      | None => h = None
      end
  | PyOther => h = None
  end.
Proof.
  destruct infile as [f|path|]; simpl.
  - destruct (io_closed f); [intros [= <- _]; reflexivity|].
    destruct (parse_lines (io_lines f) empty_table 1); [discriminate|].
    intros [= <- _]. reflexivity.
  - unfold open. destruct (fs path) as [ls|]; simpl.
    + destruct (parse_lines ls empty_table 1); [discriminate|].
      intros [= <- _]. reflexivity.
    + intros [= <- _]. reflexivity.
  - intros [= <- _]. reflexivity.
Qed.

Lemma X6_parse_pdb_failure_closes_nothing_witness :
  Some (stream_of malformed_lines) = Some (stream_of malformed_lines).
Proof.
  exact (X6_parse_pdb_failure_closes_nothing no_files
           (PyFile (stream_of malformed_lines))
           (Some (stream_of malformed_lines)) ValueError eq_refl).
Defined.

(** ** PDB writer: any table of rows *)

Lemma size_list_to_set_le (l : list Z) :
  (size (list_to_set l : gset Z) <= length l)%nat.
Proof.
  induction l as [|x l IH].
  - rewrite list_to_set_nil, size_empty. reflexivity.
  - rewrite list_to_set_cons, size_union_alt, size_singleton. cbn [length].
    assert (Hsub : list_to_set l ∖ {[x]} ⊆ (list_to_set l : gset Z))
      by apply subseteq_difference_l, reflexivity.
    apply subseteq_size in Hsub. lia.
Qed.

Lemma distinct_models_bounds rows :
  rows <> [] -> (1 <= distinct_models rows <= length rows)%nat.
Proof.
  intros Hne. unfold distinct_models. split.
  - destruct rows as [|a rows]; [congruence|]. cbn [map].
    rewrite list_to_set_cons, size_union_alt, size_singleton. lia.
  - rewrite <- (length_map a_model rows). apply size_list_to_set_le.
Qed.

Lemma length_chunks s n rows : length (chunks s n rows) = n.
Proof.
  revert rows. induction n as [|n IH]; intros rows; simpl; [reflexivity|].
  rewrite IH. reflexivity.
Qed.

Lemma chunks_lookup s n : forall rows i blk,
  chunks s n rows !! i = Some blk -> blk = take s (drop (i * s) rows).
Proof.
  induction n as [|n IH]; intros rows i blk Hi; [discriminate|].
  destruct i as [|i]; simpl in Hi.
  - injection Hi as <-. reflexivity.
  - rewrite (IH _ _ _ Hi), drop_drop.
    replace (S i * s)%nat with (s + i * s)%nat by lia. reflexivity.
Qed.

Lemma concat_chunks s n : forall rows,
  (n * s <= length rows)%nat -> concat (chunks s n rows) = take (n * s) rows.
Proof.
  induction n as [|n IH]; intros rows Hlen; [reflexivity|].
  simpl. rewrite IH by (rewrite length_drop; lia).
  rewrite <- (take_drop s rows) at 3.
  rewrite take_app_add'; [reflexivity|].
  symmetry. apply length_take_le. simpl in Hlen. lia.
Qed.

(** What [tofile] writes for the table of any rows, not all of them in
    equal blocks: it cuts the first [n * s] rows in [n] blocks of [s],
    for [n] distinct model numbers and [s] the quotient of the number of
    rows by [n]. *)
Lemma tofile_rows rows :
  rows <> [] ->
  let n := distinct_models rows in
  let s := (length rows / n)%nat in
  tofile (table_of_rows rows) =
  ({| written := blocks_lines (Z.of_nat n) 0 (chunks s n rows) ++ [END_LINE];
      out_closed := true |}, Ok tt).
Proof.
  intros Hne n s. destruct (distinct_models_bounds rows Hne) as [Hn1 Hn2].
  fold n in Hn1, Hn2.
  assert (Hs : (0 < s)%nat).
  { unfold s. apply Nat.div_str_pos. lia. }
  assert (Hns : (n * s <= length rows)%nat).
  { unfold s. apply Nat.Div0.mul_div_le. }
  unfold tofile, tofile_body.
  change (count_models (table_of_rows rows)) with (Z.of_nat n).
  cbn [pdb_id table_of_rows]. rewrite length_map.
  unfold wbind at 1. unfold wlift at 1. unfold int_div.
  destruct (Z.eqb_spec (Z.of_nat n) 0) as [H0|H0]; [lia|].
  rewrite <- Nat2Z.inj_div. fold s.
  unfold wbind at 1. rewrite range_of_nat.
  pose proof (models_loop rows s (Z.of_nat n) (chunks s n rows) 0
                {| written := []; out_closed := false |} Hs) as Hloop.
  rewrite length_chunks in Hloop. rewrite Hloop.
  - unfold wbind, write, wclose. reflexivity.
  - intros i blk Hi.
    pose proof (lookup_lt_Some _ _ _ Hi) as Hlt.
    rewrite length_chunks in Hlt.
    apply chunks_lookup in Hi. subst blk.
    assert (Hi' : (i * s + s <= length rows)%nat) by nia.
    split.
    + rewrite length_take_le; [reflexivity|]. rewrite length_drop. lia.
    + intros j a Hj. apply lookup_take_Some in Hj as [Hj _].
      rewrite lookup_drop in Hj. exact Hj.
Qed.

(** X7: on the table of any non-empty list of rows [tofile] ends
    normally, whatever the model numbers: with [n] distinct model
    numbers and [s = natoms div n] it writes the first [n * s] rows as
    [n] blocks of [s] rows, then [END], and closes the file. *)
Theorem X7_tofile_any_rows rows :
  rows <> [] ->
  let n := distinct_models rows in
  let s := (length rows / n)%nat in
  (1 <= n <= length rows)%nat /\ (1 <= s)%nat /\
  tofile (table_of_rows rows) =
  ({| written := blocks_lines (Z.of_nat n) 0 (chunks s n rows) ++ [END_LINE];
      out_closed := true |}, Ok tt).
Proof.
  intros Hne n s. split; [apply distinct_models_bounds, Hne|]. split.
  - unfold s. apply Nat.div_str_pos.
    pose proof (distinct_models_bounds rows Hne). fold n in H. lia.
  - apply tofile_rows, Hne.
Qed.

Lemma X7_tofile_any_rows_witness :
  let rows := [example_atom 1 "A"; example_model2_atom; example_atom 3 "B"] in
  let n := distinct_models rows in
  let s := (length rows / n)%nat in
  (1 <= n <= length rows)%nat /\ (1 <= s)%nat /\
  tofile (table_of_rows rows) =
  ({| written := blocks_lines (Z.of_nat n) 0 (chunks s n rows) ++ [END_LINE];
      out_closed := true |}, Ok tt).
Proof.
  apply (X7_tofile_any_rows
           [example_atom 1 "A"; example_model2_atom; example_atom 3 "B"]).
  discriminate.
Defined.

Lemma filter_atom_lines_blocks n blocks : forall k,
  Forall (Forall atom_or_hetatm) blocks ->
  List.filter is_atom_line (blocks_lines n k blocks)
  = map atom_line (concat blocks).
Proof.
  intros k Hall. revert k.
  induction Hall as [|blk blocks Hblk _ IH]; intros k; [reflexivity|].
  cbn [blocks_lines concat]. rewrite !List.filter_app, map_app.
  rewrite (filter_atom_lines_block blk None Hblk), IH.
  destruct (1 <? n); reflexivity.
Qed.

Lemma Forall_chunks (P : AtomRecord -> Prop) s n : forall rows,
  Forall P rows -> Forall (Forall P) (chunks s n rows).
Proof.
  induction n as [|n IH]; intros rows Hall; [constructor|].
  simpl. constructor.
  - apply Forall_take, Hall.
  - apply IH, Forall_drop, Hall.
Qed.

(** X8: the atom lines [tofile] writes are those of the first
    [n * (natoms div n)] rows, in order, for [n] distinct model numbers:
    when the number of rows is not a multiple of [n], the remaining rows
    are left out without any error. *)
Theorem X8_tofile_drops_remainder rows :
  rows <> [] -> Forall atom_or_hetatm rows ->
  let n := distinct_models rows in
  List.filter is_atom_line (written (fst (tofile (table_of_rows rows))))
  = map atom_line (take (n * (length rows / n)) rows).
Proof.
  intros Hne Hall n. rewrite (tofile_rows rows Hne). cbn [fst written].
  fold n. rewrite List.filter_app.
  rewrite filter_atom_lines_blocks by (apply Forall_chunks, Hall).
  rewrite concat_chunks by apply Nat.Div0.mul_div_le.
  change (List.filter is_atom_line [END_LINE]) with (@nil str).
  apply app_nil_r.
Qed.

Lemma X8_tofile_drops_remainder_witness :
  let rows := [example_atom 1 "A"; example_model2_atom; example_atom 3 "B"] in
  List.filter is_atom_line (written (fst (tofile (table_of_rows rows))))
  = map atom_line (take (distinct_models rows *
                         (length rows / distinct_models rows)) rows).
Proof.
  apply (X8_tofile_drops_remainder
           [example_atom 1 "A"; example_model2_atom; example_atom 3 "B"]).
  - discriminate.
  - repeat first [ apply List.Forall_nil | apply List.Forall_cons
                 | left; reflexivity | right; reflexivity ].
Defined.

(** Three rows with two distinct model numbers: the third row is not
    written. *)
Example tofile_remainder_example :
  map string_of_list_ascii
    (written (fst (tofile (table_of_rows
       [example_atom 1 "A"; example_model2_atom; example_atom 3 "B"])))) =
  ["MODEL        1
";
   "ATOM      1  CA  ALA A   1      12.345   0.000  -0.000  1.00  0.00          C   
";
   "ENDMDL
";
   "MODEL        2
";
   "HETATM    2 FE   HEM B   7       0.000   0.000   0.000  1.00  0.00          FE  
";
   "ENDMDL
";
   "END   
"]%string.
Proof. vm_compute. reflexivity. Qed.

Lemma last_block_lines rows : forall prev a,
  last rows = Some a ->
  exists front, block_lines prev rows = front ++ [atom_line a].
Proof.
  induction rows as [|b rows IH]; intros prev a Hlast; [discriminate|].
  rewrite block_lines_cons. destruct rows as [|c rows].
  - simpl in Hlast. injection Hlast as ->.
    eexists. cbn [block_lines]. rewrite app_nil_r. reflexivity.
  - change (last (b :: c :: rows)) with (last (c :: rows)) in Hlast.
    destruct (IH (Some b) a Hlast) as [front ->].
    eexists. rewrite app_assoc. reflexivity.
Qed.

(** X9: the last chain is never closed by a [TER] line: for rows of one
    model the line written just before [END] is the atom line of the
    last row. *)
Theorem X9_no_ter_after_last_atom rows a :
  last rows = Some a -> distinct_models rows = 1%nat ->
  exists front,
    written (fst (tofile (table_of_rows rows)))
    = front ++ [atom_line a; END_LINE].
Proof.
  intros Hlast Hone.
  assert (Hne : rows <> []) by (intros ->; discriminate).
  rewrite (tofile_rows rows Hne). cbn [fst written]. rewrite Hone.
  rewrite Nat.div_1_r. cbn [chunks blocks_lines Z.of_nat].
  change (1 <? Z.of_nat 1) with false. cbv iota.
  rewrite firstn_all, !app_nil_l, !app_nil_r.
  destruct (last_block_lines rows None a Hlast) as [front Hfront].
  exists front. rewrite Hfront, <- app_assoc. reflexivity.
Qed.

Lemma X9_no_ter_after_last_atom_witness :
  exists front,
    written (fst (tofile (table_of_rows
      [example_atom 1 "A"; example_atom 2 "B"])))
    = front ++ [atom_line (example_atom 2 "B"); END_LINE].
Proof.
  apply (X9_no_ter_after_last_atom
           [example_atom 1 "A"; example_atom 2 "B"] (example_atom 2 "B")).
  - reflexivity.
  - vm_compute. reflexivity.
Defined.

(** ** PDB writer: the output file on failure *)

Lemma keeps_wret {A} (a : A) : keeps_state (wret a).
Proof. intros f. reflexivity. Qed.

Lemma keeps_wlift {A} (r : result A) : keeps_state (wlift r).
Proof. intros f. reflexivity. Qed.

Lemma keeps_write s : keeps_state (write s).
Proof. intros f. reflexivity. Qed.

Lemma keeps_wbind {A B} (m : W A) (k : A -> W B) :
  keeps_state m -> (forall a, keeps_state (k a)) -> keeps_state (wbind m k).
Proof.
  intros Hm Hk f. unfold wbind. specialize (Hm f).
  destruct (m f) as [f' [a|e]]; simpl in *; [|exact Hm].
  rewrite Hk. exact Hm.
Qed.

Lemma keeps_when b m : keeps_state m -> keeps_state (when b m).
Proof. intros Hm. destruct b; [exact Hm | apply keeps_wret]. Qed.

Lemma keeps_for_in {A S} (xs : list A) (body : A -> S -> W S) :
  (forall x s, keeps_state (body x s)) ->
  forall s, keeps_state (for_in xs body s).
Proof.
  intros Hbody. induction xs as [|x xs IH]; intros s; simpl.
  - apply keeps_wret.
  - apply keeps_wbind; [apply Hbody | exact IH].
Qed.

Ltac keeps :=
  repeat first
    [ apply keeps_wret | apply keeps_wlift | apply keeps_write
    | apply keeps_when
    | apply keeps_wbind; [|intros ?] ].

Lemma keeps_ter_record pdb index : keeps_state (ter_record pdb index).
Proof. unfold ter_record. keeps. Qed.

Lemma keeps_atom_record pdb index : keeps_state (atom_record pdb index).
Proof. unfold atom_record. keeps. Qed.

Lemma keeps_atom_step pdb offset natom pc :
  keeps_state (atom_step pdb offset natom pc).
Proof.
  unfold atom_step. apply keeps_wbind; [keeps | intros current].
  apply keeps_wbind.
  - destruct (negb (eqb pc current)); [|keeps].
    apply keeps_wbind; [keeps | intros rec].
    apply keeps_wbind; [|intros ?; keeps].
    apply keeps_when, keeps_ter_record.
  - intros pc'. apply keeps_wbind; [apply keeps_atom_record | intros ?; keeps].
Qed.

Lemma keeps_model_step pdb n s k u : keeps_state (model_step pdb n s k u).
Proof.
  unfold model_step. apply keeps_wbind; [keeps | intros ?].
  apply keeps_wbind; [keeps | intros pc].
  apply keeps_wbind; [|intros ?; keeps].
  apply keeps_for_in. intros x s'. apply keeps_atom_step.
Qed.

(** X10: [tofile] closes the output file only on its normal path: when it
    returns, the file is closed and its last line is [END]; when it
    raises, whatever the table and wherever the failure, the file is
    left open with the lines written so far. *)
Theorem X10_tofile_closes_only_on_success pdb :
  match snd (tofile pdb) with
  | Ok _ => out_closed (fst (tofile pdb)) = true /\
            last (written (fst (tofile pdb))) = Some END_LINE
  | Raise _ => out_closed (fst (tofile pdb)) = false
  end.
Proof.
  destruct (tofile pdb) as [f r] eqn:H. cbn [fst snd].
  unfold tofile, tofile_body in H.
  set (f0 := {| written := []; out_closed := false |}) in H.
  unfold wbind at 1 in H. unfold wlift at 1 in H.
  destruct (int_div _ _) as [s|e]; [|injection H as <- <-; reflexivity].
  unfold wbind at 1 in H.
  pose proof (keeps_for_in (range (count_models pdb))
                (model_step pdb (count_models pdb) s)
                (fun x u => keeps_model_step pdb _ s x u) tt f0) as Hk.
  destruct (for_in _ _ _ f0) as [f1 [u|e]]; simpl in Hk, H;
    injection H as <- <-.
  - split; [reflexivity | apply last_snoc].
  - exact Hk.
Qed.

(** An id column shorter than the model column: the writer fails on the
    second row, after the first line, and leaves the file open. *)
Example tofile_ragged_table :
  let pdb := {|
    pdb_model := [1; 1]; pdb_record := [ATOM; ATOM]; pdb_id := [1; 2];
    pdb_name := [lit "CA"; lit "CB"]; pdb_alt := [lit " "; lit " "];
    pdb_resn := [lit "ALA"; lit "ALA"]; pdb_chain := [lit "A"];
    pdb_resi := [1; 1]; pdb_i := [lit " "; lit " "];
    pdb_x := [S754_zero false; S754_zero false];
    pdb_y := [S754_zero false; S754_zero false];
    pdb_z := [S754_zero false; S754_zero false];
    pdb_q := [S754_zero false; S754_zero false];
    pdb_b := [S754_zero false; S754_zero false];
    pdb_e := [lit "C"; lit "C"]; pdb_charge := [[]; []] |} in
  snd (tofile pdb) = Raise IndexError /\
  length (written (fst (tofile pdb))) = 1%nat /\
  out_closed (fst (tofile pdb)) = false.
Proof. vm_compute. repeat split; reflexivity. Qed.

(** X11: an input without any atom line parses to the empty table, and
    writing that table raises [ZeroDivisionError] before a single line
    is written, leaving the file open. *)
Theorem X11_no_atoms_then_write fs infile h pdb :
  parse_pdb fs infile = (h, Ok pdb) ->
  count_atoms (source_lines fs infile) = 0%nat ->
  pdb = empty_table /\
  tofile pdb = ({| written := []; out_closed := false |},
                Raise ZeroDivisionError).
Proof.
  intros Hp Hzero. apply parse_pdb_ok in Hp as (_ & rows & Hrows & ->).
  apply rows_of_atom_lines, Forall2_length in Hrows.
  unfold count_atoms in Hzero. rewrite Hzero in Hrows.
  destruct rows; [|discriminate]. split; reflexivity.
Qed.

Lemma X11_no_atoms_then_write_witness :
  parsed [pdb_line "REMARK no atoms"; pdb_line "END"] = empty_table /\
  tofile (parsed [pdb_line "REMARK no atoms"; pdb_line "END"])
  = ({| written := []; out_closed := false |}, Raise ZeroDivisionError).
Proof.
  apply (X11_no_atoms_then_write no_files
           (PyFile (stream_of [pdb_line "REMARK no atoms"; pdb_line "END"]))
           (Some (close (stream_of
              [pdb_line "REMARK no atoms"; pdb_line "END"])))).
  - vm_compute. reflexivity.
  - vm_compute. reflexivity.
Defined.

(** ** mmCIF reader *)

Lemma split_on_length sep s : forall cur,
  (1 <= length (split_on sep s cur))%nat /\
  (In sep s -> 2 <= length (split_on sep s cur))%nat.
Proof.
  induction s as [|c s IH]; intros cur; simpl.
  - split; [lia | tauto].
  - destruct (bool_decide (c = sep)) eqn:Hc.
    + destruct (IH []) as [H1 _]. simpl. split; [lia | intros _; lia].
    + destruct (IH (c :: cur)) as [H1 H2]. split; [exact H1|].
      intros [Heq|Hin]; [|auto].
      apply bool_decide_eq_false in Hc. congruence.
Qed.

Lemma startswith_app p s : startswith p s = true -> exists rest, s = p ++ rest.
Proof.
  unfold startswith, eqb. intros H. apply bool_decide_eq_true in H.
  exists (drop (length p) s). rewrite <- H at 1. symmetry. apply take_drop.
Qed.

Lemma mmcif_line_ok d line : exists d', mmcif_line d line = Ok d'.
Proof.
  unfold mmcif_line.
  destruct (startswith (lit "_atom_site.") line) eqn:Hs.
  - destruct (startswith_app _ _ Hs) as [rest ->].
    destruct (split_on_length "."%char (lit "_atom_site." ++ rest) [])
      as [_ H2].
    assert (Hlen : (2 <= length (split_on "."%char
                                   (lit "_atom_site." ++ rest) []))%nat).
    { apply H2. apply in_or_app. left. simpl. tauto. }
    destruct (lookup_lt_is_Some_2 _ 1 Hlen) as [w Hw].
    rewrite (getitem_lookup _ 1 w 1 Hw eq_refl). cbn [rbind].
    destruct (startswith (lit "ATOM") _); eauto.
  - cbn [rbind]. destruct (startswith (lit "ATOM") line); eauto.
Qed.

Lemma mmcif_lines_ok ls : forall d, exists d', mmcif_lines ls d = Ok d'.
Proof.
  induction ls as [|l ls IH]; intros d; simpl; [eauto|].
  destruct (mmcif_line_ok d l) as [d' ->]. simpl. apply IH.
Qed.

(** X12: on an open stream [parse_mmcif] never raises, whatever the
    lines, and it closes the stream. *)
Theorem X12_parse_mmcif_total fs f :
  io_closed f = false ->
  exists atom_site, parse_mmcif fs (PyFile f) = (Some (close f), Ok atom_site).
Proof.
  intros Hopen. simpl. rewrite Hopen.
  destruct (mmcif_lines_ok (io_lines f) []) as [d ->]. eauto.
Qed.

Lemma X12_parse_mmcif_total_witness :
  exists atom_site,
    parse_mmcif no_files (PyFile (stream_of malformed_lines))
    = (Some (close (stream_of malformed_lines)), Ok atom_site).
Proof.
  apply (X12_parse_mmcif_total no_files (stream_of malformed_lines)).
  reflexivity.
Defined.

Lemma mmcif_line_irrelevant d line :
  mmcif_relevant line = false -> mmcif_line d line = Ok d.
Proof.
  unfold mmcif_relevant, mmcif_line. intros H.
  apply orb_false_iff in H as [-> ->]. reflexivity.
Qed.

Lemma mmcif_lines_relevant ls : forall d,
  mmcif_lines ls d = mmcif_lines (List.filter mmcif_relevant ls) d.
Proof.
  induction ls as [|l ls IH]; intros d; [reflexivity|].
  cbn [List.filter mmcif_lines].
  destruct (mmcif_relevant l) eqn:Hl.
  - cbn [mmcif_lines]. destruct (mmcif_line d l); simpl; [apply IH|reflexivity].
  - rewrite (mmcif_line_irrelevant d l Hl). simpl. apply IH.
Qed.

(** X13: [parse_mmcif] reads only the lines that start with
    [_atom_site.] or with [ATOM]: its result is that of the input with
    all other lines removed, and the rows that start with [HETATM] are
    among the removed ones. *)
Theorem X13_parse_mmcif_ignores_other_lines fs ls closed :
  snd (parse_mmcif fs (PyFile {| io_lines := ls; io_closed := closed |})) =
  snd (parse_mmcif fs (PyFile {| io_lines := List.filter mmcif_relevant ls;
                                 io_closed := closed |})) /\
  forall rest, mmcif_relevant (lit "HETATM" ++ rest) = false.
Proof.
  split; [|reflexivity].
  simpl. destruct closed; [reflexivity|]. simpl.
  apply mmcif_lines_relevant.
Qed.

Lemma split_on_no_sep sep s : forall cur,
  ~ In sep s -> split_on sep s cur = [rev cur ++ s].
Proof.
  induction s as [|c s IH]; intros cur Hn; simpl.
  - rewrite app_nil_r. reflexivity.
  - rewrite bool_decide_eq_false_2 by (intros ->; apply Hn; left; reflexivity).
    rewrite IH by (intros H; apply Hn; right; exact H).
    simpl. rewrite <- app_assoc. reflexivity.
Qed.

Lemma split_on_first sep s1 s2 : forall cur,
  ~ In sep s1 ->
  split_on sep (s1 ++ sep :: s2) cur = (rev cur ++ s1) :: split_on sep s2 [].
Proof.
  induction s1 as [|c s1 IH]; intros cur Hn; simpl.
  - rewrite bool_decide_eq_true_2 by reflexivity. rewrite app_nil_r.
    reflexivity.
  - rewrite bool_decide_eq_false_2 by (intros ->; apply Hn; left; reflexivity).
    rewrite IH by (intros H; apply Hn; right; exact H).
    simpl. rewrite <- app_assoc. reflexivity.
Qed.

Lemma strip_name_nl name : nonspace name -> strip (name ++ nl) = name.
Proof.
  intros Hn. unfold strip.
  assert (Hl : lstrip (name ++ nl) = match name with [] => [] | _ => name ++ nl end).
  { destruct Hn as [|c name Hc _]; [reflexivity|]. simpl. rewrite Hc.
    reflexivity. }
  rewrite Hl. destruct name as [|c name]; [reflexivity|].
  unfold rstrip. rewrite rev_app_distr.
  change (rev nl) with nl. change (nl ++ rev (c :: name)) with
    (ascii_of_N 10 :: rev (c :: name)).
  cbn [lstrip]. change (isspace (ascii_of_N 10)) with true. cbv iota.
  rewrite lstrip_nonspace by (apply Forall_rev; exact Hn).
  apply rev_involutive.
Qed.

Lemma mmcif_line_decl d name :
  nonspace name -> ~ In "."%char name ->
  mmcif_line d (atom_site_decl name) = Ok (odict_reset name d).
Proof.
  intros Hn Hdot. unfold mmcif_line, atom_site_decl.
  change (startswith (lit "_atom_site.") (lit "_atom_site." ++ name ++ nl))
    with true.
  change (startswith (lit "ATOM") (lit "_atom_site." ++ name ++ nl))
    with false.
  cbv iota.
  change (lit "_atom_site." ++ name ++ nl)
    with (lit "_atom_site" ++ "."%char :: (name ++ nl)).
  rewrite split_on_first by (vm_compute; intuition discriminate).
  rewrite split_on_no_sep.
  - assert (Hg : forall a b : str, getitem [a; b] 1 = Ok b)
      by reflexivity.
    rewrite Hg. cbn [rbind rev app]. rewrite strip_name_nl by exact Hn.
    reflexivity.
  - intros H. apply in_app_or in H as [H|H]; [exact (Hdot H)|].
    vm_compute in H. intuition discriminate.
Qed.

Lemma odict_reset_fresh name d :
  ~ In name (map fst d) -> odict_reset name d = d ++ [(name, [])].
Proof.
  induction d as [|[k v] d IH]; intros Hn; simpl; [reflexivity|].
  unfold eqb. rewrite bool_decide_eq_false_2
    by (intros ->; apply Hn; left; reflexivity).
  rewrite IH by (intros H; apply Hn; right; exact H). reflexivity.
Qed.

Lemma mmcif_decls names : forall d rest,
  Forall nonspace names -> Forall (fun n => ~ In "."%char n) names ->
  List.NoDup (map fst d ++ names) ->
  mmcif_lines (map atom_site_decl names ++ rest) d =
  mmcif_lines rest (d ++ map (fun n => (n, [])) names).
Proof.
  induction names as [|n names IH]; intros d rest Hsp Hdot Hnd.
  - simpl. rewrite app_nil_r. reflexivity.
  - apply Forall_cons in Hsp as [Hn Hsp].
    apply Forall_cons in Hdot as [Hd Hdot].
    cbn [map app mmcif_lines]. rewrite (mmcif_line_decl d n Hn Hd).
    cbn [rbind]. rewrite odict_reset_fresh.
    + rewrite IH; [|assumption|assumption|].
      * rewrite <- app_assoc. reflexivity.
      * rewrite map_app. simpl. rewrite <- app_assoc. exact Hnd.
    + apply List.NoDup_remove_2 in Hnd. intros H. apply Hnd.
      apply in_or_app. left. exact H.
Qed.

Lemma mmcif_line_row d row :
  startswith (lit "ATOM") row = true ->
  mmcif_line d row = Ok (odict_zip_append d (split_ws row [])).
Proof.
  intros Hr. unfold mmcif_line. rewrite Hr.
  destruct (startswith_app _ _ Hr) as [rest ->]. reflexivity.
Qed.

Lemma columns_from_ext names : forall k f g,
  (forall j, (k <= j)%nat -> f j = g j) ->
  columns_from k names f = columns_from k names g.
Proof.
  induction names as [|n names IH]; intros k f g H; [reflexivity|].
  simpl. rewrite (H k) by lia. f_equal. apply IH. intros j Hj. apply H. lia.
Qed.

Lemma zip_append_columns names : forall k col ws,
  odict_zip_append (columns_from k names col) (drop k ws) =
  columns_from k names (fun j => col j ++ option_list (ws !! j)).
Proof.
  induction names as [|n names IH]; intros k col ws; [reflexivity|].
  cbn [columns_from odict_zip_append].
  destruct (ws !! k) as [w|] eqn:Hk.
  - rewrite (drop_S ws w k Hk). cbn [option_list]. f_equal. apply IH.
  - rewrite drop_ge by (apply lookup_ge_None; exact Hk).
    cbn [option_list]. rewrite app_nil_r. f_equal.
    apply columns_from_ext. intros j Hj.
    rewrite (proj2 (lookup_ge_None ws j)); [rewrite app_nil_r; reflexivity|].
    apply lookup_ge_None in Hk. lia.
Qed.

Lemma mmcif_rows rows : forall names col,
  Forall (fun r => startswith (lit "ATOM") r = true) rows ->
  mmcif_lines rows (columns_from 0 names col) =
  Ok (columns_from 0 names (fun j => col j ++ token_column j rows)).
Proof.
  induction rows as [|r rows IH]; intros names col Hall.
  - simpl. f_equal. apply columns_from_ext. intros j _.
    unfold token_column. simpl. rewrite app_nil_r. reflexivity.
  - apply Forall_cons in Hall as [Hr Hall].
    cbn [mmcif_lines]. rewrite (mmcif_line_row _ r Hr). cbn [rbind].
    rewrite <- (drop_0 (split_ws r [])) at 1.
    rewrite zip_append_columns, IH by exact Hall.
    f_equal. apply columns_from_ext. intros j _.
    unfold token_column. cbn [omap list_omap].
    destruct (split_ws r [] !! j); cbn [option_list];
      rewrite <- app_assoc; reflexivity.
Qed.

Lemma columns_from_imap names : forall k col,
  columns_from k names col = imap (fun j n => (n, col (k + j)%nat)) names.
Proof.
  induction names as [|n names IH]; intros k col; [reflexivity|].
  cbn [columns_from imap]. rewrite Nat.add_0_r. f_equal.
  rewrite IH. apply imap_ext. intros j x _. simpl. do 2 f_equal. lia.
Qed.

(** X14: the tokens of the [ATOM] rows are assigned to the declared
    columns by position: after distinct declarations, the column declared
    [j]-th holds the [j]-th whitespace-separated token of every row that
    has one, the record tag [ATOM] being token 0.  A row with fewer
    tokens than columns adds nothing to the trailing columns, which then
    fall out of step with the others. *)
Theorem X14_mmcif_columns_by_position fs names rows :
  Forall nonspace names -> Forall (fun n => ~ In "."%char n) names ->
  List.NoDup names ->
  Forall (fun r => startswith (lit "ATOM") r = true) rows ->
  snd (parse_mmcif fs (PyFile (stream_of (map atom_site_decl names ++ rows))))
  = Ok (imap (fun j name => (name, token_column j rows)) names).
Proof.
  intros Hsp Hdot Hnd Hrows. simpl.
  rewrite (mmcif_decls names [] rows Hsp Hdot Hnd). simpl app.
  assert (Hd : map (fun n => (n, @nil str)) names
               = columns_from 0 names (fun _ => [])).
  { rewrite columns_from_imap. clear. induction names as [|n names IH];
      [reflexivity|]. simpl. f_equal. rewrite IH.
    apply imap_ext. reflexivity. }
  rewrite Hd, (mmcif_rows rows names _ Hrows). f_equal.
  rewrite columns_from_imap. apply imap_ext. reflexivity.
Qed.

Lemma X14_mmcif_columns_by_position_witness :
  snd (parse_mmcif no_files (PyFile (stream_of
         (map atom_site_decl [lit "group_PDB"; lit "id"; lit "Cartn_x"] ++
          [pdb_line "ATOM 1 11.104"; pdb_line "ATOM 2"]))))
  = Ok (imap (fun j name =>
                (name, token_column j
                         [pdb_line "ATOM 1 11.104"; pdb_line "ATOM 2"]))
             [lit "group_PDB"; lit "id"; lit "Cartn_x"]).
Proof.
  apply (X14_mmcif_columns_by_position no_files
           [lit "group_PDB"; lit "id"; lit "Cartn_x"]
           [pdb_line "ATOM 1 11.104"; pdb_line "ATOM 2"]).
  - repeat constructor.
  - repeat constructor; vm_compute; intuition discriminate.
  - repeat constructor; vm_compute; intuition discriminate.
  - repeat constructor.
Defined.

(** A row with a token missing: the last column is one entry short. *)
Example mmcif_short_row :
  snd (parse_mmcif no_files (PyFile (stream_of
         (map atom_site_decl [lit "group_PDB"; lit "id"; lit "Cartn_x"] ++
          [pdb_line "ATOM 1 11.104"; pdb_line "ATOM 2";
           pdb_line "ATOM 3 6.134"]))))
  = Ok [(lit "group_PDB", [lit "ATOM"; lit "ATOM"; lit "ATOM"]);
        (lit "id", [lit "1"; lit "2"; lit "3"]);
        (lit "Cartn_x", [lit "11.104"; lit "6.134"])].
Proof. vm_compute. reflexivity. Qed.

(** ** Structure: per-atom element properties *)

Section PropertiesProps.

Variable Elem : Type.
Variable V : Type.
Variable capwords : str -> str.
Variable ELEMENTS : str -> option Elem.
Variable getattr : Elem -> str -> V.

Local Abbreviation element_values :=
  (StructMore.element_values Elem V capwords ELEMENTS getattr).
Local Abbreviation take_indices := (StructMore.take_indices V).
Local Abbreviation _get_property :=
  (StructMore._get_property Elem V capwords ELEMENTS getattr).

Lemma insert_unique_In x y l :
  In y (StructMore.insert_unique x l) <-> y = x \/ In y l.
Proof.
  induction l as [|z l IH]; simpl; [intuition|].
  destruct (eqb x z) eqn:Hxz.
  - apply bool_decide_eq_true in Hxz. subst z. simpl. intuition.
  - destruct (StructMore.str_ltb x z); simpl; [intuition|].
    rewrite IH. intuition.
Qed.

Lemma unique_In y a :
  In y (fold_right StructMore.insert_unique [] a) <-> In y a.
Proof.
  induction a as [|x a IH]; simpl; [tauto|].
  rewrite insert_unique_In, IH. intuition.
Qed.

Lemma index_of_lookup x l :
  In x l -> l !! StructMore.index_of x l = Some x.
Proof.
  induction l as [|y l IH]; intros Hin; [destruct Hin|]. simpl.
  destruct (eqb x y) eqn:Hxy.
  - apply bool_decide_eq_true in Hxy. subst y. reflexivity.
  - destruct Hin as [->|Hin]; [rewrite eqb_refl in Hxy; discriminate|].
    apply IH, Hin.
Qed.

Lemma element_values_found U ptype :
  (forall u, In u U -> ELEMENTS (capwords u) <> None) ->
  exists values,
    element_values U ptype = StructMore.Found values /\
    forall i u el, U !! i = Some u -> ELEMENTS (capwords u) = Some el ->
                   values !! i = Some (getattr el ptype).
Proof.
  induction U as [|u U IH]; intros Hall.
  - exists []. split; [reflexivity|]. intros i u el Hi. discriminate.
  - destruct IH as (values & Hv & Hlook).
    { intros u' Hu'. apply Hall. right. exact Hu'. }
    simpl. destruct (ELEMENTS (capwords u)) as [el|] eqn:He.
    + rewrite Hv. exists (getattr el ptype :: values).
      split; [reflexivity|]. intros [|i] u' el' Hi Hel; simpl in *.
      * injection Hi as <-. congruence.
      * eapply Hlook; eassumption.
    + exfalso. apply (Hall u); [left; reflexivity | exact He].
Qed.

Lemma element_values_missing U ptype :
  (exists u, In u U /\ ELEMENTS (capwords u) = None) ->
  exists u, In u U /\ ELEMENTS (capwords u) = None /\
            element_values U ptype = StructMore.KeyError (capwords u).
Proof.
  induction U as [|u U IH]; intros (u0 & Hin & Hnone); [destruct Hin|].
  simpl. destruct (ELEMENTS (capwords u)) as [el|] eqn:He.
  - destruct Hin as [->|Hin]; [congruence|].
    destruct IH as (u1 & Hin1 & Hn1 & Hv); [eauto|].
    exists u1. rewrite Hv. auto.
  - exists u. auto.
Qed.

Lemma take_indices_found values ind : forall vs,
  Forall2 (fun i v => values !! i = Some v) ind vs ->
  take_indices values ind = StructMore.Found vs.
Proof.
  induction ind as [|i ind IH]; intros vs H.
  - apply Forall2_nil_inv_l in H. subst. reflexivity.
  - apply Forall2_cons_inv_l in H as (v & vs' & Hi & Hrest & ->).
    simpl. rewrite Hi, (IH vs' Hrest). reflexivity.
Qed.

(** X15: when [ELEMENTS] has the capitalised symbol of every atom,
    [_get_property] returns, atom by atom, the attribute of the element
    of that atom: looking the distinct symbols up once and spreading the
    values by the inverse index gives what a lookup per atom gives. *)
Theorem X15_get_property_per_atom elems ptype (el : str -> Elem) :
  (forall e, In e elems ->
     ELEMENTS (capwords (StructMore.rstrip_nul e)) = Some (el e)) ->
  _get_property elems ptype
  = StructMore.Found (map (fun e => getattr (el e) ptype) elems).
Proof.
  intros Hall. unfold StructMore._get_property, StructMore.np_unique.
  set (a := map StructMore.rstrip_nul elems).
  set (U := fold_right StructMore.insert_unique [] a).
  destruct (element_values_found U ptype) as (values & -> & Hlook).
  { intros u Hu. apply (proj1 (unique_In u a)) in Hu. unfold a in Hu.
    apply in_map_iff in Hu as (e & <- & He). rewrite (Hall e He).
    discriminate. }
  apply take_indices_found. unfold a. rewrite map_map.
  apply Forall2_fmap. apply Forall2_same_length_lookup_2; [reflexivity|].
  intros i e e' Hi Hi'. assert (e' = e) as -> by congruence.
  assert (He : In e elems).
  { apply list_elem_of_In. eapply list_elem_of_lookup_2. exact Hi. }
  eapply Hlook; [|apply Hall, He].
  apply index_of_lookup. apply unique_In. unfold a.
  apply in_map. exact He.
Qed.

(** X16: when the capitalised symbol of some atom is not in [ELEMENTS],
    [_get_property] raises the [KeyError] of a missing symbol, whatever
    the other atoms are. *)
Theorem X16_get_property_key_error elems ptype e :
  In e elems -> ELEMENTS (capwords (StructMore.rstrip_nul e)) = None ->
  exists key,
    _get_property elems ptype = StructMore.KeyError key /\
    ELEMENTS key = None.
Proof.
  intros He Hnone. unfold StructMore._get_property, StructMore.np_unique.
  set (a := map StructMore.rstrip_nul elems).
  set (U := fold_right StructMore.insert_unique [] a).
  destruct (element_values_missing U ptype) as (u & _ & Hn & ->).
  { exists (StructMore.rstrip_nul e). split; [|exact Hnone].
    apply unique_In. unfold a. apply in_map. exact He. }
  eauto.
Qed.

End PropertiesProps.

Example np_unique_example :
  StructMore.np_unique [lit "C"; lit "N"; lit "C"; lit "CA"]
  = ([lit "C"; lit "CA"; lit "N"], [0; 2; 0; 1]%nat).
Proof. vm_compute. reflexivity. Qed.

Lemma X15_get_property_per_atom_witness :
  StructMore._get_property Z Z sample_capwords sample_elements sample_getattr
    [lit "C"; lit "N"; lit "C"; lit "CA"] (lit "number")
  = StructMore.Found
      (map (fun e => sample_getattr (sample_element e) (lit "number"))
           [lit "C"; lit "N"; lit "C"; lit "CA"]).
Proof.
  apply (X15_get_property_per_atom Z Z sample_capwords sample_elements
           sample_getattr [lit "C"; lit "N"; lit "C"; lit "CA"]
           (lit "number") sample_element).
  intros e He. simpl in He.
  destruct He as [<-|[<-|[<-|[<-|[]]]]]; vm_compute; reflexivity.
Defined.

Lemma X16_get_property_key_error_witness :
  exists key,
    StructMore._get_property Z Z sample_capwords sample_elements
      sample_getattr [lit "C"; lit "XX"; lit "N"] (lit "mass")
    = StructMore.KeyError key /\
    sample_elements key = None.
Proof.
  apply (X16_get_property_key_error Z Z sample_capwords sample_elements
           sample_getattr [lit "C"; lit "XX"; lit "N"] (lit "mass")
           (lit "XX")).
  - simpl. tauto.
  - vm_compute. reflexivity.
Defined.

(** ** Structure: shared library objects *)

Section AliasingProps.

Variable Prot : Type.
Variable RotMat : Type.
Variable prot_copy : Prot -> Prot.
Variable matrix_transform : RotMat -> Prot -> Prot.
Variable get_pos_vectors : Prot -> list (R * R * R).

Local Abbreviation duplicate := (Struct.duplicate Prot prot_copy).
Local Abbreviation rotate := (Struct.rotate Prot RotMat matrix_transform).
Local Abbreviation coor := (Struct.coor Prot get_pos_vectors).
Local Abbreviation get_prot := (Struct.get_prot Prot).

Lemma rotate_effect h self rotmat p v :
  get_prot h self = Ok (p, v) ->
  exists h',
    rotate h self rotmat = Ok h' /\
    forall s p' v',
      get_prot h s = Ok (p', v') ->
      get_prot h' s
      = Ok (p', if decide (p' = p) then matrix_transform rotmat v else v').
Proof.
  intros Hself. unfold Struct.rotate. rewrite Hself. cbn [rbind fst snd].
  eexists. split; [reflexivity|].
  intros s p' v' Hs. unfold Struct.get_prot in *.
  cbn [Struct.structures Struct.prots].
  destruct (Struct.structures Prot h !! s) as [q|]; [|discriminate].
  destruct (Struct.prots Prot h !! q) as [w|] eqn:Hq; [|discriminate].
  injection Hs as -> ->.
  destruct (decide (p' = p)) as [->|Hne].
  - rewrite lookup_insert_eq. reflexivity.
  - rewrite lookup_insert_ne by congruence. rewrite Hq. reflexivity.
Qed.

(** X17: [rotate] changes the library object of its receiver and
    nothing else: afterwards every instance that holds that same object
    has the transformed state, and every instance that holds another
    object has the state it had. *)
Theorem X17_rotate_reaches_sharers h self rotmat p v :
  get_prot h self = Ok (p, v) ->
  exists h',
    rotate h self rotmat = Ok h' /\
    forall s p' v',
      get_prot h s = Ok (p', v') ->
      get_prot h' s
      = Ok (p', if decide (p' = p) then matrix_transform rotmat v else v').
Proof.
  intros Hself. unfold Struct.rotate. rewrite Hself. cbn [rbind fst snd].
  eexists. split; [reflexivity|].
  intros s p' v' Hs. unfold Struct.get_prot in *.
  cbn [Struct.structures Struct.prots].
  destruct (Struct.structures Prot h !! s) as [q|]; [|discriminate].
  destruct (Struct.prots Prot h !! q) as [w|] eqn:Hq; [|discriminate].
  injection Hs as -> ->.
  destruct (decide (p' = p)) as [->|Hne].
  - rewrite lookup_insert_eq. reflexivity.
  - rewrite lookup_insert_ne by congruence. rewrite Hq. reflexivity.
Qed.

(** X18: once the [prot] setter has pointed an instance at the library
    object of another, a rotation of either shows in the coordinates of
    both. *)
Theorem X18_prot_setter_aliases h a b rotmat p v :
  get_prot h a = Ok (p, v) -> a <> b ->
  let h1 := StructMore.prot_set Prot h b p in
  exists h2,
    rotate h1 a rotmat = Ok h2 /\
    coor h2 b = Ok (Struct.transpose3
                      (get_pos_vectors (matrix_transform rotmat v))) /\
    coor h2 a = coor h2 b.
Proof.
  intros Ha Hab h1.
  assert (Ha1 : get_prot h1 a = Ok (p, v)).
  { unfold Struct.get_prot, h1, StructMore.prot_set in *.
    cbn [Struct.structures Struct.prots].
    rewrite lookup_insert_ne by congruence. exact Ha. }
  assert (Hb1 : get_prot h1 b = Ok (p, v)).
  { unfold Struct.get_prot, h1, StructMore.prot_set in *.
    cbn [Struct.structures Struct.prots]. rewrite lookup_insert_eq.
    destruct (Struct.structures Prot h !! a) as [q|]; [|discriminate].
    destruct (Struct.prots Prot h !! q) as [w|] eqn:Hq; [|discriminate].
    injection Ha as -> ->. rewrite Hq. reflexivity. }
  destruct (rotate_effect h1 a rotmat p v Ha1) as (h2 & Hr & Hall).
  exists h2. split; [exact Hr|].
  pose proof (Hall a p v Ha1) as Ha2. pose proof (Hall b p v Hb1) as Hb2.
  rewrite decide_True in Ha2, Hb2 by reflexivity.
  unfold Struct.coor. rewrite Ha2, Hb2. split; reflexivity.
Qed.


(** X19: [duplicate] adds one instance and one library object and
    touches nothing that was there: the new instance and the new object
    have addresses that were free, and every instance that existed reads
    as before. *)
Theorem X19_duplicate_frame h self pv :
  get_prot h self = Ok pv ->
  exists h1 dup p,
    duplicate h self = Ok (h1, dup) /\
    Struct.structures Prot h !! dup = None /\
    Struct.prots Prot h !! p = None /\
    get_prot h1 dup = Ok (p, prot_copy (snd pv)) /\
    forall s pv', get_prot h s = Ok pv' -> get_prot h1 s = Ok pv'.
Proof.
  intros Hself. destruct pv as [p0 v0].
  set (p := fresh (dom (Struct.prots Prot h))).
  set (d := fresh (dom (Struct.structures Prot h))).
  assert (Hp : Struct.prots Prot h !! p = None).
  { apply not_elem_of_dom, is_fresh. }
  assert (Hd : Struct.structures Prot h !! d = None).
  { apply not_elem_of_dom, is_fresh. }
  exists {| Struct.prots := <[p := prot_copy v0]> (Struct.prots Prot h);
            Struct.structures :=
              <[d := p]> (<[d := p0]> (Struct.structures Prot h)) |}, d, p.
  split; [|split; [exact Hd | split; [exact Hp | split]]].
  - unfold Struct.duplicate. rewrite Hself. reflexivity.
  - unfold Struct.get_prot. cbn [Struct.structures Struct.prots].
    rewrite !lookup_insert_eq. reflexivity.
  - intros s pv' Hs. unfold Struct.get_prot in *.
    cbn [Struct.structures Struct.prots].
    destruct (Struct.structures Prot h !! s) as [q|] eqn:Hq; [|discriminate].
    rewrite !lookup_insert_ne by congruence. rewrite Hq.
    destruct (Struct.prots Prot h !! q) as [w|] eqn:Hw; [|discriminate].
    rewrite lookup_insert_ne by congruence. rewrite Hw. exact Hs.
Qed.

End AliasingProps.

(** *** Instances on the sample object store *)

Lemma X17_rotate_reaches_sharers_witness :
  exists h',
    Struct.rotate Sample.Prot Sample.RotMat Sample.matrix_transform
      Sample.heap0 1%positive Sample.quarter_turn = Ok h' /\
    forall s p' v',
      Struct.get_prot Sample.Prot Sample.heap0 s = Ok (p', v') ->
      Struct.get_prot Sample.Prot h' s
      = Ok (p', if decide (p' = 1%positive)
                then Sample.matrix_transform Sample.quarter_turn [(3, 0, 0)%R]
                else v').
Proof.
  exact (X17_rotate_reaches_sharers Sample.Prot Sample.RotMat
           Sample.matrix_transform Sample.heap0 1%positive
           Sample.quarter_turn 1%positive [(3, 0, 0)%R] heap0_first).
Defined.

Lemma X18_prot_setter_aliases_witness :
  exists h2,
    Struct.rotate Sample.Prot Sample.RotMat Sample.matrix_transform
      (StructMore.prot_set Sample.Prot Sample.heap0 2%positive 1%positive)
      1%positive Sample.quarter_turn = Ok h2 /\
    Struct.coor Sample.Prot Sample.get_pos_vectors h2 2%positive
    = Ok (Struct.transpose3
            (Sample.get_pos_vectors
               (Sample.matrix_transform Sample.quarter_turn [(3, 0, 0)%R]))) /\
    Struct.coor Sample.Prot Sample.get_pos_vectors h2 1%positive
    = Struct.coor Sample.Prot Sample.get_pos_vectors h2 2%positive.
Proof.
  refine (X18_prot_setter_aliases Sample.Prot Sample.RotMat
            Sample.matrix_transform Sample.get_pos_vectors Sample.heap0
            1%positive 2%positive Sample.quarter_turn 1%positive
            [(3, 0, 0)%R] heap0_first _).
  discriminate.
Defined.

Lemma X19_duplicate_frame_witness :
  exists h1 dup p,
    Struct.duplicate Sample.Prot (fun v => v) Sample.heap0 1%positive
    = Ok (h1, dup) /\
    Struct.structures Sample.Prot Sample.heap0 !! dup = None /\
    Struct.prots Sample.Prot Sample.heap0 !! p = None /\
    Struct.get_prot Sample.Prot h1 dup = Ok (p, [(3, 0, 0)%R]) /\
    forall s pv',
      Struct.get_prot Sample.Prot Sample.heap0 s = Ok pv' ->
      Struct.get_prot Sample.Prot h1 s = Ok pv'.
Proof.
  exact (X19_duplicate_frame Sample.Prot (fun v => v) Sample.heap0
           1%positive (1%positive, [(3, 0, 0)%R]) heap0_first).
Defined.
